(** * Webpage resolution and correction pipeline

    A shallow embedding of [fix_ipo_webpages.py] and [verify_webpages.py]:
    the URL classifier, the AI response parser, the two-provider resolver,
    the liveness checker and the two dataset correctors.

    Python [str] values are Rocq strings; a character is read as the code
    point of the same number (U+0000 to U+00FF).  External collaborators
    (the HTTP transport and the two AI SDKs) are functions given as section
    variables; console output, network requests and file writes are
    recorded in a trace. *)

From Stdlib Require Import String Ascii List ZArith NArith Bool Lia.
Import ListNotations.
Open Scope string_scope.
Open Scope list_scope.

Set Implicit Arguments.
Set Warnings "-register-all".

(** ** Python strings *)

Module PyStr.

Definition code (c : ascii) : N := N_of_ascii c.

Definition in_range (lo hi : N) (c : ascii) : bool :=
  (lo <=? code c)%N && (code c <=? hi)%N.

(** [str.isspace] on one character: TAB..CR, FS..US, SPACE, NEL, NBSP. *)
Definition isspace (c : ascii) : bool :=
  in_range 9 13 c || in_range 28 32 c
  || (code c =? 133)%N || (code c =? 160)%N.

(** Unicode alphanumerics below U+0100, as [str.isalnum] has them. *)
Definition isalnum (c : ascii) : bool :=
  in_range 48 57 c || in_range 65 90 c || in_range 97 122 c
  || (code c =? 170)%N || (code c =? 178)%N || (code c =? 179)%N
  || (code c =? 181)%N || (code c =? 185)%N || (code c =? 186)%N
  || in_range 188 190 c || in_range 192 214 c || in_range 216 246 c
  || in_range 248 255 c.

(** [\w] of the [re] module on [str] patterns. *)
Definition isword (c : ascii) : bool :=
  isalnum c || (code c =? 95)%N.

(** Simple lower-case mapping; it stays below U+0100. *)
Definition lower (c : ascii) : ascii :=
  if in_range 65 90 c
     || (in_range 192 222 c && negb (code c =? 215)%N)
  then ascii_of_N (code c + 32) else c.

(** [str.upper] on one character, as code points: the sharp s becomes
    two letters, the micro sign and y-diaeresis leave the range. *)
Definition upper_char (c : ascii) : list N :=
  if in_range 97 122 c then [(code c - 32)%N]
  else if (code c =? 223)%N then [83%N; 83%N]
  else if (code c =? 181)%N then [924%N]
  else if (code c =? 255)%N then [376%N]
  else if in_range 224 254 c && negb (code c =? 247)%N
       then [(code c - 32)%N]
  else [code c].

Fixpoint upper (s : string) : list N :=
  match s with
  | EmptyString => []
  | String c s' => upper_char c ++ upper s'
  end.

Definition codes (s : string) : list N :=
  map code (list_ascii_of_string s).

Fixpoint lstrip (s : string) : string :=
  match s with
  | EmptyString => EmptyString
  | String c s' => if isspace c then lstrip s' else s
  end.

Fixpoint rstrip (s : string) : string :=
  match s with
  | EmptyString => EmptyString
  | String c s' =>
      match rstrip s' with
      | EmptyString => if isspace c then EmptyString else String c EmptyString
      | r => String c r
      end
  end.

Definition strip (s : string) : string := rstrip (lstrip s).

Definition startswith (s p : string) : bool := String.prefix p s.

Definition nonempty (s : string) : bool :=
  match s with EmptyString => false | _ => true end.

Definition quote2 : ascii := "034"%char.
Definition quote1 : ascii := "'"%char.
Definition newline : ascii := "010"%char.

End PyStr.

(** ** The fragment of [re] the scripts use

    Patterns are compiled from their source text.  The fragment has
    literals, escaped punctuation, [\b], [\s], bracket sets, [^], [$],
    [?] on one item and top-level [|]; anything else does not compile. *)

Module Re.

Inductive set_item :=
| SChar (c : ascii)
| SSpace.

Inductive atom :=
| AChar (c : ascii)
| ASet (items : list set_item)
| AWordB
| ABegin
| AEnd.

Inductive piece :=
| One (a : atom)
| Opt (a : atom).

Definition branch := list piece.
Definition regex := list branch.

(** *** Compilation *)

Inductive pmode :=
| PNormal
| PEscape
| PSet (items : list set_item)
| PSetEscape (items : list set_item).

Record pstate := mkP {
  done : list branch;       (* finished branches, last first *)
  cur : list piece;         (* current branch, last first *)
  mode : pmode
}.

Definition is_punct (c : ascii) : bool :=
  PyStr.in_range 33 47 c || PyStr.in_range 58 64 c
  || PyStr.in_range 91 94 c || (PyStr.code c =? 96)%N
  || PyStr.in_range 123 126 c.

Definition unsupported (c : ascii) : bool :=
  existsb (Ascii.eqb c) ["."; "*"; "+"; "("; ")"; "{"]%char.

Definition push (st : pstate) (p : piece) : option pstate :=
  Some (mkP (done st) (p :: cur st) PNormal).

Definition pstep (st : pstate) (c : ascii) : option pstate :=
  match mode st with
  | PNormal =>
      if Ascii.eqb c "\" then Some (mkP (done st) (cur st) PEscape)
      else if Ascii.eqb c "[" then Some (mkP (done st) (cur st) (PSet []))
      else if Ascii.eqb c "|" then Some (mkP (rev (cur st) :: done st) [] PNormal)
      else if Ascii.eqb c "?" then
        match cur st with
        | One a :: rest => Some (mkP (done st) (Opt a :: rest) PNormal)
        | _ => None
        end
      else if Ascii.eqb c "^" then push st (One ABegin)
      else if Ascii.eqb c "$" then push st (One AEnd)
      else if unsupported c then None
      else push st (One (AChar c))
  | PEscape =>
      if Ascii.eqb c "b" then push st (One AWordB)
      else if Ascii.eqb c "s" then push st (One (ASet [SSpace]))
      else if is_punct c then push st (One (AChar c))
      else None
  | PSet items =>
      if Ascii.eqb c "]" then
        match items with
        | [] => None
        | _ => push st (One (ASet (rev items)))
        end
      else if Ascii.eqb c "\" then Some (mkP (done st) (cur st) (PSetEscape items))
      else if Ascii.eqb c "^" || Ascii.eqb c "-" || Ascii.eqb c "[" then None
      else Some (mkP (done st) (cur st) (PSet (SChar c :: items)))
  | PSetEscape items =>
      if Ascii.eqb c "s" then Some (mkP (done st) (cur st) (PSet (SSpace :: items)))
      else if is_punct c then Some (mkP (done st) (cur st) (PSet (SChar c :: items)))
      else None
  end.

Fixpoint prun (st : pstate) (s : string) : option pstate :=
  match s with
  | EmptyString => Some st
  | String c s' =>
      match pstep st c with
      | Some st' => prun st' s'
      | None => None
      end
  end.

(** [re.compile(pattern)]; [None] stands for a pattern outside the
    fragment. *)
Definition compile (pattern : string) : option regex :=
  match prun (mkP [] [] PNormal) pattern with
  | Some st =>
      match mode st with
      | PNormal => Some (rev (rev (cur st) :: done st))
      | _ => None
      end
  | None => None
  end.

(** *** Matching *)

Section Match.
(** [re.I] *)
Variable ignorecase : bool.

Definition char_eq (p x : ascii) : bool :=
  if ignorecase then Ascii.eqb (PyStr.lower x) (PyStr.lower p)
  else Ascii.eqb x p.

Definition item_match (i : set_item) (x : ascii) : bool :=
  match i with
  | SChar c => char_eq c x
  | SSpace => PyStr.isspace x
  end.

Definition word_before (prev : option ascii) : bool :=
  match prev with Some c => PyStr.isword c | None => false end.

Definition word_after (s : string) : bool :=
  match s with String c _ => PyStr.isword c | EmptyString => false end.

Definition at_end (s : string) : bool :=
  match s with
  | EmptyString => true
  | String c EmptyString => Ascii.eqb c PyStr.newline
  | _ => false
  end.

(** One atom at one position: [None] when it fails, otherwise the
    character now behind the cursor and the rest of the subject. *)
Definition atom_match (a : atom) (prev : option ascii) (s : string)
  : option (option ascii * string) :=
  match a with
  | AChar c =>
      match s with
      | String x s' => if char_eq c x then Some (Some x, s') else None
      | EmptyString => None
      end
  | ASet items =>
      match s with
      | String x s' =>
          if existsb (fun i => item_match i x) items
          then Some (Some x, s') else None
      | EmptyString => None
      end
  | AWordB =>
      if xorb (word_before prev) (word_after s) then Some (prev, s) else None
  | ABegin =>
      match prev with None => Some (prev, s) | Some _ => None end
  | AEnd =>
      if at_end s then Some (prev, s) else None
  end.

(** Every way a branch matches at this position, in the order the
    backtracking matcher tries them (the optional item first), each
    given by the rest of the subject after the match. *)
Fixpoint branch_match (b : branch) (prev : option ascii) (s : string)
  : list string :=
  match b with
  | [] => [s]
  | One a :: b' =>
      match atom_match a prev s with
      | Some (p', s') => branch_match b' p' s'
      | None => []
      end
  | Opt a :: b' =>
      match atom_match a prev s with
      | Some (p', s') => branch_match b' p' s'
      | None => []
      end ++ branch_match b' prev s
  end.

Definition match_at (r : regex) (prev : option ascii) (s : string)
  : list string :=
  flat_map (fun b => branch_match b prev s) r.

Definition found {A} (l : list A) : bool :=
  match l with [] => false | _ => true end.

Fixpoint search_from (r : regex) (prev : option ascii) (s : string) : bool :=
  found (match_at r prev s)
  || match s with
     | String c s' => search_from r (Some c) s'
     | EmptyString => false
     end.

(** [bool(pattern.search(s))] *)
Definition search (r : regex) (s : string) : bool := search_from r None s.

(** [pattern.sub("", s)]: scanning from the left, the first match at
    the cursor that consumes something is deleted and the scan goes
    on behind it; an empty match deletes nothing.  [skip] counts the
    characters of a match still to be dropped. *)
Fixpoint sub_from (r : regex) (prev : option ascii) (s : string)
         (skip : nat) : string :=
  match s with
  | EmptyString => EmptyString
  | String c s' =>
      match skip with
      | S k => sub_from r (Some c) s' k
      | O =>
          match find (fun rest => Nat.ltb (String.length rest) (String.length s))
                     (match_at r prev s) with
          | Some rest =>
              sub_from r (Some c) s'
                       (String.length s - String.length rest - 1)
          | None => String c (sub_from r (Some c) s' 0)
          end
      end
  end.

Definition sub_empty (r : regex) (s : string) : string :=
  sub_from r None s 0.

End Match.

End Re.

(** ** Python values

    What [json.load] returns and what the scripts test with [isinstance],
    [bool] and [or].  A dict keeps its keys in insertion order. *)

Inductive value :=
| VNone
| VBool (b : bool)
| VInt (z : Z)
| VFloat (mantissa exponent : Z)
| VStr (s : string)
| VList (l : list value)
| VDict (d : list (string * value)).

Definition truthy (v : value) : bool :=
  match v with
  | VNone => false
  | VBool b => b
  | VInt z => negb (z =? 0)%Z
  | VFloat m _ => negb (m =? 0)%Z
  | VStr s => PyStr.nonempty s
  | VList l => match l with [] => false | _ => true end
  | VDict d => match d with [] => false | _ => true end
  end.

Definition isinstance_str (v : value) : bool :=
  match v with VStr _ => true | _ => false end.

(** ** URL classifier ([fix_ipo_webpages.py]) *)

Definition NON_BRAND_URL_PATTERNS : list string :=
  [ "yahoo\.com";
    "finance\.yahoo";
    "/quote/";
    "\bfinance\.";
    "\bir\.";
    "\binvestors\.";
    "\binvestor\.";
    "sec\.gov";
    "nasdaq\.com";
    "bloomberg\.com";
    "reuters\.com";
    "edgar";
    "investorrelations";
    "/investor[s]?[/\s]";
    "/ir[/\s]";
    "/shareholder" ].

(** [re.compile("|".join(NON_BRAND_URL_PATTERNS), re.I)] *)
Definition NON_BRAND_REGEX : option Re.regex :=
  Re.compile (String.concat "|" NON_BRAND_URL_PATTERNS).

Definition search_I (p : option Re.regex) (s : string) : bool :=
  match p with
  | Some r => Re.search true r s
  | None => false
  end.

Definition is_non_brand_page (url : value) : bool :=
  if negb (truthy url) || negb (isinstance_str url) then false
  else match url with
       | VStr s => search_I NON_BRAND_REGEX s
       | _ => false
       end.

(** ** AI response parser (the same text in both scripts) *)

(** The pattern of [re.sub]: a quote at the start or a quote at the end. *)
Definition EDGE_QUOTE_PATTERN : string :=
  String "^" (String "[" (String PyStr.quote1 (String "\" (String PyStr.quote2
  (String "]" (String "|" (String "[" (String PyStr.quote1 (String "\"
  (String PyStr.quote2 (String "]" (String "$" EmptyString)))))))))))).

Definition re_sub_empty (pattern : string) (s : string) : string :=
  match Re.compile pattern with
  | Some r => Re.sub_empty false r s
  | None => s
  end.

Definition _parse_ai_url (text : option string) : option string :=
  let text := PyStr.strip (match text with Some t => t | None => "" end) in
  let text := re_sub_empty EDGE_QUOTE_PATTERN text in
  if (if list_eq_dec N.eq_dec (PyStr.upper text) (PyStr.codes "NONE")
      then true else false)
     || negb (PyStr.startswith text "http")
  then None
  else Some text.

(** ** Dicts in insertion order *)

Section Dict.
Variable V : Type.

Definition dict := list (string * V).

Fixpoint dict_get (k : string) (d : dict) : option V :=
  match d with
  | [] => None
  | (k', v) :: d' => if String.eqb k k' then Some v else dict_get k d'
  end.

(** [d[k] = v]: an existing key keeps its place, a new one goes last. *)
Fixpoint dict_set (k : string) (v : V) (d : dict) : dict :=
  match d with
  | [] => [(k, v)]
  | (k', v') :: d' =>
      if String.eqb k k' then (k', v) :: d' else (k', v') :: dict_set k v d'
  end.

Definition keys (d : dict) : list string := map fst d.

(** [d.get(k, default)] *)
Definition get_default (k : string) (default : V) (d : dict) : V :=
  match dict_get k d with Some v => v | None => default end.
End Dict.

Definition mem (k : string) (l : list string) : bool :=
  existsb (String.eqb k) l.

(** ** Effects: exceptions, the trace and the files *)

Inductive failure :=
| Timeout
| DNSFailure
| ConnectionRefused
| MalformedURL
| OtherFailure.

Inductive exn :=
| HTTPError (code : Z)
| TransportError (f : failure)
| ProviderError (msg : string)
| ImportError
| AttributeError
| TypeError
| ValueError
| FileNotFoundError
| SystemExit (code : Z).

(** [isinstance(e, Exception)]: [SystemExit] derives from [BaseException]
    only. *)
Definition is_Exception (e : exn) : bool :=
  match e with SystemExit _ => false | _ => true end.

Inductive outcome (A : Type) :=
| Returns (a : A)
| Raises (e : exn).
Arguments Returns {A} a.
Arguments Raises {A} e.

(** What one HEAD request comes to. *)
Inductive transport_result :=
| Response (status : Z)
| ErrorResponse (code : Z)
| Failed (f : failure).

(** What one SDK call comes to: the text of the reply ([None] when the
    reply carries none) or an error. *)
Inductive provider_response :=
| Content (text : option string)
| ProviderFailed (msg : string).

Inductive line :=
| LNoKey
| LInstallOpenAI
| LOpenAIError (e : exn)
| LGeminiError (e : exn)
| LTryingGemini
| LAsking
| LNoWebpageColumn (csv_name : string)
| LIpoPage (csv_name name url : string)
| LReplaced (new_url : string)
| LKeepOriginal
| LSavedCsv (csv_name : string) (fixed : nat)
| LJson (name current : string)
| LSet (new_url : string)
| LNoAlternative
| LSavedJson (json_fixed : nat)
| LDone (total_fixed : nat)
| LBroken (status : Z) (name : value) (url : string)
| LReplacedStatus (new_url : string) (new_status : Z)
| LKeptOld (new_status : Z)
| LStillBroken (fixed failed : nat).

Inductive event :=
| EvHead (url : string) (timeout : Z)
| EvOpenAI (company_name country : value)
| EvGemini (company_name country : value)
| EvRead (path : string)
| EvWrite (path : string)
| EvRecord (path : string)         (* a loop body starts on a record *)
| EvPrint (l : line).

(** A CSV file as [csv.reader] yields it: the cells of the first line
    ([None] when the file is empty) and the cells of every later line, a
    blank line being the empty list.  Quoting and line ends are the
    business of the reader and of the writer: a cell is the string the
    one yields and the other is given. *)
Record csv_table := mkCsv {
  fieldnames : option (list string);
  lines : list (list string)
}.

(** A row as [csv.DictReader] yields it.  Under a column name it holds
    the cell of the line, or [None] where the line is too short to have
    one; the cells of a line beyond its last column are under the key
    [None]: they are [surplus], which is empty when the dict has no such
    key. *)
Record row := mkRow {
  cells : dict (option string);
  surplus : list string
}.

(** [row.get(k)] *)
Definition row_get (k : string) (r : row) : option string :=
  match dict_get k (cells r) with
  | Some c => c
  | None => None
  end.

(** [row.get(k, "")]: the default stands for a missing key, not for a
    cell that is [None]. *)
Definition row_get_or_empty (k : string) (r : row) : option string :=
  get_default k (Some "") (cells r).

(** [row[k] = v] *)
Definition set_cell (k v : string) (r : row) : row :=
  mkRow (dict_set k (Some v) (cells r)) (surplus r).

(** [dict(zip(fieldnames, row))] *)
Fixpoint zip_dict (fn line : list string) (d : dict (option string))
  : dict (option string) :=
  match fn, line with
  | k :: fn', c :: line' => zip_dict fn' line' (dict_set k (Some c) d)
  | _, _ => d
  end.

(** [for key in fieldnames[lr:]: d[key] = None] *)
Fixpoint pad (missing : list string) (d : dict (option string))
  : dict (option string) :=
  match missing with
  | [] => d
  | k :: rest => pad rest (dict_set k None d)
  end.

(** The dict [DictReader.__next__] makes of one line. *)
Definition read_row (fn line : list string) : row :=
  mkRow (pad (skipn (List.length line) fn) (zip_dict fn line []))
        (skipn (List.length fn) line).

Definition is_blank (line : list string) : bool :=
  match line with [] => true | _ => false end.

(** [list(csv.DictReader(f))]: blank lines are passed over. *)
Definition rows (t : csv_table) : list row :=
  match fieldnames t with
  | Some fn => map (read_row fn) (filter (fun l => negb (is_blank l)) (lines t))
  | None => []
  end.

Record world := mkWorld {
  csv_files : string -> option csv_table;
  json_file : option value;
  trace : list event
}.

Definition M (A : Type) : Type := world -> outcome A * world.

Definition ret {A} (a : A) : M A := fun w => (Returns a, w).

Definition bind {A B} (m : M A) (k : A -> M B) : M B :=
  fun w =>
    match m w with
    | (Returns a, w') => k a w'
    | (Raises e, w') => (Raises e, w')
    end.

Definition raise {A} (e : exn) : M A := fun w => (Raises e, w).

Definition emit (ev : event) : M unit :=
  fun w => (Returns tt, mkWorld (csv_files w) (json_file w) (trace w ++ [ev])).

Definition print (l : line) : M unit := emit (EvPrint l).

(** [try: body / except ...]: [handler] gives the clause that takes the
    exception, if one does. *)
Definition try_except {A} (body : M A) (handler : exn -> option (M A)) : M A :=
  fun w =>
    match body w with
    | (Returns a, w') => (Returns a, w')
    | (Raises e, w') =>
        match handler e with
        | Some h => h w'
        | None => (Raises e, w')
        end
    end.

Declare Scope py_scope.
Delimit Scope py_scope with py.
Notation "x <- m ;; k" := (bind m (fun x => k))
  (at level 61, m at next level, right associativity) : py_scope.
Notation "' p <- m ;; k" := (bind m (fun p => k))
  (at level 61, p pattern, m at next level, right associativity) : py_scope.
Notation "m ;; k" := (bind m (fun _ => k))
  (at level 61, right associativity) : py_scope.
Open Scope py_scope.

Inductive ctrl := Next | Break.

(** [s or default] on strings *)
Definition str_or (s default : string) : string :=
  if PyStr.nonempty s then s else default.

(** Truth of a [str | None] *)
Definition opt_truthy (o : option string) : bool :=
  match o with Some s => PyStr.nonempty s | None => false end.

Definition opt_str (o : option string) : string :=
  match o with Some s => s | None => "" end.

(** The collaborators and the configuration a run finds. *)
Record env := mkEnv {
  urlopen_head : string -> Z -> transport_result;
  openai_importable : bool;
  openai_create : string -> value -> value -> provider_response;
  genai_importable : bool;
  gemini_generate : string -> value -> value -> provider_response;
  openai_key : option string;       (* what [get_ai_keys] returns *)
  gemini_key : option string
}.

Section Scripts.
Variable E : env.

(** ** Liveness checker ([verify_webpages.py]) *)

Definition urlopen (url : string) (timeout : Z) : M Z :=
  emit (EvHead url timeout) ;;
  match urlopen_head E url timeout with
  | Response status => ret status
  | ErrorResponse code => raise (HTTPError code)
  | Failed f => raise (TransportError f)
  end.

Definition check_url (url : string) (timeout : Z) : M Z :=
  try_except
    (urlopen url timeout)
    (fun e =>
       match e with
       | HTTPError code => Some (ret code)
       | _ => if is_Exception e then Some (ret (-1)%Z) else None
       end).

(** ** AI resolver (the same text in both scripts, prompts apart) *)

Definition import_module (importable : bool) : M unit :=
  if importable then ret tt else raise ImportError.

Definition sdk_call (r : provider_response) : M (option string) :=
  match r with
  | Content text => ret text
  | ProviderFailed msg => raise (ProviderError msg)
  end.

Definition ask_openai_for_webpage (company_name country : value)
           (api_key : string) : M (option string) :=
  try_except
    (import_module (openai_importable E) ;;
     emit (EvOpenAI company_name country) ;;
     content <- sdk_call (openai_create E api_key company_name country) ;;
     ret (_parse_ai_url content))
    (fun e =>
       if is_Exception e
       then Some (print (LOpenAIError e) ;; ret None)
       else None).

Definition ask_gemini_for_webpage (company_name country : value)
           (api_key : string) : M (option string) :=
  try_except
    (import_module (genai_importable E) ;;
     emit (EvGemini company_name country) ;;
     text <- sdk_call (gemini_generate E api_key company_name country) ;;
     ret (_parse_ai_url text))
    (fun e =>
       if is_Exception e
       then Some (print (LGeminiError e) ;; ret None)
       else None).

(** The first [if] of [ask_ai_for_webpage] either returns from the
    function ([Some]) or falls through ([None]). *)
Definition ask_ai_for_webpage (company_name country : value)
           (openai_key gemini_key : option string) : M (option string) :=
  returned <-
    (if opt_truthy openai_key then
       new_url <- ask_openai_for_webpage company_name country (opt_str openai_key) ;;
       if opt_truthy new_url then ret (Some new_url)
       else print LTryingGemini ;; ret None
     else ret None) ;;
  match returned with
  | Some new_url => ret new_url
  | None =>
      if opt_truthy gemini_key
      then ask_gemini_for_webpage company_name country (opt_str gemini_key)
      else ret None
  end.

End Scripts.

(** ** Files *)

Definition set_csv (name : string) (t : csv_table) (w : world) : world :=
  mkWorld (fun p => if String.eqb p name then Some t else csv_files w p)
          (json_file w) (trace w).

Definition set_json (data : value) (w : world) : world :=
  mkWorld (csv_files w) (Some data) (trace w).

Definition JSON_NAME : string := "companies-by-revenue.json".

(** [csv_path.exists()] *)
Definition csv_exists (name : string) : M bool :=
  fun w => (Returns (match csv_files w name with Some _ => true | None => false end), w).

(** [json_path.exists()] *)
Definition json_exists : M bool :=
  fun w => (Returns (match json_file w with Some _ => true | None => false end), w).

(** [rows = list(csv.DictReader(f)); fieldnames = reader.fieldnames] *)
Definition read_csv (name : string) : M csv_table :=
  emit (EvRead name) ;;
  fun w =>
    match csv_files w name with
    | Some t => (Returns t, w)
    | None => (Raises FileNotFoundError, w)
    end.

(** [json.load(f)] *)
Definition read_json : M value :=
  emit (EvRead JSON_NAME) ;;
  fun w =>
    match json_file w with
    | Some data => (Returns data, w)
    | None => (Raises FileNotFoundError, w)
    end.

(** The line [DictWriter] writes for [r]: one cell per field name,
    [rowdict.get(key, "")], a [None] being written as the empty string. *)
Definition written_row (fn : list string) (r : row) : list string :=
  map (fun k => opt_str (row_get k r)) fn.

(** [rowdict.keys() - fieldnames] is empty: the dict has no key [None]
    and no other key outside the field names. *)
Definition writable (fn : list string) (r : row) : bool :=
  is_blank (surplus r) && forallb (fun k => mem k fn) (keys (cells r)).

(** [writer.writerows(rows)]: the lines written, and whether every row
    passed; a row with a key outside the field names raises [ValueError]
    after the lines before it are written. *)
Fixpoint writerows (fn : list string) (rs : list row)
  : list (list string) * bool :=
  match rs with
  | [] => ([], true)
  | r :: rest =>
      if writable fn r
      then let (ws, ok) := writerows fn rest in (written_row fn r :: ws, ok)
      else ([], false)
  end.

(** [open(csv_path, "w")], [DictWriter(f, fieldnames)], [writeheader],
    [writerows]. *)
Definition write_csv (name : string) (fieldnames : option (list string))
           (rs : list row) : M unit :=
  emit (EvWrite name) ;;
  match fieldnames with
  | None => fun w => (Raises TypeError, set_csv name (mkCsv None []) w)
  | Some fn =>
      let (ws, ok) := writerows fn rs in
      fun w => (if ok then Returns tt else Raises ValueError,
                set_csv name (mkCsv (Some fn) ws) w)
  end.

(** [json.dump(data, f, indent=2)] *)
Definition write_json (data : value) : M unit :=
  emit (EvWrite JSON_NAME) ;;
  fun w => (Returns tt, set_json data w).

(** ** What both [main]s do with a JSON value *)

(** [x.get]: only a dict has the method. *)
Definition as_dict (v : value) : M (dict value) :=
  match v with
  | VDict d => ret d
  | _ => raise AttributeError
  end.

(** [x.strip()]: only a str has the method. *)
Definition strip_method (v : value) : M string :=
  match v with
  | VStr s => ret (PyStr.strip s)
  | _ => raise AttributeError
  end.

(** The same for what a row holds under a column name. *)
Definition cell_strip (c : option string) : M string :=
  match c with
  | Some s => ret (PyStr.strip s)
  | None => raise AttributeError
  end.

Definition chars (s : string) : list value :=
  map (fun c => VStr (String c EmptyString)) (list_ascii_of_string s).

(** [for c in companies]: the items the loop runs over. *)
Definition iterate (companies : value) : M (list value) :=
  match companies with
  | VList l => ret l
  | VDict d => ret (map (fun k => VStr k) (keys d))
  | VStr s => ret (chars s)
  | _ => raise TypeError
  end.

(** The loop changes dicts in place; those dicts are the items of the
    list under ["companies"], so the list seen through [data] holds the
    changed items.  Keys of a dict and characters of a str are not dicts,
    so nothing there can change. *)
Definition with_companies (data : dict value) (items : list value) : dict value :=
  match dict_get "companies" data with
  | Some (VList _) => dict_set "companies" (VList items) data
  | _ => data
  end.

(** [data.get("companies", [])] and the items to loop over. *)
Definition get_companies (data : value) : M (dict value * list value) :=
  d <- as_dict data ;;
  items <- iterate (get_default "companies" (VList []) d) ;;
  ret (d, items).

(** [sys.exit(1)] unless some key is set and, when the OpenAI key is,
    its package imports. *)
Definition startup (E : env) : M unit :=
  (if negb (opt_truthy (openai_key E)) && negb (opt_truthy (gemini_key E))
   then print LNoKey ;; raise (SystemExit 1)
   else ret tt) ;;
  (if openai_importable E then ret tt
   else if opt_truthy (openai_key E)
        then print LInstallOpenAI ;; raise (SystemExit 1)
        else ret tt).

(** ** [fix_ipo_webpages.py] *)

Module FixIpoWebpages.

Definition CSVS : list string :=
  ["CDC_midbln.csv"; "CDC_IPO.csv"; "CDC_CIS_100mln.csv"].

(** The counters a record loop carries. *)
Record locals := mkLocals {
  fixed : nat;
  total_fixed : nat;
  limit_remaining : Z
}.

Section Main.
Variable E : env.
(** [args.limit] *)
Variable limit : Z.

Definition ask (name country : string) : M (option string) :=
  ask_ai_for_webpage E (VStr name) (VStr country) (openai_key E) (gemini_key E).

(** [fixed += 1; total_fixed += 1] and the budget test with its
    [:=]. *)
Definition count_fix (st : locals) : locals * ctrl :=
  let fixed := S (fixed st) in
  let total_fixed := S (total_fixed st) in
  if negb (limit =? 0)%Z then
    let limit_remaining := (limit_remaining st - 1)%Z in
    (mkLocals fixed total_fixed limit_remaining,
     if (limit_remaining <=? 0)%Z then Break else Next)
  else (mkLocals fixed total_fixed (limit_remaining st), Next).

(** Body of [for row in rows]. *)
Definition csv_row (csv_name : string) (r : row) (st : locals)
  : M (row * locals * ctrl) :=
  emit (EvRecord csv_name) ;;
  let url := PyStr.strip (opt_str (row_get "webpage" r)) in
  if negb (PyStr.nonempty url) || negb (PyStr.startswith url "http")
  then ret (r, st, Next)
  else if negb (is_non_brand_page (VStr url))
  then ret (r, st, Next)
  else
    name <- cell_strip (row_get_or_empty "brand_name" r) ;;
    let name := str_or name "Unknown" in
    country <- cell_strip (row_get_or_empty "country" r) ;;
    let country := str_or country "" in
    print (LIpoPage csv_name name url) ;;
    print LAsking ;;
    new_url <- ask name country ;;
    if opt_truthy new_url then
      print (LReplaced (opt_str new_url)) ;;
      let r' := set_cell "webpage" (opt_str new_url) r in
      let (st', c) := count_fix st in
      ret (r', st', c)
    else
      print LKeepOriginal ;;
      ret (r, st, Next).

Fixpoint csv_rows (csv_name : string) (rs : list row) (st : locals)
  : M (list row * locals) :=
  match rs with
  | [] => ret ([], st)
  | r :: rest =>
      '(r', st', c) <- csv_row csv_name r st ;;
      match c with
      | Break => ret (r' :: rest, st')
      | Next =>
          '(rest', st'') <- csv_rows csv_name rest st' ;;
          ret (r' :: rest', st'')
      end
  end.

(** Body of [for csv_name in CSVS]; the pair is
    [(total_fixed, limit_remaining)]. *)
Definition csv_file (csv_name : string) (st : nat * Z) : M (nat * Z * ctrl) :=
  present <- csv_exists csv_name ;;
  if negb present then ret (st, Next)
  else
    t <- read_csv csv_name ;;
    if negb (mem "webpage" (match fieldnames t with Some fn => fn | None => [] end))
    then print (LNoWebpageColumn csv_name) ;; ret (st, Next)
    else
      '(rs, l) <- csv_rows csv_name (rows t) (mkLocals 0 (fst st) (snd st)) ;;
      let st' := (total_fixed l, limit_remaining l) in
      if (limit_remaining l <=? 0)%Z && negb (limit =? 0)%Z
      then ret (st', Break)
      else
        (if (0 <? fixed l)%nat
         then write_csv csv_name (fieldnames t) rs ;;
              print (LSavedCsv csv_name (fixed l))
         else ret tt) ;;
        ret (st', Next).

Fixpoint csv_files_loop (names : list string) (st : nat * Z) : M (nat * Z) :=
  match names with
  | [] => ret st
  | csv_name :: rest =>
      '(st', c) <- csv_file csv_name st ;;
      match c with
      | Break => ret st'
      | Next => csv_files_loop rest st'
      end
  end.

(** Body of [for c in companies]. *)
Definition json_company (c : value) (st : locals) : M (value * locals * ctrl) :=
  emit (EvRecord JSON_NAME) ;;
  d <- as_dict c ;;
  let url := get_default "webpage" VNone d in
  let url_str := match url with VStr s => PyStr.strip s | _ => "" end in
  name <- strip_method (get_default "name" (VStr "") d) ;;
  let name := str_or name "Unknown" in
  country <- strip_method (get_default "country" (VStr "") d) ;;
  let country := str_or country "" in
  let has_ipo := truthy (get_default "ipo" VNone d) in
  let needs_fix :=
    (negb (PyStr.nonempty url_str) && has_ipo)
    || (PyStr.nonempty url_str && is_non_brand_page (VStr url_str)) in
  if negb needs_fix then ret (c, st, Next)
  else
    print (LJson name url_str) ;;
    print LAsking ;;
    new_url <- ask name country ;;
    if opt_truthy new_url then
      print (LSet (opt_str new_url)) ;;
      let c' := VDict (dict_set "webpage" (VStr (opt_str new_url)) d) in
      let (st', k) := count_fix st in
      ret (c', st', k)
    else
      print LNoAlternative ;;
      ret (c, st, Next).

Fixpoint json_companies (cs : list value) (st : locals)
  : M (list value * locals) :=
  match cs with
  | [] => ret ([], st)
  | c :: rest =>
      '(c', st', k) <- json_company c st ;;
      match k with
      | Break => ret (c' :: rest, st')
      | Next =>
          '(rest', st'') <- json_companies rest st' ;;
          ret (c' :: rest', st'')
      end
  end.

(** The part of [main] on [companies-by-revenue.json]; returns
    [total_fixed]. *)
Definition json_part (st : nat * Z) : M nat :=
  present <- json_exists ;;
  if present && negb (negb (limit =? 0)%Z && (snd st <=? 0)%Z) then
    data <- read_json ;;
    '(d, companies) <- get_companies data ;;
    '(cs, l) <- json_companies companies (mkLocals 0 (fst st) (snd st)) ;;
    (if (0 <? fixed l)%nat
     then write_json (VDict (with_companies d cs)) ;;
          print (LSavedJson (fixed l))
     else ret tt) ;;
    ret (total_fixed l)
  else ret (fst st).

(** [main] after the start-up checks. *)
Definition pass : M unit :=
  st <- csv_files_loop CSVS (0%nat, limit) ;;
  total_fixed <- json_part st ;;
  print (LDone total_fixed).

Definition main : M unit :=
  startup E ;;
  pass.

End Main.

End FixIpoWebpages.

(** ** [verify_webpages.py] *)

Module VerifyWebpages.

Definition BAD_CODES : list Z := [404; 423]%Z.

Definition in_codes (status : Z) (codes : list Z) : bool :=
  existsb (Z.eqb status) codes.

(** The triples appended to [failed]. *)
Definition failed_entry : Type := value * string * option string.

Section Main.
Variable E : env.

(** Body of [for i, c in enumerate(companies)]; the state is
    [(fixed, failed)]. *)
Definition company (c : value) (st : nat * list failed_entry)
  : M (value * (nat * list failed_entry)) :=
  emit (EvRecord JSON_NAME) ;;
  d <- as_dict c ;;
  let url := match get_default "webpage" VNone d with
             | VStr s => Some s
             | _ => None
             end in
  if negb (opt_truthy url) || negb (PyStr.startswith (opt_str url) "http")
  then ret (c, st)
  else
    let url := opt_str url in
    let name := get_default "name" (VStr "Unknown") d in
    let country := get_default "country" (VStr "") d in
    status <- check_url E url 10 ;;
    if in_codes status BAD_CODES then
      print (LBroken status name url) ;;
      print LAsking ;;
      new_url <- ask_ai_for_webpage E name country (openai_key E) (gemini_key E) ;;
      if opt_truthy new_url then
        let new_url := opt_str new_url in
        new_status <- check_url E new_url 10 ;;
        if negb (in_codes new_status BAD_CODES)
           && (200 <=? new_status)%Z && (new_status <? 400)%Z
        then
          print (LReplacedStatus new_url new_status) ;;
          ret (VDict (dict_set "webpage" (VStr new_url) d), (S (fst st), snd st))
        else
          print (LKeptOld new_status) ;;
          ret (c, (fst st, snd st ++ [(name, url, Some new_url)]))
      else
        print LNoAlternative ;;
        ret (c, (fst st, snd st ++ [(name, url, None)]))
    else ret (c, st).

Fixpoint companies_loop (cs : list value) (st : nat * list failed_entry)
  : M (list value * (nat * list failed_entry)) :=
  match cs with
  | [] => ret ([], st)
  | c :: rest =>
      '(c', st') <- company c st ;;
      '(rest', st'') <- companies_loop rest st' ;;
      ret (c' :: rest', st'')
  end.

(** [main] after the start-up checks; returns [(fixed, failed)]. *)
Definition pass : M (nat * list failed_entry) :=
  data <- read_json ;;
  '(d, companies) <- get_companies data ;;
  '(cs, st) <- companies_loop companies (0%nat, []) ;;
  write_json (VDict (with_companies d cs)) ;;
  print (LStillBroken (fst st) (List.length (snd st))) ;;
  ret st.

Definition main : M unit :=
  startup E ;;
  pass ;;
  ret tt.

End Main.

End VerifyWebpages.

(** ** The parser in the words of the specification

    Strip surrounding whitespace, then one leading and one trailing quote
    character; no answer when what is left equals NONE without regard to
    case or does not begin with the scheme prefix. *)

Module Spec.

Definition is_quote (c : ascii) : bool :=
  Ascii.eqb c PyStr.quote1 || Ascii.eqb c PyStr.quote2.

Definition drop_first_quote (s : string) : string :=
  match s with
  | String c s' => if is_quote c then s' else s
  | EmptyString => EmptyString
  end.

Fixpoint drop_last_quote (s : string) : string :=
  match s with
  | EmptyString => EmptyString
  | String c EmptyString => if is_quote c then EmptyString else s
  | String c s' => String c (drop_last_quote s')
  end.

Fixpoint lower_string (s : string) : string :=
  match s with
  | EmptyString => EmptyString
  | String c s' => String (PyStr.lower c) (lower_string s')
  end.

Definition ci_equal (a b : string) : bool :=
  String.eqb (lower_string a) (lower_string b).

Definition parse_response (text : option string) : option string :=
  let t := drop_last_quote (drop_first_quote (PyStr.strip (opt_str text))) in
  if ci_equal t "NONE" || negb (String.prefix "http" t) then None else Some t.

(** A status code of an HTTP response: three digits. *)
Definition http_status (s : Z) : Prop := (100 <= s <= 999)%Z.

End Spec.

(** The three responses the specification names. *)
Definition quoted (s : string) : string :=
  String PyStr.quote2 (s ++ String PyStr.quote2 EmptyString).

(** ** Compiled form of the quote pattern *)

Definition QUOTES : list Re.set_item :=
  [Re.SChar PyStr.quote1; Re.SChar PyStr.quote2].

Definition EDGE_QUOTE_REGEX : Re.regex :=
  [[Re.One Re.ABegin; Re.One (Re.ASet QUOTES)];
   [Re.One (Re.ASet QUOTES); Re.One Re.AEnd]].

(** ** Computations that only add to the trace *)

Definition add_events (evs : list event) (w : world) : world :=
  mkWorld (csv_files w) (json_file w) (trace w ++ evs).

(** [m] ends in [o] and adds [evs] to the trace, whatever the world. *)
Definition says {A} (m : M A) (o : outcome A) (evs : list event) : Prop :=
  forall w, m w = (o, add_events evs w).

Definition count (p : event -> bool) (evs : list event) : nat :=
  List.length (filter p evs).

(** ** What the collaborators answer *)

(** The candidate one provider yields: none when its package does not
    import, when the call fails, or when the reply does not parse. *)
Definition provider_answer (importable : bool) (r : provider_response)
  : option string :=
  if importable then
    match r with
    | Content text => _parse_ai_url text
    | ProviderFailed _ => None
    end
  else None.

(** The configured providers in priority order, each by its candidate. *)
Definition provider_answers (E : env) (name country : value)
           (openai_key gemini_key : option string) : list (option string) :=
  (if opt_truthy openai_key
   then [provider_answer (openai_importable E)
           (openai_create E (opt_str openai_key) name country)]
   else [])
  ++ (if opt_truthy gemini_key
      then [provider_answer (genai_importable E)
              (gemini_generate E (opt_str gemini_key) name country)]
      else []).

Fixpoint first_candidate (answers : list (option string)) : option string :=
  match answers with
  | [] => None
  | Some u :: _ => Some u
  | None :: rest => first_candidate rest
  end.

Definition resolve (E : env) (name country : value) : option string :=
  first_candidate (provider_answers E name country (openai_key E) (gemini_key E)).

(** Events of the fallback provider: its request or its error line. *)
Definition gemini_event (ev : event) : bool :=
  match ev with
  | EvGemini _ _ | EvPrint (LGeminiError _) => true
  | _ => false
  end.

(** Events the resolver can add. *)
Definition resolver_event (ev : event) : bool :=
  match ev with
  | EvOpenAI _ _ | EvGemini _ _
  | EvPrint (LOpenAIError _) | EvPrint (LGeminiError _)
  | EvPrint LTryingGemini => true
  | _ => false
  end.

(** The status [check_url] reports. *)
Definition status_of (E : env) (url : string) (timeout : Z) : Z :=
  match urlopen_head E url timeout with
  | Response status => status
  | ErrorResponse code => code
  | Failed _ => (-1)%Z
  end.

(** ** Kinds of events *)

Definition is_record (ev : event) : bool :=
  match ev with EvRecord _ => true | _ => false end.

Definition is_asking (ev : event) : bool :=
  match ev with EvPrint LAsking => true | _ => false end.

Definition is_replaced (ev : event) : bool :=
  match ev with
  | EvPrint (LReplaced _) | EvPrint (LSet _) => true
  | _ => false
  end.

(** The resolver was asked. *)
Definition asks (evs : list event) : bool := existsb is_asking evs.

Definition is_file_event (ev : event) : bool :=
  match ev with EvWrite _ | EvRead _ => true | _ => false end.

(** ** The record loops as functions on lists *)

Section Loop.
Variables A St : Type.
(** What one pass of the body makes of an item and the counters. *)
Variable step : A -> St -> A * St * ctrl.

Fixpoint loop_result (xs : list A) (st : St) : list A * St :=
  match xs with
  | [] => ([], st)
  | x :: rest =>
      let '(x', st', c) := step x st in
      match c with
      | Break => (x' :: rest, st')
      | Next =>
          let (rest', st'') := loop_result rest st' in
          (x' :: rest', st'')
      end
  end.

(** How many items the loop gets to. *)
Fixpoint loop_visited (xs : list A) (st : St) : nat :=
  match xs with
  | [] => 0
  | x :: rest =>
      let '(_, st', c) := step x st in
      match c with
      | Break => 1
      | Next => S (loop_visited rest st')
      end
  end.
End Loop.

(** A body that replaces the webpage of the items [hit] selects and
    counts each replacement against the budget. *)
Definition hit_step {A} (limit : Z) (hit : A -> bool) (update : A -> A)
           (x : A) (st : FixIpoWebpages.locals)
  : A * FixIpoWebpages.locals * ctrl :=
  if hit x
  then let (st', c) := FixIpoWebpages.count_fix limit st in (update x, st', c)
  else (x, st, Next).

Definition b2n (b : bool) : nat := if b then 1 else 0.

(** *** CSV rows *)

Definition csv_url (r : row) : string :=
  PyStr.strip (opt_str (row_get "webpage" r)).

(** The condition of classification mode as the specification words it. *)
Definition claimed_eligible (url : string) : bool :=
  PyStr.nonempty url && PyStr.startswith url "http"
  && is_non_brand_page (VStr url).

(** The row has a str under [brand_name] and under [country], or lacks
    the key: [.strip()] can be called on what [row.get(k, "")] gives. *)
Definition csv_named (r : row) : bool :=
  match row_get_or_empty "brand_name" r, row_get_or_empty "country" r with
  | Some _, Some _ => true
  | _, _ => false
  end.

(** A row the body gets through: it is not eligible, or it is named. *)
Definition typed_row (r : row) : bool :=
  negb (claimed_eligible (csv_url r)) || csv_named r.

Definition csv_name (r : row) : string :=
  str_or (PyStr.strip (opt_str (row_get_or_empty "brand_name" r))) "Unknown".

Definition csv_country (r : row) : string :=
  str_or (PyStr.strip (opt_str (row_get_or_empty "country" r))) "".

Definition csv_answer (E : env) (r : row) : option string :=
  resolve E (VStr (csv_name r)) (VStr (csv_country r)).

(** Rows that are eligible and for which the resolver has a candidate. *)
Definition csv_hit (E : env) (r : row) : bool :=
  claimed_eligible (csv_url r) && opt_truthy (csv_answer E r).

Definition csv_update (E : env) (r : row) : row :=
  set_cell "webpage" (opt_str (csv_answer E r)) r.

Definition csv_step (E : env) (limit : Z) :=
  hit_step limit (csv_hit E) (csv_update E).

(** *** JSON companies *)

Definition company_url_str (d : dict value) : string :=
  match get_default "webpage" VNone d with
  | VStr s => PyStr.strip s
  | _ => ""
  end.

Definition company_needs_fix (d : dict value) : bool :=
  (negb (PyStr.nonempty (company_url_str d)) && truthy (get_default "ipo" VNone d))
  || (PyStr.nonempty (company_url_str d)
      && is_non_brand_page (VStr (company_url_str d))).

Definition is_str (v : value) : bool :=
  match v with VStr _ => true | _ => false end.

Definition str_of (v : value) : string :=
  match v with VStr s => s | _ => "" end.

(** A company whose [name] and [country], when present, are strings. *)
Definition typed_company (c : value) : bool :=
  match c with
  | VDict d =>
      is_str (get_default "name" (VStr "") d)
      && is_str (get_default "country" (VStr "") d)
  | _ => false
  end.

Definition company_name (d : dict value) : string :=
  str_or (PyStr.strip (str_of (get_default "name" (VStr "") d))) "Unknown".

Definition company_country (d : dict value) : string :=
  str_or (PyStr.strip (str_of (get_default "country" (VStr "") d))) "".

Definition company_answer (E : env) (d : dict value) : option string :=
  resolve E (VStr (company_name d)) (VStr (company_country d)).

Definition json_hit (E : env) (c : value) : bool :=
  match c with
  | VDict d => company_needs_fix d && opt_truthy (company_answer E d)
  | _ => false
  end.

Definition json_update (E : env) (c : value) : value :=
  match c with
  | VDict d => VDict (dict_set "webpage" (VStr (opt_str (company_answer E d))) d)
  | _ => c
  end.

Definition json_step (E : env) (limit : Z) :=
  hit_step limit (json_hit E) (json_update E).

(** Whether the body asks the resolver about a company. *)
Definition json_asked (c : value) : bool :=
  match c with VDict d => company_needs_fix d | _ => false end.

(** *** Companies in liveness mode *)

Definition accepted (new_status : Z) : bool :=
  negb (VerifyWebpages.in_codes new_status VerifyWebpages.BAD_CODES)
  && (200 <=? new_status)%Z && (new_status <? 400)%Z.

Definition is_dict (v : value) : bool :=
  match v with VDict _ => true | _ => false end.

(** The webpage the liveness pass checks, if it checks one. *)
Definition checked_url (d : dict value) : option string :=
  match get_default "webpage" VNone d with
  | VStr s => if PyStr.nonempty s && PyStr.startswith s "http" then Some s else None
  | _ => None
  end.

Definition verify_step (E : env) (c : value)
           (st : nat * list VerifyWebpages.failed_entry)
  : value * (nat * list VerifyWebpages.failed_entry) :=
  match c with
  | VDict d =>
      match checked_url d with
      | Some url =>
          let name := get_default "name" (VStr "Unknown") d in
          let country := get_default "country" (VStr "") d in
          if VerifyWebpages.in_codes (status_of E url 10) VerifyWebpages.BAD_CODES
          then
            let new_url := resolve E name country in
            if opt_truthy new_url then
              if accepted (status_of E (opt_str new_url) 10)
              then (VDict (dict_set "webpage" (VStr (opt_str new_url)) d),
                    (S (fst st), snd st))
              else (c, (fst st, snd st ++ [(name, url, Some (opt_str new_url))]))
            else (c, (fst st, snd st ++ [(name, url, None)]))
          else (c, st)
      | None => (c, st)
      end
  | _ => (c, st)
  end.

Fixpoint verify_result (E : env) (cs : list value)
         (st : nat * list VerifyWebpages.failed_entry)
  : list value * (nat * list VerifyWebpages.failed_entry) :=
  match cs with
  | [] => ([], st)
  | c :: rest =>
      let (c', st') := verify_step E c st in
      let (rest', st'') := verify_result E rest st' in
      (c' :: rest', st'')
  end.

(** What the trace of one pass of a body has to tell. *)
Definition body_trace (evs : list event) (asked replaced : bool) : Prop :=
  count is_record evs = 1%nat
  /\ count is_asking evs = b2n asked
  /\ count is_replaced evs = b2n replaced
  /\ count is_file_event evs = 0%nat.

(** The start-up checks pass. *)
Definition started (E : env) : bool :=
  (opt_truthy (openai_key E) || opt_truthy (gemini_key E))
  && (openai_importable E || negb (opt_truthy (openai_key E))).

(** ** The budget over a sequence of records

    A record is flagged when the pass would replace its webpage. *)

Definition hits (flags : list bool) : nat :=
  List.length (filter (fun f => f) flags).

(** How many records a loop gets to when [n >= 1] replacements are left. *)
Fixpoint visited (n : nat) (flags : list bool) : nat :=
  match flags with
  | [] => 0
  | f :: rest =>
      S (if f
         then match n with S (S k) => visited (S k) rest | _ => 0 end
         else visited n rest)
  end.

(** The records a loop with [n >= 1] replacements left hands on: those
    it gets to, each one replaced when it is flagged, then the others as
    they were. *)
Definition fix_first {A} (hit : A -> bool) (update : A -> A) (n : nat)
           (xs : list A) : list A :=
  let v := visited n (map hit xs) in
  map (fun x => if hit x then update x else x) (firstn v xs) ++ skipn v xs.

(** The items [for c in companies] runs over, when there are any to run
    over. *)
Definition items_of (companies : value) : option (list value) :=
  match companies with
  | VList l => Some l
  | VDict d => Some (map (fun k => VStr k) (keys d))
  | VStr s => Some (chars s)
  | _ => None
  end.

(** ** Files before and after a run *)

(** The paths written, in order. *)
Fixpoint writes (evs : list event) : list string :=
  match evs with
  | [] => []
  | EvWrite p :: rest => p :: writes rest
  | _ :: rest => writes rest
  end.

Fixpoint nodupb (l : list string) : bool :=
  match l with
  | [] => true
  | x :: rest => negb (mem x rest) && nodupb rest
  end.

Definition list_eqb (a b : list string) : bool :=
  if list_eq_dec string_dec a b then true else false.

(** A well-formed file: the column names are distinct and every line
    after the first has exactly as many cells as there are columns, none
    being blank.  A file that is not well formed is read all the same:
    a short line gives a row with [None] cells, a long one a row with
    the key [None], and of two columns of one name the row holds the
    cell of the last. *)
Definition csv_wf (t : csv_table) : bool :=
  match fieldnames t with
  | Some fn =>
      nodupb fn
      && forallb (fun l => negb (is_blank l)
                           && (List.length l =? List.length fn)%nat) (lines t)
  | None => match lines t with [] => true | _ => false end
  end.

Definition header (t : csv_table) : list string :=
  match fieldnames t with Some fn => fn | None => [] end.

(** The row of a line that has one cell for each column, when the
    column names are distinct. *)
Definition row_of (fn line : list string) : row :=
  mkRow (map (fun kc => (fst kc, Some (snd kc))) (combine fn line)) [].

(** The line with the cell of column [k] replaced. *)
Fixpoint set_col (fn : list string) (k v : string) (line : list string)
  : list string :=
  match fn, line with
  | k' :: fn', c :: line' =>
      if String.eqb k k' then v :: line' else c :: set_col fn' k v line'
  | _, _ => line
  end.

(** A row read from a line of a well-formed file with the columns [fn]. *)
Definition full (fn : list string) (r : row) : Prop :=
  exists line, List.length line = List.length fn /\ r = row_of fn line.

(** Two rows with the same columns in the same order that agree outside
    [webpage]. *)
Definition csv_frame (r r' : row) : Prop :=
  keys (cells r') = keys (cells r)
  /\ surplus r' = surplus r
  /\ forall k, k <> "webpage" -> dict_get k (cells r') = dict_get k (cells r).

(** [d'] is [d] except at key [k], whose value may differ and which goes
    last when [d] lacks it. *)
Definition differs_only_at {V} (k : string) (d d' : dict V) : Prop :=
  (keys d' = keys d \/ (dict_get k d = None /\ keys d' = keys d ++ [k]))
  /\ forall k', k' <> k -> dict_get k' d' = dict_get k' d.

Definition company_frame (c c' : value) : Prop :=
  c' = c
  \/ exists d d', c = VDict d /\ c' = VDict d' /\ differs_only_at "webpage" d d'.

(** The JSON value is the same, or the same object with the same keys in
    the same order whose list of companies holds, item for item, the same
    company or one that differs at [webpage] only. *)
Definition json_frame (data data' : value) : Prop :=
  data' = data
  \/ exists d d' cs cs',
      data = VDict d /\ data' = VDict d'
      /\ keys d' = keys d
      /\ (forall k, k <> "companies" -> dict_get k d' = dict_get k d)
      /\ dict_get "companies" d = Some (VList cs)
      /\ dict_get "companies" d' = Some (VList cs')
      /\ Forall2 company_frame cs cs'.

(** The flags of the rows a CSV file contributes to the pass. *)
Definition csv_flags (E : env) (t : option csv_table) : list bool :=
  match t with
  | Some t => if mem "webpage" (header t) then map (csv_hit E) (rows t) else []
  | None => []
  end.

(** The companies the pass loops over, for a JSON file of the expected
    shape. *)
Definition json_companies_of (data : option value) : list value :=
  match data with
  | Some (VDict d) =>
      match get_default "companies" (VList []) d with
      | VList cs => cs
      | _ => []
      end
  | _ => []
  end.

(** No file, or an object whose [companies], when present, is a list of
    typed companies. *)
Definition json_typed (data : option value) : bool :=
  match data with
  | None => true
  | Some (VDict d) =>
      match get_default "companies" (VList []) d with
      | VList cs => forallb typed_company cs
      | _ => false
      end
  | Some _ => false
  end.

(** The flags of the rows of the files [names], in order. *)
Definition files_flags (E : env) (w : world) (names : list string) : list bool :=
  flat_map (fun name => csv_flags E (csv_files w name)) names.

Definition files_wf (w : world) (names : list string) : bool :=
  forallb (fun name => match csv_files w name with
                       | Some t => csv_wf t
                       | None => true
                       end) names.

(** The flags of all records in the order the pass takes them: the rows
    of the CSV files, then the companies of the JSON file. *)
Definition all_flags (E : env) (w : world) : list bool :=
  files_flags E w FixIpoWebpages.CSVS
  ++ map (json_hit E) (json_companies_of (json_file w)).

(** The tables are well formed and the companies typed. *)
Definition inputs_ok (w : world) : bool :=
  files_wf w FixIpoWebpages.CSVS && json_typed (json_file w).

(** In the run from [w] to [w'] a row of the file [name] was given a
    candidate of the resolver: the row was eligible, the resolver had
    the candidate for it, and the file holds afterwards, at the place of
    the row, the line written for the row with this webpage (when no
    line of the file is longer than its header: the write ends before
    such a line). *)
Definition csv_assigned (E : env) (w w' : world) (name : string) : Prop :=
  exists t fn i r new,
    csv_files w name = Some t /\ fieldnames t = Some fn
    /\ nth_error (rows t) i = Some r
    /\ claimed_eligible (csv_url r) = true
    /\ csv_answer E r = Some new
    /\ exists t',
        csv_files w' name = Some t' /\ fieldnames t' = Some fn
        /\ (forallb (fun r => is_blank (surplus r)) (rows t) = true ->
            nth_error (lines t') i
            = Some (written_row fn (set_cell "webpage" new r))).

(** The same for a company of the JSON file. *)
Definition json_assigned (E : env) (w w' : world) : Prop :=
  exists d cs i c new cs',
    json_file w = Some (VDict d)
    /\ dict_get "companies" d = Some (VList cs)
    /\ nth_error cs i = Some (VDict c)
    /\ company_needs_fix c = true
    /\ company_answer E c = Some new
    /\ json_file w' = Some (VDict (dict_set "companies" (VList cs') d))
    /\ nth_error cs' i = Some (VDict (dict_set "webpage" (VStr new) c)).

(** A well-formed table of [w] is in [w'] with its header and, row for
    row, within its frame. *)
Definition csv_kept (w w' : world) (name : string) : Prop :=
  forall t, csv_files w name = Some t -> csv_wf t = true ->
  exists t', csv_files w' name = Some t'
             /\ fieldnames t' = fieldnames t
             /\ Forall2 csv_frame (rows t) (rows t').

Definition json_kept (w w' : world) : Prop :=
  forall data, json_file w = Some data ->
  exists data', json_file w' = Some data' /\ json_frame data data'.

(** ** A small run

    One CSV file of three rows, two of them on non-brand pages, and a
    JSON file of three companies; the primary provider always answers
    with the same site, and only that site is alive. *)

Module Example.

Definition E : env :=
  mkEnv (fun url _ =>
           if String.eqb url "https://www.acme.com"
           then Response 200 else ErrorResponse 404)
        true (fun _ _ _ => Content (Some "https://www.acme.com"))
        true (fun _ _ _ => Content None)
        (Some "sk-test") None.

Definition columns : list string :=
  ["brand_id"; "brand_name"; "webpage"; "country"].

Definition plain : list string :=
  ["1"; "Plain"; "https://www.example.com/"; "US"].

Definition quoted_page : list string :=
  ["2"; "Acme"; "https://finance.yahoo.com/quote/ACME"; "US"].

Definition investor_page : list string :=
  ["3"; "Bolt"; "https://ir.example.com/shareholders"; "DE"].

Definition table : csv_table :=
  mkCsv (Some columns) [plain; quoted_page; investor_page].

(** A company whose webpage is flagged but has no scheme. *)
Definition no_scheme : dict value :=
  [("name", VStr "Acme"); ("webpage", VStr "ir.acme.com/")].

(** A company whose webpage is dead. *)
Definition dead_page : dict value :=
  [("name", VStr "Bolt"); ("country", VStr "DE");
   ("webpage", VStr "https://old.bolt.example/")].

Definition listed : dict value :=
  [("name", VStr "Core"); ("ipo", VStr "CORE")].

Definition data : dict value :=
  [("source", VStr "revenue"); 
   ("companies", VList [VDict no_scheme; VDict dead_page; VDict listed])].

Definition w : world :=
  mkWorld (fun p => if String.eqb p "CDC_midbln.csv" then Some table else None)
          (Some (VDict data)) [].

(** The same without the CSV file. *)
Definition json_only : world :=
  mkWorld (fun _ => None) (Some (VDict data)) [].

Definition st0 : FixIpoWebpages.locals := FixIpoWebpages.mkLocals 0 0 0.







(** A resolver that answers with the page the record already has. *)
Definition E_same : env :=
  mkEnv (fun _ _ => Response 200)
        true (fun _ _ _ => Content (Some "https://finance.yahoo.com/quote/ACME"))
        true (fun _ _ _ => Content None)
        (Some "sk-test") None.

Definition one_row : csv_table := mkCsv (Some columns) [quoted_page].

Definition w_one_row : world :=
  mkWorld (fun p => if String.eqb p "CDC_midbln.csv" then Some one_row else None)
          None [].

End Example.


(** * Configuration and the maintenance scripts

    [get_ai_keys] of the two correctors with the [configix] package it
    falls back on, and the two scripts that build the data the correctors
    work on: [add_webpages.py] and [merge_webpages.py]. *)

(** ** More of [str] *)

Module Text.

(** [s.lower()], on strings of code points below U+0100, where the
    lower case of a character is one character of the same range. *)
Fixpoint lower (s : string) : string :=
  match s with
  | EmptyString => EmptyString
  | String c s' => String (PyStr.lower c) (lower s')
  end.

Definition among (chars : list ascii) (c : ascii) : bool :=
  existsb (Ascii.eqb c) chars.

(** [s.lstrip(chars)] *)
Fixpoint lstrip_chars (chars : list ascii) (s : string) : string :=
  match s with
  | EmptyString => EmptyString
  | String c s' => if among chars c then lstrip_chars chars s' else s
  end.

(** [s.rstrip(chars)] *)
Fixpoint rstrip_chars (chars : list ascii) (s : string) : string :=
  match s with
  | EmptyString => EmptyString
  | String c s' =>
      match rstrip_chars chars s' with
      | EmptyString => if among chars c then EmptyString else String c EmptyString
      | r => String c r
      end
  end.

(** [s.strip(chars)] *)
Definition strip_chars (chars : list ascii) (s : string) : string :=
  rstrip_chars chars (lstrip_chars chars s).

(** [needle in hay] *)
Fixpoint contains (needle hay : string) : bool :=
  String.prefix needle hay
  || match hay with
     | EmptyString => false
     | String _ hay' => contains needle hay'
     end.

End Text.

(** ** Case of ASCII letters *)

Definition ascii_letter (c : ascii) : bool :=
  let n := N_of_ascii c in
  ((65 <=? n)%N && (n <=? 90)%N) || ((97 <=? n)%N && (n <=? 122)%N).

(** The other case of an ASCII letter: [A] and [a] are 32 apart. *)
Definition other_case (c : ascii) : ascii :=
  if ascii_letter c
  then ascii_of_N (if (N_of_ascii c <? 97)%N then N_of_ascii c + 32
                   else N_of_ascii c - 32)
  else c.

(** Two strings that differ in the case of ASCII letters at most. *)
Fixpoint same_but_case (s1 s2 : string) : bool :=
  match s1, s2 with
  | EmptyString, EmptyString => true
  | String a s1', String b s2' =>
      (Ascii.eqb a b || Ascii.eqb (other_case a) b) && same_but_case s1' s2'
  | _, _ => false
  end.

(** ** Configuration files

    The directories the loaders look into.  For a script in the
    directory [S], with the package in [S/configix]:
    - [ParentConfig] is [Path(__file__).parent.parent / "config"] of the
      script, [S/../config];
    - [WindowsConfig] is [Path("C:/12_CODINGHARD/config")];
    - [LocalConfig] is [Path(__file__).parent / "config"] of the script,
      [S/config], which is also [Path(__file__).parent.parent / 'config']
      of [configix/apiManager.py];
    - [GrandparentConfig] is
      [Path(__file__).parent.parent.parent.parent / 'config'] of
      [configix/apiManager.py], [S/../../config]. *)

Inductive config_place :=
| ParentConfig
| WindowsConfig
| LocalConfig
| GrandparentConfig.

(** What [json.load] makes of a file: a value, or [JSONDecodeError]. *)
Inductive json_text :=
| Json (v : value)
| NotJson.

Record config_fs := mkFs {
  dir_exists : config_place -> bool;
  (* the file of this name in the directory, if there is one *)
  config_file : config_place -> string -> option json_text
}.

(** ** [configix/apiManager.py] *)

Module Configix.

Inductive error :=
| FileNotFoundError
| Exception
| AttributeError
| ValueError (provider : string)
| KeyError (key : string).

Definition and_then {A B} (r : error + A) (k : A -> error + B) : error + B :=
  match r with
  | inl e => inl e
  | inr a => k a
  end.

(** One entry of [ai_providers]. *)
Record entry := mkEntry {
  name : string;
  api_key : value;
  config : value
}.

(** The globals of the module the functions use. *)
Record globals := mkGlobals {
  ai_providers : dict entry;
  current_ai_provider : string
}.

Section Load.
Variable F : config_fs.

(** The directory the module settles on, if it exists. *)
Definition config_dir : option config_place :=
  let config_dir := LocalConfig in
  let config_dir :=
    if negb (dir_exists F config_dir) then
      let config_dir := WindowsConfig in
      if negb (dir_exists F config_dir) then GrandparentConfig else config_dir
    else config_dir in
  if negb (dir_exists F config_dir) then None else Some config_dir.

(** [json.load] of one file inside the [try]: a missing file and a file
    that is not JSON both end in [raise Exception(...)]. *)
Definition load_config (dir : config_place) (file_name : string) : error + value :=
  match config_file F dir file_name with
  | Some (Json v) => inr v
  | Some NotJson => inl Exception
  | None => inl Exception
  end.

(** [cfg.get(key)] *)
Definition get (key : string) (cfg : value) : error + value :=
  match cfg with
  | VDict d => inr (get_default key VNone d)
  | _ => inl AttributeError
  end.

(** The body of the module as far as the providers go.  The block on
    [mapboxConfig.js], between the [try] and [ai_providers], binds
    [mapbox_config] only and lets no exception out; the line it prints
    when the file cannot be read is not modelled. *)
Definition load : error + globals :=
  match config_dir with
  | None => inl FileNotFoundError
  | Some dir =>
      and_then (load_config dir "config_gemini.json") (fun gemini_config =>
      and_then (load_config dir "config_grok.json") (fun grok_config =>
      and_then (load_config dir "config_openai.json") (fun openai_config =>
      and_then (get "ITEM" gemini_config) (fun gemini_key =>
      and_then (get "grok_api_key" grok_config) (fun grok_key =>
      and_then (get "openai_api_key" openai_config) (fun openai_key =>
      inr (mkGlobals
             [("ai_gemini", mkEntry "Gemini" gemini_key gemini_config);
              ("ai_grok", mkEntry "Grok" grok_key grok_config);
              ("ai_openai", mkEntry "OpenAI" openai_key openai_config)]
             "ai_openai")))))))
  end.

End Load.

(** [provider in ai_providers] *)
Definition known (provider : string) (g : globals) : bool :=
  mem provider (keys (ai_providers g)).

(** [ai_providers[provider]] *)
Definition subscript (provider : string) (g : globals) : error + entry :=
  match dict_get provider (ai_providers g) with
  | Some p => inr p
  | None => inl (KeyError provider)
  end.

Definition switch_ai_provider (provider : string) (g : globals)
  : (error + bool) * globals :=
  if known provider g
  then (inr true, mkGlobals (ai_providers g) provider)
  else (inl (ValueError provider), g).

Definition get_current_ai (g : globals) : error + entry :=
  subscript (current_ai_provider g) g.

Definition get_ai_provider (provider : string) (g : globals) : error + entry :=
  if known provider g
  then subscript provider g
  else inl (ValueError provider).

Definition get_available_ai_providers (g : globals) : list string :=
  keys (ai_providers g).

(** The calls a client makes, one after the other, each from the state
    the one before left. *)
Fixpoint switches (providers : list string) (g : globals) : globals :=
  match providers with
  | [] => g
  | provider :: rest => switches rest (snd (switch_ai_provider provider g))
  end.

End Configix.

(** ** [get_ai_keys] (the same text in both correctors) *)

Section Keys.
Variable F : config_fs.

Definition json_load (text : json_text) : M value :=
  match text with
  | Json v => ret v
  | NotJson => raise ValueError
  end.

Definition _load_openai_key (config_dir : config_place) : M value :=
  match config_file F config_dir "config_openai.json" with
  | None => ret VNone
  | Some text =>
      data <- json_load text ;;
      d <- as_dict data ;;
      ret (get_default "openai_api_key" VNone d)
  end.

Definition _load_gemini_key (config_dir : config_place) : M value :=
  match config_file F config_dir "config_gemini.json" with
  | None => ret VNone
  | Some text =>
      data <- json_load text ;;
      d <- as_dict data ;;
      ret (get_default "ITEM" VNone d)
  end.

(** [a or b], where evaluating [b] may raise *)
Definition or_else (a : value) (b : M value) : M value :=
  if truthy a then ret a else b.

Definition BASES : list config_place :=
  [ParentConfig; WindowsConfig; LocalConfig].

(** [for base in [...]]; the pair is [(openai_key, gemini_key)]. *)
Fixpoint bases_loop (bases : list config_place) (keys : value * value)
  : M (value * value) :=
  match bases with
  | [] => ret keys
  | base :: rest =>
      if dir_exists F base then
        openai_key <- or_else (fst keys) (_load_openai_key base) ;;
        gemini_key <- or_else (snd keys) (_load_gemini_key base) ;;
        bases_loop rest (openai_key, gemini_key)
      else bases_loop rest keys
  end.

(** [cfg.get_ai_provider(provider)["api_key"]] *)
Definition provider_key (cfg : Configix.globals) (provider : string)
  : Configix.error + value :=
  Configix.and_then (Configix.get_ai_provider provider cfg)
                    (fun p => inr (Configix.api_key p)).

(** [a or b] inside the [try] *)
Definition or_provider (a : value) (b : Configix.error + value)
  : Configix.error + value :=
  if truthy a then inr a else b.

(** The [try] block: every exception of the package is an [Exception]
    and ends in [pass], with the keys as they are bound by then. *)
Definition configix_keys (keys : value * value) : value * value :=
  let (openai_key, gemini_key) := keys in
  match Configix.load F with
  | inl _ => (openai_key, gemini_key)
  | inr cfg =>
      match or_provider openai_key (provider_key cfg "ai_openai") with
      | inl _ => (openai_key, gemini_key)
      | inr openai_key =>
          match or_provider gemini_key (provider_key cfg "ai_gemini") with
          | inl _ => (openai_key, gemini_key)
          | inr gemini_key => (openai_key, gemini_key)
          end
      end
  end.

(** [get_ai_keys], the same in both scripts.  It reads configuration
    only: no data file, no request and no line of the script, so the
    world is returned as it is. *)
Definition get_ai_keys : M (value * value) :=
  keys <- bases_loop BASES (VNone, VNone) ;;
  ret (configix_keys keys).

End Keys.

(** ** Effects of the maintenance scripts

    They raise [KeyError] and print lines of their own; the files are
    those of the correctors. *)

Module Tools.

Inductive error :=
| Std (e : exn)
| KeyError (key : string).

Inductive message :=
| UpdatedCsv (output_path : string) (rows : nat)
| UpdatedJson (merged total : nat).

Record state := mkState {
  files : world;
  console : list message
}.

Definition T (A : Type) : Type := state -> (error + A) * state.

Definition ret {A} (a : A) : T A := fun s => (inr a, s).

Definition bind {A B} (m : T A) (k : A -> T B) : T B :=
  fun s =>
    match m s with
    | (inr a, s') => k a s'
    | (inl e, s') => (inl e, s')
    end.

Definition raise {A} (e : error) : T A := fun s => (inl e, s).

(** [print(...)] *)
Definition say (m : message) : T unit :=
  fun s => (inr tt, mkState (files s) (console s ++ [m])).

(** An operation on the files. *)
Definition lift {A} (m : M A) : T A :=
  fun s =>
    match m (files s) with
    | (Returns a, w) => (inr a, mkState w (console s))
    | (Raises e, w) => (inl (Std e), mkState w (console s))
    end.

End Tools.

Declare Scope tools_scope.
Delimit Scope tools_scope with tools.
Notation "x <- m ;; k" := (Tools.bind m (fun x => k))
  (at level 61, m at next level, right associativity) : tools_scope.
Notation "m ;; k" := (Tools.bind m (fun _ => k))
  (at level 61, right associativity) : tools_scope.

(** ** [merge_webpages.py] *)

Module MergeWebpages.
Import Tools.
Local Open Scope tools_scope.

Definition CSVS : list string :=
  ["CDC_midbln.csv"; "CDC_IPO.csv"; "CDC_CIS_100mln.csv"].

(** Body of [for row in r]. *)
Definition csv_row (row : row) (webpage_by_name : dict string)
  : T (dict string) :=
  brand <- lift (cell_strip (row_get_or_empty "brand_name" row)) ;;
  url <- lift (cell_strip (row_get_or_empty "webpage" row)) ;;
  if PyStr.nonempty brand && PyStr.nonempty url && PyStr.startswith url "http"
  then ret (dict_set brand url webpage_by_name)
  else ret webpage_by_name.

Fixpoint csv_rows (rows : list row) (webpage_by_name : dict string)
  : T (dict string) :=
  match rows with
  | [] => ret webpage_by_name
  | row :: rest =>
      webpage_by_name <- csv_row row webpage_by_name ;;
      csv_rows rest webpage_by_name
  end.

(** [for name in CSVS] *)
Fixpoint csv_files_loop (names : list string) (webpage_by_name : dict string)
  : T (dict string) :=
  match names with
  | [] => ret webpage_by_name
  | name :: rest =>
      present <- lift (csv_exists name) ;;
      if negb present then csv_files_loop rest webpage_by_name
      else
        t <- lift (read_csv name) ;;
        webpage_by_name <- csv_rows (rows t) webpage_by_name ;;
        csv_files_loop rest webpage_by_name
  end.

(** [data[key]] *)
Definition subscript (data : value) (key : string) : T value :=
  match data with
  | VDict d =>
      match dict_get key d with
      | Some v => ret v
      | None => raise (KeyError key)
      end
  | _ => raise (Std TypeError)
  end.

(** [webpage_by_name.get(name)]: a list or a dict cannot be hashed, and
    nothing but a str equals a key. *)
Definition lookup (webpage_by_name : dict string) (name : value)
  : T (option string) :=
  match name with
  | VStr s => ret (dict_get s webpage_by_name)
  | VList _ | VDict _ => raise (Std TypeError)
  | _ => ret None
  end.

(** [x or None] *)
Definition or_None (x : option string) : value :=
  match x with
  | Some url => if PyStr.nonempty url then VStr url else VNone
  | None => VNone
  end.

(** Body of [for c in data["companies"]]. *)
Definition company (webpage_by_name : dict string) (c : value) : T value :=
  d <- lift (as_dict c) ;;
  let name := get_default "name" (VStr "") d in
  found <- lookup webpage_by_name name ;;
  ret (VDict (dict_set "webpage" (or_None found) d)).

Fixpoint companies_loop (webpage_by_name : dict string) (cs : list value)
  : T (list value) :=
  match cs with
  | [] => ret []
  | c :: rest =>
      c' <- company webpage_by_name c ;;
      rest' <- companies_loop webpage_by_name rest ;;
      ret (c' :: rest')
  end.

(** [data] after the loop changed its companies in place. *)
Definition updated (data : value) (items : list value) : value :=
  match data with
  | VDict d => VDict (with_companies d items)
  | _ => data
  end.

(** [sum(1 for c in ... if c.get("webpage"))] *)
Fixpoint count_webpages (cs : list value) : T nat :=
  match cs with
  | [] => ret 0%nat
  | c :: rest =>
      d <- lift (as_dict c) ;;
      n <- count_webpages rest ;;
      ret (if truthy (get_default "webpage" VNone d) then S n else n)
  end.

(** [len(x)] *)
Definition len (x : value) : T nat :=
  match x with
  | VList l => ret (List.length l)
  | VDict d => ret (List.length d)
  | VStr s => ret (String.length s)
  | _ => raise (Std TypeError)
  end.

Definition main : T unit :=
  webpage_by_name <- csv_files_loop CSVS [] ;;
  data <- lift read_json ;;
  companies <- subscript data "companies" ;;
  items <- lift (iterate companies) ;;
  items <- companies_loop webpage_by_name items ;;
  let data := updated data items in
  lift (write_json data) ;;
  companies <- subscript data "companies" ;;
  items <- lift (iterate companies) ;;
  merged <- count_webpages items ;;
  total <- len companies ;;
  say (UpdatedJson merged total).

End MergeWebpages.

(** ** [add_webpages.py] *)

Module AddWebpages.
Import Tools.
Local Open Scope tools_scope.

Definition WEBPAGE_MAP : dict string :=
  [
    ("China State Construction Engineering", "https://english.cscec.com/");
    ("China Railway Group", "https://www.crecg.com/english/");
    ("China Railway Construction", "https://english.crcc.cn/");
    ("China Communications Construction", "https://en.ccccltd.cn/");
    ("Power Construction Corporation of China", "https://en.powerchina.cn/");
    ("Vinci", "https://www.vinci.com/en");
    ("Grupo ACS", "https://www.grupoacs.com/");
    ("Bouygues", "https://www.bouygues.com/en/");
    ("Hochtief", "https://www.hochtief.com/");
    ("Daiwa House", "https://www.daiwahouse.com/english/");
    ("Lennar", "https://www.lennar.com/");
    ("D.R. Horton", "https://www.drhorton.com/");
    ("Larsen & Toubro", "https://www.larsentoubro.com/");
    ("Sekisui House", "https://www.sekisuihouse.co.jp/english/");
    ("China National Chemical Engineering", "https://en.cncec.com.cn/");
    ("Eiffage", "https://www.eiffage.com/en/");
    ("Skanska", "https://group.skanska.com/");
    ("Kajima", "https://www.kajima.co.jp/english/");
    ("Strabag", "https://www.strabag.com/en");
    ("PulteGroup", "https://www.pulte.com/");
    ("China Vanke", "https://www.vanke.com/en/");
    ("Country Garden", "https://www.countrygarden.com.cn/en/");
    ("Poly Developments", "https://www.poly.com.cn/");
    ("China Resources Land", "https://www.crland.com.hk/");
    ("Emcor", "https://www.emcor.com/");
    ("Fluor", "https://www.fluor.com/");
    ("China State Construction International", "https://www.csci.com.hk/en/");
    ("Sichuan Road and Bridge Group", "https://www.srbg.com.cn/");
    ("Shimizu Corporation", "https://www.shimz.co.jp/english/");
    ("Sumitomo Forestry", "https://www.sumitomo-forestry.com/english/");
    ("Taisei Corporation", "https://www.taisei.co.jp/english/");
    ("Daito Trust Construction", "https://www.daito-trust.co.jp/english/");
    ("Toll Brothers", "https://www.tollbrothers.com/");
    ("NVR", "https://www.nvrinc.com/");
    ("Balfour Beatty", "https://www.balfourbeatty.com/");
    ("Ferrovial", "https://www.ferrovial.com/");
    ("Hyundai Engineering & Construction", "https://www.hdec.kr/eng/");
    ("Taylor Morrison", "https://www.taylormorrison.com/");
    ("Acciona", "https://www.acciona.com/");
    ("Fomento de Construcciones y Contratas", "https://www.fcc.es/");
    (("AtkinsR" ++ String "233"%char "alis")%string, "https://www.atkinsrealis.com/");
    ("Primoris Services", "https://www.prim.com/");
    ("HASEKO Corporation", "https://www.haseko.co.jp/english/");
    ("Subsea 7", "https://www.subsea7.com/");
    ("PORR", "https://www.porr-group.com/");
    ("KB Home", "https://www.kbhome.com/");
    ("Ackermans & Van Haaren", "https://www.avh.be/");
    ("Lendlease", "https://www.lendlease.com/");
    ("Sacyr", "https://www.sacyr.com/");
    ("Meritage Homes", "https://www.meritagehomes.com/");
    ("NCC", "https://www.ncc.se/en/");
    ("Peab", "https://www.peab.se/");
    ("JGC Holdings", "https://www.jgc.com/en/");
    ("INFRONEER Holdings", "https://www.infroneer.com/");
    ("Barratt Redrow", "https://www.barrattdevelopments.co.uk/");
    ("Tutor Perini", "https://www.tutorperini.com/");
    ("Webuild", "https://www.webuildgroup.com/");
    (("Obrasc" ++ String "243"%char "n Huarte Lain")%string, "https://www.ohla-group.com/");
    ("Kier Group", "https://www.kier.co.uk/");
    ("Vistry Group", "https://www.vistrygroup.co.uk/");
    ("Fletcher Building", "https://www.fletcherbuilding.com/");
    ("Dream Finders Homes", "https://www.dreamfindershomes.com/");
    ("Taylor Wimpey", "https://www.taylorwimpey.co.uk/");
    ("M/I Homes", "https://www.mihomes.com/");
    ("Emaar Properties", "https://www.emaar.com/");
    ("DEME Group", "https://www.deme-group.com/");
    ("Granite Construction", "https://www.graniteconstruction.com/");
    ("Century Communities", "https://www.centurycommunities.com/");
    ("Kandenko", "https://www.kandenko.co.jp/english/");
    ("Persimmon", "https://www.persimmonhomes.com/");
    ("Implenia", "https://www.implenia.com/");
    ("Veidekke", "https://www.veidekke.com/");
    ("Shandong Hi-Speed", "https://www.sdhs.com.cn/");
    ("Tri Pointe Homes", "https://www.tripointehomes.com/");
    ("TODA Corporation", "https://www.todakenchiku.co.jp/english/");
    ("Aecon Group", "https://www.aecon.com/");
    ("MYR Group", "https://www.myrgroup.com/");
    ("Per Aarsleff Holding", "https://www.aarsleff.com/");
    ("Hovnanian Enterprises", "https://www.khov.com/");
    ("The Berkeley Group", "https://www.berkeleygroup.co.uk/");
    ("Bellway", "https://www.bellway.co.uk/");
    ("Installed Building Products", "https://www.installedbuildingproducts.com/");
    ("AF Gruppen", "https://www.afgruppen.com/");
    ("ENKA", "https://www.enka.com/");
    ("Arcosa", "https://www.arcosa.com/");
    ("Kalpataru Power Transmission", "https://www.kalpatarupower.com/");
    ("KEC International", "https://www.kecl.com/");
    ("Elecnor", "https://www.elecnor.com/");
    ("Champion Homes", "https://www.skylinechampion.com/");
    ("Shikun & Binui", "https://www.shikunbinui.com/");
    ("NCC Limited", "https://www.ncclimited.com/");
    ("Bird Construction", "https://www.bird.ca/");
    ("Park Lawn Corporation", "https://www.parklawncorp.com/");
    ("Construction Partners", "https://www.constructionpartners.com/");
    ("Beazer Homes", "https://www.beazer.com/");
    ("Budimex", "https://www.budimex.pl/");
    ("Galliford Try", "https://www.gallifordtry.co.uk/");
    ("Sterling Infrastructure", "https://www.sterlinginfrastructure.com/");
    ("Gek Terna", "https://www.gekterna.com/");
    (("Grupo Empresarial San Jos" ++ String "233"%char EmptyString)%string, "https://www.gruposanjose.com/");
    ("Green Brick Partners", "https://www.greenbrickpartners.com/");
    ("Okumura Corporation", "https://www.okumura.co.jp/english/");
    ("YIT", "https://www.yitgroup.com/");
    ("NRW Holdings", "https://www.nrw.com.au/");
    ("Danya Cebus", "https://www.danyacebus.co.il/");
    ("BAUER AG", "https://www.bauer.de/");
    ("GS Engineering & Construction", "https://www.gsconst.com/eng/");
    ("Mitsui Fudosan", "https://www.mitsuifudosan.co.jp/english/");
    ("Sumitomo Realty & Development", "https://www.sumitomo-rd.co.jp/english/");
    ("Orascom Construction", "https://www.orascom.com/");
    ("China Overseas Land & Investment", "https://www.coli.com.hk/");
    ("Longfor Group", "https://www.longfor.com/");
    ("Mitsubishi Estate", "https://www.mec.co.jp/e/");
    ("Open House Group", "https://www.openhouse-group.com/english/");
    ("Iida Group", "https://www.iida-group.co.jp/english/");
    ("Sun Hung Kai Properties", "https://www.shkp.com/");
    ("Vinhomes", "https://vinhomes.vn/");
    ("Nexity", "https://www.nexity.fr/");
    ("City Developments Limited", "https://www.cdl.com.sg/");
    ("Mirvac", "https://www.mirvac.com/");
    ("Stockland", "https://www.stockland.com.au/");
    ("MDC Holdings", "https://www.richmondamerican.com/");
    ("DLF Limited", "https://www.dlf.in/");
    ("PIK Group", "https://pik-group.com/");
    ("LSR Group", "https://www.lsrgroup.ru/");
    ("Samolet Group", "https://www.samolet.ru/");
    ("Etalon Group", "https://www.etalongroup.com/");
    ("Setl Group", "https://www.setlgroup.ru/");
    ("BI Group", "https://www.bi-group.org/");
    ("KazStroyService", "https://www.kazstroy.kz/");
    ("Mattamy Homes", "https://www.mattamyhomes.com/");
    ("Brookfield Residential", "https://www.brookfieldresidential.com/");
    ("Vonovia", "https://www.vonovia.de/");
    ("Balder", "https://www.balder.se/");
    ("LEG Immobilien", "https://www.leg-wohnen.de/");
    ("Aroundtown", "https://www.aroundtown.de/");
    ("TAG Immobilien", "https://www.tag-ag.com/");
    ("Kojamo", "https://www.kojamo.fi/");
    ("Befimmo", "https://www.befimmo.be/");
    ("Cofinimmo", "https://www.cofinimmo.be/");
    ("PSP Swiss Property", "https://www.psp.info/");
    ("S Immo", "https://www.s-immo.at/");
    ("Warimpex", "https://www.warimpex.com/");
    ("De Volkswoningborg", "https://www.volkswoningbouw.nl/");
    ("MRV", "https://www.mrv.com.br/");
    ("Gafisa", "https://www.gafisa.com.br/");
    ("Cyrela Brazil Realty", "https://www.cyrela.com.br/");
    ("Direcional Engenharia", "https://www.direcional.com.br/");
    ("Tegra Incorporadora", "https://www.tegra.com.br/");
    ("TAV Construction", "https://www.tavconstruction.com/eng/");
    ("Arabtec Holding", "https://www.arabtec-construction.com/en");
    ("Cedar Woods Properties", "https://www.cedarwoods.com.au/");
    ("Villa World (AVID Property Group)", "https://www.avid.com.au/");
    ("Goodman Group", "https://www.goodman.com/")
  ].

Definition normalize_name (name : string) : string :=
  Text.strip_chars [PyStr.quote2] (PyStr.strip name).

(** [for key, url in WEBPAGE_MAP.items()]: the URL the loop returns, if
    it returns one. *)
Fixpoint variants_loop (name : string) (items : list (string * string))
  : option string :=
  match items with
  | [] => None
  | (key, url) :: rest =>
      if Text.contains (Text.lower key) (Text.lower name)
         || Text.contains (Text.lower name) (Text.lower key)
      then Some url
      else variants_loop name rest
  end.

Definition get_webpage (brand_name : string) : string :=
  let name := normalize_name brand_name in
  if mem name (keys WEBPAGE_MAP)
  then get_default name "" WEBPAGE_MAP
  else match variants_loop name WEBPAGE_MAP with
       | Some url => url
       | None => ""
       end.

(** Body of [for row in reader]; a brand name that is [None] reaches
    [name.strip()] in [normalize_name]. *)
Definition process_row (r : row) : T row :=
  match row_get_or_empty "brand_name" r with
  | Some brand_name => ret (set_cell "webpage" (get_webpage brand_name) r)
  | None => raise (Std AttributeError)
  end.

Fixpoint process_rows (rs : list row) : T (list row) :=
  match rs with
  | [] => ret []
  | r :: rest =>
      r <- process_row r ;;
      rest <- process_rows rest ;;
      ret (r :: rest)
  end.

Definition process_csv (csv_path : string) (output_path : option string)
  : T unit :=
  let output_path := match output_path with Some p => p | None => csv_path end in
  t <- lift (read_csv csv_path) ;;
  match fieldnames t with
  | None => raise (Std TypeError)
  | Some names =>
      let fieldnames := names ++ ["webpage"] in
      rows <- process_rows (rows t) ;;
      lift (write_csv output_path (Some fieldnames) rows) ;;
      say (UpdatedCsv output_path (List.length rows))
  end.

Definition NAMES : list string :=
  ["CDC_midbln.csv"; "CDC_CIS_100mln.csv"; "CDC_IPO.csv"].

Fixpoint names_loop (names : list string) : T unit :=
  match names with
  | [] => ret tt
  | name :: rest =>
      present <- lift (csv_exists name) ;;
      (if present then process_csv name None else ret tt) ;;
      names_loop rest
  end.

Definition main : T unit := names_loop NAMES.

End AddWebpages.


(** ** What the configuration holds *)

Definition PROVIDERS : list string := ["ai_gemini"; "ai_grok"; "ai_openai"].

(** A file that is there and holds a JSON object. *)
Definition is_object (t : option json_text) : bool :=
  match t with
  | Some (Json (VDict _)) => true
  | _ => false
  end.

(** The three files [configix] loads are in the directory, each an
    object. *)
Definition complete (F : config_fs) (dir : config_place) : bool :=
  is_object (config_file F dir "config_gemini.json")
  && is_object (config_file F dir "config_grok.json")
  && is_object (config_file F dir "config_openai.json").

(** A key file that is there holds an object. *)
Definition loadable (t : option json_text) : bool :=
  match t with
  | None => true
  | _ => is_object t
  end.

(** The value a loader returns from a file. *)
Definition file_key (t : option json_text) (key : string) : value :=
  match t with
  | Some (Json (VDict d)) => get_default key VNone d
  | _ => VNone
  end.

Definition openai_in (F : config_fs) (dir : config_place) : value :=
  file_key (config_file F dir "config_openai.json") "openai_api_key".

Definition gemini_in (F : config_fs) (dir : config_place) : value :=
  file_key (config_file F dir "config_gemini.json") "ITEM".

(** Every key file of the directories that exist can be loaded. *)
Definition configs_ok (F : config_fs) : bool :=
  forallb (fun base =>
             negb (dir_exists F base)
             || (loadable (config_file F base "config_openai.json")
                 && loadable (config_file F base "config_gemini.json")))
          BASES.

(** [None or v1 or v2 or ...] *)
Fixpoint or_chain (a : value) (vs : list value) : value :=
  match vs with
  | [] => a
  | v :: rest => or_chain (if truthy a then a else v) rest
  end.

(** The directories of [BASES] that exist, in order. *)
Definition existing (F : config_fs) : list config_place :=
  filter (dir_exists F) BASES.

Module ExampleConfig.

Definition openai_json : value := VDict [("openai_api_key", VStr "sk-test")].
Definition gemini_json : value := VDict [("ITEM", VStr "g-test")].
Definition grok_json : value := VDict [("grok_api_key", VNone)].

Definition files (name : string) : option json_text :=
  if String.eqb name "config_openai.json" then Some (Json openai_json)
  else if String.eqb name "config_gemini.json" then Some (Json gemini_json)
  else if String.eqb name "config_grok.json" then Some (Json grok_json)
  else None.

(** Only [S/../config] exists, and it is complete. *)
Definition parent_only : config_fs :=
  mkFs (fun p => match p with ParentConfig => true | _ => false end)
       (fun p name => match p with ParentConfig => files name | _ => None end).

(** Only [S/config] exists, and it is complete. *)
Definition local_only : config_fs :=
  mkFs (fun p => match p with LocalConfig => true | _ => false end)
       (fun p name => match p with LocalConfig => files name | _ => None end).

(** [S/../config] holds a key file that is not JSON. *)
Definition broken : config_fs :=
  mkFs (fun p => match p with ParentConfig => true | _ => false end)
       (fun p name => match p with
                      | ParentConfig =>
                          if String.eqb name "config_openai.json"
                          then Some NotJson else None
                      | _ => None
                      end).

Definition w : world := mkWorld (fun _ => None) None [].

End ExampleConfig.


(** ** What [merge_webpages.py] computes *)

(** The tables of the files of [names] that exist, in order, and their
    rows. *)
Definition tables (w : world) (names : list string) : list csv_table :=
  flat_map (fun name => match csv_files w name with
                        | Some t => [t]
                        | None => []
                        end) names.

Definition all_rows (w : world) (names : list string) : list row :=
  flat_map rows (tables w names).

(** A row whose brand name and webpage can be stripped: neither is
    [None]. *)
Definition row_readable (r : row) : bool :=
  match row_get_or_empty "brand_name" r, row_get_or_empty "webpage" r with
  | Some _, Some _ => true
  | _, _ => false
  end.

Definition row_brand (r : row) : string :=
  PyStr.strip (opt_str (row_get_or_empty "brand_name" r)).

Definition row_url (r : row) : string :=
  PyStr.strip (opt_str (row_get_or_empty "webpage" r)).

(** A row that names a brand and a URL with the scheme prefix. *)
Definition row_usable (r : row) : bool :=
  PyStr.nonempty (row_brand r) && PyStr.nonempty (row_url r)
  && PyStr.startswith (row_url r) "http".

(** What the body of the loop over the rows does to the table of
    webpages on a readable row, and the loop on readable rows. *)
Definition merge_row (r : row) (acc : dict string) : dict string :=
  if row_usable r then dict_set (row_brand r) (row_url r) acc else acc.

Fixpoint merge_rows (rs : list row) (acc : dict string) : dict string :=
  match rs with
  | [] => acc
  | r :: rest => merge_rows rest (merge_row r acc)
  end.

(** Every row of the CSV files that exist is readable. *)
Definition rows_readable (w : world) : bool :=
  forallb row_readable (all_rows w MergeWebpages.CSVS).

(** The URL of the last usable row of the brand. *)
Fixpoint last_url (brand : string) (rs : list row) : option string :=
  match rs with
  | [] => None
  | r :: rest =>
      match last_url brand rest with
      | Some url => Some url
      | None =>
          if row_usable r && String.eqb (row_brand r) brand
          then Some (row_url r) else None
      end
  end.

(** The webpage the rows of the CSV files give a company of this name. *)
Definition merged_webpage (w : world) (name : value) : value :=
  match name with
  | VStr s =>
      match last_url s (all_rows w MergeWebpages.CSVS) with
      | Some url => VStr url
      | None => VNone
      end
  | _ => VNone
  end.

Definition merge_company (w : world) (c : value) : value :=
  match c with
  | VDict d =>
      VDict (dict_set "webpage"
               (merged_webpage w (get_default "name" (VStr "") d)) d)
  | _ => c
  end.

(** A company the loop gets through: a dict whose name can be hashed. *)
Definition mergeable (c : value) : bool :=
  match c with
  | VDict d =>
      match get_default "name" (VStr "") d with
      | VList _ | VDict _ => false
      | _ => true
      end
  | _ => false
  end.

(** A company the CSV files have a webpage for. *)
Definition named (w : world) (c : value) : bool :=
  match c with
  | VDict d => truthy (merged_webpage w (get_default "name" (VStr "") d))
  | _ => false
  end.

Module ExampleMerge.

Definition midbln : csv_table :=
  mkCsv (Some ["brand_name"; "webpage"])
        [["Acme"; "https://acme.example/"];
         [" Bolt "; " http://bolt.example "];
         ["Acme"; "https://www.acme.example/"];
         ["Core"; "core.example"]].

Definition companies : list value :=
  [VDict [("name", VStr "Acme"); ("webpage", VStr "https://old.example/")];
   VDict [("name", VStr "Bolt")];
   VDict [("name", VStr " Acme "); ("webpage", VStr "https://kept.example/")];
   VDict [("name", VStr "Core")]].

Definition data : dict value :=
  [("source", VStr "revenue"); ("companies", VList companies)].

Definition s : Tools.state :=
  Tools.mkState
    (mkWorld (fun p => if String.eqb p "CDC_midbln.csv" then Some midbln else None)
             (Some (VDict data)) [])
    [].

(** No JSON file. *)
Definition no_json : Tools.state :=
  Tools.mkState
    (mkWorld (fun p => if String.eqb p "CDC_midbln.csv" then Some midbln else None)
             None [])
    [].

End ExampleMerge.


(** ** What [add_webpages.py] computes *)

(** The test of the loop of [get_webpage]: one name occurs in the
    other, case apart. *)
Definition related (name key : string) : bool :=
  Text.contains (Text.lower key) (Text.lower name)
  || Text.contains (Text.lower name) (Text.lower key).

(** The line written for a row: one cell for each column of the header,
    a webpage cell from [get_webpage], any other cell as the row has
    it. *)
Definition with_webpage (header : list string) (r : row) : list string :=
  map (fun k => if String.eqb k "webpage"
                then AddWebpages.get_webpage
                       (opt_str (row_get_or_empty "brand_name" r))
                else opt_str (row_get k r))
      header.

Module ExampleAdd.

Definition table : csv_table :=
  mkCsv (Some ["brand_id"; "brand_name"])
        [["1"; "Vinci"]; ["2"; ""]; ["3"; "Nobody Knows"]].

Definition s : Tools.state :=
  Tools.mkState
    (mkWorld (fun p => if String.eqb p "CDC_midbln.csv" then Some table else None)
             None [])
    [].

(** The first file is empty, the last is not. *)
Definition empty_first : Tools.state :=
  Tools.mkState
    (mkWorld (fun p => if String.eqb p "CDC_midbln.csv" then Some (mkCsv None [])
                       else if String.eqb p "CDC_IPO.csv" then Some table
                       else None)
             None [])
    [].

End ExampleAdd.


(** ** What the liveness pass asks and requests *)

Definition is_head (ev : event) : bool :=
  match ev with EvHead _ _ => true | _ => false end.

(** A company whose webpage the pass checks. *)
Definition checked (c : value) : bool :=
  match c with
  | VDict d => match checked_url d with Some _ => true | None => false end
  | _ => false
  end.

(** A company whose webpage answers 404 or 423. *)
Definition broken (E : env) (c : value) : bool :=
  match c with
  | VDict d =>
      match checked_url d with
      | Some url =>
          VerifyWebpages.in_codes (status_of E url 10) VerifyWebpages.BAD_CODES
      | None => false
      end
  | _ => false
  end.

(** A broken company for which the resolver has a candidate. *)
Definition rechecked (E : env) (c : value) : bool :=
  match c with
  | VDict d =>
      broken E c
      && opt_truthy (resolve E (get_default "name" (VStr "Unknown") d)
                               (get_default "country" (VStr "") d))
  | _ => false
  end.

(** ** What a classification pass without a shortage of budget leaves *)

Definition csv_fix (E : env) (r : row) : row :=
  if csv_hit E r then csv_update E r else r.

(** The table with the webpage of every eligible row that has a
    candidate replaced; a table without the column is skipped. *)
Definition fixed_table (E : env) (t : csv_table) : csv_table :=
  if mem "webpage" (header t)
  then mkCsv (fieldnames t)
             (map (fun r => written_row (header t) (csv_fix E r)) (rows t))
  else t.

Definition json_fix (E : env) (c : value) : value :=
  if json_hit E c then json_update E c else c.

Definition fixed_json (E : env) (data : value) : value :=
  match data with
  | VDict d =>
      VDict (with_companies d (map (json_fix E) (json_companies_of (Some data))))
  | _ => data
  end.

(** The JSON value after a pass over its companies with [n >= 1]
    replacements left. *)
Definition fixed_json_first (E : env) (n : nat) (data : value) : value :=
  match data with
  | VDict d =>
      VDict (with_companies d
               (fix_first (json_hit E) (json_update E) n
                          (json_companies_of (Some data))))
  | _ => data
  end.

Module ExampleStartup.

(** No key file anywhere, and no package to fall back on. *)
Definition no_keys : env :=
  mkEnv (fun _ _ => Response 200)
        true (fun _ _ _ => Content None)
        true (fun _ _ _ => Content None)
        None None.

End ExampleStartup.


(** * Properties *)

(** ** Regular expressions *)

Lemma found_app {A} (a b : list A) : Re.found (a ++ b) = Re.found a || Re.found b.
Proof. destruct a; reflexivity. Qed.

Lemma search_from_cons ic b r : forall s prev,
  Re.search_from ic (b :: r) prev s
  = Re.search_from ic [b] prev s || Re.search_from ic r prev s.
Proof.
  induction s as [|c s IH]; intro prev; simpl.
  - rewrite !app_nil_r, found_app. now rewrite !orb_false_r.
  - rewrite IH, !app_nil_r, found_app.
    destruct (Re.found (Re.branch_match ic b prev (String c s))),
             (Re.found (Re.match_at ic r prev (String c s))),
             (Re.search_from ic [b] (Some c) s); reflexivity.
Qed.

Lemma search_from_nil ic : forall s prev, Re.search_from ic [] prev s = false.
Proof. induction s as [|c s IH]; intro prev; simpl; auto. Qed.

(** Searching an alternation is searching each branch. *)
Lemma search_alternation (r : Re.regex) (s : string) :
  search_I (Some r) s = existsb (fun b => search_I (Some [b]) s) r.
Proof.
  unfold search_I, Re.search. induction r as [|b r IH]; simpl existsb.
  - apply search_from_nil.
  - rewrite search_from_cons. now rewrite IH.
Qed.

Lemma existsb_map {A B} (f : B -> bool) (g : A -> B) (l : list A) :
  existsb f (map g l) = existsb (fun a => f (g a)) l.
Proof. induction l as [|a l IH]; simpl; [reflexivity | now rewrite IH]. Qed.

(** The compiled classifier pattern has one branch per listed pattern, in
    the order of the list. *)
Lemma NON_BRAND_REGEX_branches :
  exists r, NON_BRAND_REGEX = Some r
            /\ map Re.compile NON_BRAND_URL_PATTERNS = map (fun b => Some [b]) r.
Proof.
  exists (match NON_BRAND_REGEX with Some r => r | None => [] end).
  split; vm_compute; reflexivity.
Qed.

(** C8: the classifier is false on an empty or non-string value and
    otherwise true exactly when one of the listed patterns, compiled with
    [re.I], is found in the string; it is a function of its argument alone,
    and it is true on the two non-brand URLs of the specification and false
    on the plain corporate root. *)
Theorem is_non_brand_page_spec :
  (forall v,
      is_non_brand_page v
      = match v with
        | VStr (String _ _ as s) =>
            existsb (fun p => search_I (Re.compile p) s) NON_BRAND_URL_PATTERNS
        | _ => false
        end)
  /\ is_non_brand_page (VStr "https://finance.yahoo.com/quote/ACME") = true
  /\ is_non_brand_page (VStr "https://ir.example.com/shareholders") = true
  /\ is_non_brand_page (VStr "https://www.example.com/") = false.
Proof.
  split; [|repeat split; vm_compute; reflexivity].
  intros [ | b | z | m e | s | l | d];
    try (unfold is_non_brand_page; simpl isinstance_str;
         now rewrite orb_true_r).
  destruct s as [|c s]; [reflexivity|].
  unfold is_non_brand_page. cbn [truthy isinstance_str PyStr.nonempty negb orb].
  destruct NON_BRAND_REGEX_branches as (r & -> & Hmap).
  rewrite search_alternation.
  rewrite <- (existsb_map (fun o => search_I o (String c s)) Re.compile).
  rewrite Hmap. now rewrite existsb_map.
Qed.

(** ** Whitespace stripping *)

Lemma rstrip_tail c s : PyStr.rstrip (String c s) = String c s -> PyStr.rstrip s = s.
Proof.
  simpl. destruct (PyStr.rstrip s) eqn:H.
  - destruct (PyStr.isspace c); [discriminate|]. now intros [= <-].
  - now intros [= <-].
Qed.

Lemma rstrip_idem : forall s, PyStr.rstrip (PyStr.rstrip s) = PyStr.rstrip s.
Proof.
  induction s as [|c s IH]; [reflexivity|].
  simpl. destruct (PyStr.rstrip s) as [|c' r] eqn:H.
  - destruct (PyStr.isspace c) eqn:Hc; [reflexivity|]. simpl. now rewrite Hc.
  - simpl. simpl in IH. now rewrite IH.
Qed.

Lemma strip_rstrip s : PyStr.rstrip (PyStr.strip s) = PyStr.strip s.
Proof. apply rstrip_idem. Qed.

(** ** The quote pattern *)

Lemma EDGE_QUOTE_compiles : Re.compile EDGE_QUOTE_PATTERN = Some EDGE_QUOTE_REGEX.
Proof. vm_compute. reflexivity. Qed.

Lemma quotes_match c :
  existsb (fun i => Re.item_match false i c) QUOTES = Spec.is_quote c.
Proof. unfold QUOTES, Spec.is_quote. simpl. now rewrite orb_false_r. Qed.

Lemma sub_step prev c s :
  Re.sub_from false EDGE_QUOTE_REGEX prev (String c s) 0
  = if Spec.is_quote c
       && ((match prev with None => true | Some _ => false end) || Re.at_end s)
    then Re.sub_from false EDGE_QUOTE_REGEX (Some c) s 0
    else String c (Re.sub_from false EDGE_QUOTE_REGEX (Some c) s 0).
Proof.
  assert (Hlt : Nat.ltb (String.length s) (String.length (String c s)) = true)
    by (apply Nat.ltb_lt; cbn [String.length]; apply Nat.lt_succ_diag_r).
  assert (Hk : (String.length (String c s) - String.length s - 1)%nat = 0%nat)
    by (cbn [String.length]; rewrite Nat.sub_succ_l, Nat.sub_diag by apply Nat.le_refl; reflexivity).
  cbn [Re.sub_from].
  unfold Re.match_at, EDGE_QUOTE_REGEX.
  destruct prev as [p|];
    cbn [flat_map Re.branch_match Re.atom_match];
    rewrite quotes_match;
    destruct (Spec.is_quote c), (Re.at_end s);
    cbn [app find andb orb]; rewrite ?Hlt, ?Hk; reflexivity.
Qed.

(** Behind the first character the substitution drops a final quote. *)
Lemma sub_tail : forall s p,
  PyStr.rstrip s = s ->
  Re.sub_from false EDGE_QUOTE_REGEX (Some p) s 0 = Spec.drop_last_quote s.
Proof.
  induction s as [|c s IH]; intros p Hs; [reflexivity|].
  rewrite sub_step. cbn [orb].
  destruct s as [|c' s'].
  - cbn [Re.at_end andb Spec.drop_last_quote].
    rewrite andb_true_r. destruct (Spec.is_quote c); reflexivity.
  - assert (He : Re.at_end (String c' s') = false).
    { destruct s'; [|reflexivity]. simpl.
      destruct (Ascii.eqb c' PyStr.newline) eqn:Hn; [|reflexivity].
      apply Ascii.eqb_eq in Hn. subst c'.
      apply rstrip_tail in Hs. discriminate Hs. }
    rewrite He, andb_false_r.
    rewrite (IH c) by (eapply rstrip_tail; eassumption).
    reflexivity.
Qed.

Lemma sub_edge_quotes s :
  PyStr.rstrip s = s ->
  Re.sub_empty false EDGE_QUOTE_REGEX s
  = Spec.drop_last_quote (Spec.drop_first_quote s).
Proof.
  intro Hs. unfold Re.sub_empty. destruct s as [|c s]; [reflexivity|].
  rewrite sub_step. cbn [orb andb]. rewrite andb_true_r.
  rewrite (@sub_tail s c) by (eapply rstrip_tail; eassumption).
  unfold Spec.drop_first_quote.
  destruct (Spec.is_quote c) eqn:Hq; [reflexivity|].
  destruct s as [|c' s']; [|reflexivity].
  simpl. now rewrite Hq.
Qed.

(** ** The NONE test never decides *)

Lemma upper_not_NONE t :
  String.prefix "http" t = true -> PyStr.upper t <> PyStr.codes "NONE".
Proof.
  destruct t as [|c t]; [discriminate|]. cbn [String.prefix].
  destruct (Ascii.ascii_dec "h" c) as [<-|]; [|intro H; discriminate H].
  intros _. cbn [PyStr.upper]. intro H. vm_compute in H. discriminate H.
Qed.

Lemma ci_not_NONE t :
  String.prefix "http" t = true -> Spec.ci_equal t "NONE" = false.
Proof.
  destruct t as [|c t]; [discriminate|]. cbn [String.prefix].
  destruct (Ascii.ascii_dec "h" c) as [<-|]; [|intro H; discriminate H].
  intros _. reflexivity.
Qed.

Lemma parse_ai_url_prefix text :
  _parse_ai_url text
  = let t := Spec.drop_last_quote
               (Spec.drop_first_quote (PyStr.strip (opt_str text))) in
    if String.prefix "http" t then Some t else None.
Proof.
  unfold _parse_ai_url, re_sub_empty. rewrite EDGE_QUOTE_compiles.
  change (match text with Some t => t | None => "" end) with (opt_str text).
  rewrite sub_edge_quotes by apply strip_rstrip.
  cbv zeta. unfold PyStr.startswith.
  set (t := Spec.drop_last_quote _).
  destruct (String.prefix "http" t) eqn:Hp.
  - destruct (list_eq_dec N.eq_dec (PyStr.upper t) (PyStr.codes "NONE")) as [e|];
      [now apply upper_not_NONE in e | reflexivity].
  - now rewrite orb_true_r.
Qed.

(** C5: the parser of the scripts is the parser the specification words:
    whitespace and one quote at each end are stripped, and the answer is
    none when the rest equals NONE without regard to case or lacks the
    scheme prefix, the rest itself otherwise; the three named responses
    parse as stated. *)
Theorem parse_ai_url_spec :
  (forall text, _parse_ai_url text = Spec.parse_response text)
  /\ _parse_ai_url (Some "NONE") = None
  /\ _parse_ai_url (Some (quoted "https://x.com")) = Some "https://x.com"
  /\ _parse_ai_url (Some "Sure, the site is example.com") = None.
Proof.
  split; [|repeat split; vm_compute; reflexivity].
  intro text. rewrite parse_ai_url_prefix. unfold Spec.parse_response.
  cbv zeta. set (t := Spec.drop_last_quote _).
  destruct (String.prefix "http" t) eqn:Hp.
  - now rewrite (ci_not_NONE _ Hp).
  - now rewrite orb_true_r.
Qed.

(** ** Reasoning about computations that only add to the trace *)

Lemma add_events_nil w : add_events [] w = w.
Proof. destruct w. unfold add_events. simpl. now rewrite app_nil_r. Qed.

Lemma add_events_app e1 e2 w :
  add_events e2 (add_events e1 w) = add_events (e1 ++ e2) w.
Proof. unfold add_events. simpl. now rewrite app_assoc. Qed.

(** ** Liveness checker *)

Lemma check_url_says E url timeout :
  says (check_url E url timeout) (Returns (status_of E url timeout))
       [EvHead url timeout].
Proof.
  intro w. unfold check_url, try_except, urlopen, bind, emit, status_of.
  destruct (urlopen_head E url timeout); reflexivity.
Qed.

(** C7: the liveness checker always returns: the status of the response,
    the code of an HTTP error response, or -1 after any other failure;
    and -1 is no status code of an HTTP response. *)
Theorem check_url_never_raises :
  (forall E url timeout w,
      check_url E url timeout w
      = (Returns match urlopen_head E url timeout with
                 | Response status => status
                 | ErrorResponse code => code
                 | Failed _ => (-1)%Z
                 end,
         add_events [EvHead url timeout] w))
  /\ ~ Spec.http_status (-1).
Proof.
  split.
  - intros. apply check_url_says.
  - unfold Spec.http_status. lia.
Qed.

(** ** Resolver *)

Lemma parse_truthy text u : _parse_ai_url text = Some u -> PyStr.nonempty u = true.
Proof.
  rewrite parse_ai_url_prefix. cbv zeta.
  destruct (String.prefix "http" _) eqn:Hp; [|discriminate].
  intros [= <-]. destruct (Spec.drop_last_quote _); [discriminate Hp | reflexivity].
Qed.

Lemma answer_truthy importable r :
  opt_truthy (provider_answer importable r)
  = match provider_answer importable r with Some _ => true | None => false end.
Proof.
  destruct (provider_answer importable r) as [u|] eqn:H; [|reflexivity].
  unfold provider_answer in H. destruct importable; [|discriminate].
  destruct r; [|discriminate]. simpl. eapply parse_truthy; eassumption.
Qed.

Lemma ask_openai_says E name country key :
  exists evs,
    says (ask_openai_for_webpage E name country key)
         (Returns (provider_answer (openai_importable E)
                     (openai_create E key name country))) evs
    /\ Forall (fun ev => resolver_event ev = true /\ gemini_event ev = false) evs.
Proof.
  unfold ask_openai_for_webpage, provider_answer, import_module.
  destruct (openai_importable E).
  - destruct (openai_create E key name country) as [text|msg] eqn:Hr.
    + exists [EvOpenAI name country]. split; [|repeat constructor].
      intro w. reflexivity.
    + exists [EvOpenAI name country; EvPrint (LOpenAIError (ProviderError msg))].
      split; [|repeat constructor].
      intro w. unfold add_events. cbn. now rewrite <- app_assoc.
  - exists [EvPrint (LOpenAIError ImportError)]. split; [|repeat constructor].
    intro w. reflexivity.
Qed.

Lemma ask_gemini_says E name country key :
  exists evs,
    says (ask_gemini_for_webpage E name country key)
         (Returns (provider_answer (genai_importable E)
                     (gemini_generate E key name country))) evs
    /\ Forall (fun ev => resolver_event ev = true) evs
    /\ existsb gemini_event evs = true.
Proof.
  unfold ask_gemini_for_webpage, provider_answer, import_module.
  destruct (genai_importable E).
  - destruct (gemini_generate E key name country) as [text|msg] eqn:Hr.
    + exists [EvGemini name country]. split; [|split; repeat constructor].
      intro w. reflexivity.
    + exists [EvGemini name country; EvPrint (LGeminiError (ProviderError msg))].
      split; [|split; repeat constructor].
      intro w. unfold add_events. cbn. now rewrite <- app_assoc.
  - exists [EvPrint (LGeminiError ImportError)]. split; [|split; repeat constructor].
    intro w. reflexivity.
Qed.

Lemma first_candidate_none answers :
  first_candidate answers = None <-> Forall (fun a => a = None) answers.
Proof.
  induction answers as [|[u|] rest IH]; simpl.
  - split; [constructor | reflexivity].
  - split; [discriminate | intro H; inversion H; assumption].
  - rewrite IH. split; [now constructor | intro H; now inversion H].
Qed.

Lemma existsb_gemini_false evs :
  Forall (fun ev => resolver_event ev = true /\ gemini_event ev = false) evs ->
  existsb gemini_event evs = false.
Proof.
  induction 1 as [|ev evs [_ H] _ IH]; simpl; [reflexivity|]. now rewrite H, IH.
Qed.

Lemma Forall_fst_resolver evs :
  Forall (fun ev => resolver_event ev = true /\ gemini_event ev = false) evs ->
  Forall (fun ev => resolver_event ev = true) evs.
Proof. apply Forall_impl. now intros ev []. Qed.

Lemma ask_ai_says E name country openai_key gemini_key :
  let answers := provider_answers E name country openai_key gemini_key in
  exists evs,
    says (ask_ai_for_webpage E name country openai_key gemini_key)
         (Returns (first_candidate answers)) evs
    /\ existsb gemini_event evs
       = opt_truthy gemini_key
         && negb (opt_truthy openai_key
                  && opt_truthy (provider_answer (openai_importable E)
                                   (openai_create E (opt_str openai_key) name country)))
    /\ Forall (fun ev => resolver_event ev = true) evs.
Proof.
  intro answers. subst answers.
  unfold provider_answers, ask_ai_for_webpage.
  destruct (ask_openai_says E name country (opt_str openai_key)) as (e1 & H1 & F1).
  destruct (ask_gemini_says E name country (opt_str gemini_key)) as (e2 & H2 & F2 & G2).
  set (a1 := provider_answer (openai_importable E) _) in *.
  set (a2 := provider_answer (genai_importable E) _) in *.
  pose proof (answer_truthy (openai_importable E)
                (openai_create E (opt_str openai_key) name country)) as T1.
  fold a1 in T1. clearbody a1 a2.
  destruct (opt_truthy openai_key), (opt_truthy gemini_key);
    cbn [app first_candidate andb negb].
  - (* both keys *)
    destruct a1 as [u|]; cbn [first_candidate]; rewrite T1; cbn [negb andb].
    + exists e1. repeat split.
      * intro w. unfold bind. rewrite H1. rewrite T1.
        unfold ret. reflexivity.
      * now apply existsb_gemini_false.
      * now apply Forall_fst_resolver.
    + exists (e1 ++ [EvPrint LTryingGemini] ++ e2). repeat split.
      * intro w. unfold bind. rewrite H1. cbn [opt_truthy].
        unfold print, emit, ret. cbn. rewrite H2.
        unfold add_events. cbn. destruct a2; now rewrite <- !app_assoc.
      * rewrite !existsb_app, G2. cbn. now rewrite orb_true_r.
      * apply Forall_app. split; [now apply Forall_fst_resolver|].
        constructor; [reflexivity | assumption].
  - (* OpenAI only *)
    destruct a1 as [u|]; cbn [first_candidate]; rewrite ?T1; cbn [negb andb].
    + exists e1. repeat split.
      * intro w. unfold bind. rewrite H1. rewrite T1. reflexivity.
      * now apply existsb_gemini_false.
      * now apply Forall_fst_resolver.
    + exists (e1 ++ [EvPrint LTryingGemini]). repeat split.
      * intro w. unfold bind. rewrite H1. cbn [opt_truthy].
        unfold print, emit, ret. cbn. unfold add_events. cbn.
        now rewrite <- !app_assoc.
      * rewrite existsb_app. rewrite (existsb_gemini_false F1). reflexivity.
      * apply Forall_app. split; [now apply Forall_fst_resolver | repeat constructor].
  - (* Gemini only *)
    exists e2. repeat split.
    + intro w. unfold bind, ret. cbn. rewrite H2.
      destruct a2; reflexivity.
    + assumption.
    + assumption.
  - (* no key *)
    exists []. repeat split.
    + intro w. unfold bind, ret. cbn. now rewrite add_events_nil.
    + constructor.
Qed.

(** C6: the resolver always returns, and what it returns is the first
    candidate among the configured providers taken in priority order
    (OpenAI, then Gemini), a provider that fails counting as one without
    a candidate; that is none exactly when no provider has a candidate;
    and Gemini is consulted only if its key is set and OpenAI, when
    configured, had no candidate. *)
Theorem ask_ai_for_webpage_spec E name country openai_key gemini_key :
  let answers := provider_answers E name country openai_key gemini_key in
  exists evs,
    says (ask_ai_for_webpage E name country openai_key gemini_key)
         (Returns (first_candidate answers)) evs
    /\ (first_candidate answers = None <-> Forall (fun a => a = None) answers)
    /\ existsb gemini_event evs
       = opt_truthy gemini_key
         && negb (opt_truthy openai_key
                  && opt_truthy (provider_answer (openai_importable E)
                                   (openai_create E (opt_str openai_key) name country))).
Proof.
  intro answers.
  destruct (ask_ai_says E name country openai_key gemini_key)
    as (evs & Hs & Hg & _).
  exists evs. split; [exact Hs|]. split; [apply first_candidate_none | exact Hg].
Qed.

(** ** Counting events *)

Lemma count_app p a b : count p (a ++ b) = (count p a + count p b)%nat.
Proof. unfold count. now rewrite filter_app, length_app. Qed.

Lemma count_cons p ev evs : count p (ev :: evs) = (b2n (p ev) + count p evs)%nat.
Proof. unfold count. simpl. destruct (p ev); reflexivity. Qed.

Lemma count_nil p : count p [] = 0%nat.
Proof. reflexivity. Qed.

Lemma count_resolver p evs :
  (forall ev, resolver_event ev = true -> p ev = false) ->
  Forall (fun ev => resolver_event ev = true) evs ->
  count p evs = 0%nat.
Proof.
  intros Hp. induction 1 as [|ev evs Hev _ IH]; [reflexivity|].
  rewrite count_cons, IH, (Hp _ Hev). reflexivity.
Qed.

Lemma resolver_not_record ev : resolver_event ev = true -> is_record ev = false.
Proof. destruct ev as [| | | | | |[]]; simpl; congruence. Qed.

Lemma resolver_not_asking ev : resolver_event ev = true -> is_asking ev = false.
Proof. destruct ev as [| | | | | |[]]; simpl; congruence. Qed.

Lemma resolver_not_replaced ev : resolver_event ev = true -> is_replaced ev = false.
Proof. destruct ev as [| | | | | |[]]; simpl; congruence. Qed.

Lemma resolver_not_file ev : resolver_event ev = true -> is_file_event ev = false.
Proof. destruct ev as [| | | | | |[]]; simpl; congruence. Qed.

Lemma body_trace_skip path : body_trace [EvRecord path] false false.
Proof. repeat split. Qed.

Lemma body_trace_asked path l aevs l' :
  Forall (fun ev => resolver_event ev = true) aevs ->
  is_asking (EvPrint l) = false -> is_replaced (EvPrint l) = false ->
  is_asking (EvPrint l') = false ->
  body_trace (EvRecord path :: EvPrint l :: EvPrint LAsking :: aevs ++ [EvPrint l'])
             true (is_replaced (EvPrint l')).
Proof.
  intros F Ha Hr Ha'. unfold body_trace.
  rewrite !count_cons, !count_app, !count_cons, !count_nil.
  rewrite (count_resolver _ resolver_not_record F),
          (count_resolver _ resolver_not_asking F),
          (count_resolver _ resolver_not_replaced F),
          (count_resolver _ resolver_not_file F).
  rewrite Ha, Hr, Ha'. simpl. repeat split; lia.
Qed.

(** ** One CSV row *)

Lemma ask_says E name country :
  exists evs,
    says (FixIpoWebpages.ask E name country)
         (Returns (resolve E (VStr name) (VStr country))) evs
    /\ Forall (fun ev => resolver_event ev = true) evs.
Proof.
  destruct (ask_ai_says E (VStr name) (VStr country) (openai_key E) (gemini_key E))
    as (evs & Hs & _ & F).
  exists evs. split; assumption.
Qed.

Lemma claimed_eligible_split url :
  claimed_eligible url
  = negb (negb (PyStr.nonempty url) || negb (PyStr.startswith url "http"))
    && negb (negb (is_non_brand_page (VStr url))).
Proof.
  unfold claimed_eligible.
  destruct (PyStr.nonempty url), (PyStr.startswith url "http"),
           (is_non_brand_page (VStr url)); reflexivity.
Qed.

Lemma csv_row_says E limit path r st :
  exists evs,
    says (FixIpoWebpages.csv_row E limit path r st)
         (if typed_row r then Returns (csv_step E limit r st)
          else Raises AttributeError) evs
    /\ count is_file_event evs = 0%nat
    /\ (typed_row r = true ->
        body_trace evs (claimed_eligible (csv_url r)) (csv_hit E r))
    /\ (typed_row r = false -> evs = [EvRecord path]).
Proof.
  unfold FixIpoWebpages.csv_row, csv_step, hit_step, csv_hit, csv_update,
    typed_row, csv_named.
  fold (csv_url r).
  rewrite claimed_eligible_split.
  destruct (negb (PyStr.nonempty (csv_url r))
            || negb (PyStr.startswith (csv_url r) "http")) eqn:H1.
  { exists [EvRecord path]. cbn [negb andb orb].
    split; [intro w; reflexivity|].
    split; [reflexivity|]. split; [intros _; apply body_trace_skip|discriminate]. }
  destruct (negb (is_non_brand_page (VStr (csv_url r)))) eqn:H2.
  { exists [EvRecord path]. cbn [negb andb orb].
    split; [intro w; reflexivity|].
    split; [reflexivity|]. split; [intros _; apply body_trace_skip|discriminate]. }
  cbn [negb andb orb].
  unfold csv_answer, csv_name, csv_country.
  destruct (row_get_or_empty "brand_name" r) as [name|] eqn:Hname.
  2:{ exists [EvRecord path].
      split; [intro w; reflexivity|].
      split; [reflexivity|]. split; [discriminate|reflexivity]. }
  destruct (row_get_or_empty "country" r) as [country|] eqn:Hcountry.
  2:{ exists [EvRecord path].
      split; [intro w; reflexivity|].
      split; [reflexivity|]. split; [discriminate|reflexivity]. }
  cbn [opt_str].
  set (n := str_or (PyStr.strip name) "Unknown").
  set (k := str_or (PyStr.strip country) "").
  destruct (ask_says E n k) as (aevs & Hs & F).
  destruct (opt_truthy (resolve E (VStr n) (VStr k))) eqn:Ht.
  - eexists. split; [|split; [|split; [intros _|discriminate]]].
    + intro w. unfold bind, print, emit, cell_strip, ret. cbn.
      fold n k. rewrite Hs, Ht. cbn.
      destruct (FixIpoWebpages.count_fix limit st) as [st' c].
      unfold ret, add_events. cbn. rewrite <- !app_assoc. cbn. reflexivity.
    + apply (@body_trace_asked path (LIpoPage path n (csv_url r))
               aevs (LReplaced (opt_str (resolve E (VStr n) (VStr k)))) F);
        reflexivity.
    + apply (@body_trace_asked path (LIpoPage path n (csv_url r))
               aevs (LReplaced (opt_str (resolve E (VStr n) (VStr k)))) F);
        reflexivity.
  - eexists. split; [|split; [|split; [intros _|discriminate]]].
    + intro w. unfold bind, print, emit, cell_strip, ret. cbn.
      fold n k. rewrite Hs, Ht. cbn.
      unfold ret, add_events. cbn. rewrite <- !app_assoc. cbn. reflexivity.
    + apply (@body_trace_asked path (LIpoPage path n (csv_url r))
               aevs LKeepOriginal F); reflexivity.
    + apply (@body_trace_asked path (LIpoPage path n (csv_url r))
               aevs LKeepOriginal F); reflexivity.
Qed.

(** ** The rows of one CSV file *)

Lemma csv_rows_says E limit path : forall rs st,
  let seen := firstn (loop_visited (csv_step E limit) rs st) rs in
  exists evs,
    says (FixIpoWebpages.csv_rows E limit path rs st)
         (if forallb typed_row seen
          then Returns (loop_result (csv_step E limit) rs st)
          else Raises AttributeError) evs
    /\ count is_file_event evs = 0%nat
    /\ (forallb typed_row seen = true ->
        count is_record evs = List.length seen
        /\ count is_asking evs
           = List.length (filter (fun r => claimed_eligible (csv_url r)) seen)
        /\ count is_replaced evs = List.length (filter (csv_hit E) seen)).
Proof.
  induction rs as [|r rest IH]; intro st.
  - exists []. split; [|repeat split].
    intro w. cbn. unfold ret. now rewrite add_events_nil.
  - destruct (csv_row_says E limit path r st) as (e1 & H1 & F1 & T1 & _).
    cbn [FixIpoWebpages.csv_rows loop_result loop_visited].
    destruct (csv_step E limit r st) as [[r' st'] k] eqn:Hstep.
    destruct (typed_row r) eqn:Hc.
    + destruct (T1 eq_refl) as (R1 & A1 & P1 & _).
      destruct k.
      * destruct (IH st') as (e2 & H2 & F2 & T2).
        cbn zeta in H2, T2.
        cbn zeta. cbn [firstn forallb]. rewrite Hc. cbn [andb].
        destruct (loop_result (csv_step E limit) rest st') as [rest' st''] eqn:Hrest.
        exists (e1 ++ e2). split; [|split].
        -- intro w. unfold bind. rewrite H1, H2, add_events_app.
           destruct (forallb typed_row _); reflexivity.
        -- rewrite count_app, F1, F2. reflexivity.
        -- intro Hall. destruct (T2 Hall) as (R2 & A2 & P2).
           cbn [filter List.length]. rewrite !count_app, R1, A1, P1, R2, A2, P2.
           destruct (claimed_eligible (csv_url r)), (csv_hit E r); cbn; repeat split.
      * cbn zeta. cbn [firstn forallb]. rewrite Hc. cbn [andb].
        exists e1. split; [|split; [assumption|]].
        -- intro w. unfold bind. rewrite H1. reflexivity.
        -- intros _. cbn [filter List.length]. rewrite R1, A1, P1.
           destruct (claimed_eligible (csv_url r)), (csv_hit E r); cbn; repeat split.
    + exists e1. split; [|split; [assumption|]].
      * intro w. unfold bind. rewrite H1.
        cbn zeta. destruct k; cbn [firstn forallb]; rewrite Hc; reflexivity.
      * cbn zeta. destruct k; cbn [firstn forallb]; rewrite Hc; discriminate.
Qed.

(** ** One JSON company in classification mode *)

Ltac run_m := cbv [bind emit print as_dict strip_method ret raise].
Ltac run_body := intro w; run_m.
Ltac raise_case :=
  split; [reflexivity | cbn [is_str andb]; let Hf := fresh "Hf" in intro Hf; discriminate Hf].

Lemma json_company_says E limit c st :
  exists evs,
    says (FixIpoWebpages.json_company E limit c st)
         (if typed_company c then Returns (json_step E limit c st)
          else Raises AttributeError) evs
    /\ count is_file_event evs = 0%nat
    /\ (typed_company c = true -> body_trace evs (json_asked c) (json_hit E c)).
Proof.
  unfold FixIpoWebpages.json_company.
  destruct c as [ | b | z | m e | s | l | d];
    try (exists [EvRecord JSON_NAME]; split; [intro w; reflexivity | raise_case]).
  unfold typed_company, json_step, hit_step, json_hit, json_update, json_asked,
    company_needs_fix, company_answer, company_name, company_country.
  fold (company_url_str d).
  destruct (get_default "name" (VStr "") d) as [ | | | | name | | ] eqn:Hname;
    try (exists [EvRecord JSON_NAME];
         split; [run_body; rewrite Hname; run_m; reflexivity | raise_case]).
  destruct (get_default "country" (VStr "") d) as [ | | | | country | | ] eqn:Hcountry;
    try (exists [EvRecord JSON_NAME];
         split; [run_body; rewrite Hname; run_m; rewrite Hcountry; run_m; reflexivity | raise_case]).
  cbn [is_str andb str_of].
  set (needs_fix := _ || _).
  set (n := str_or (PyStr.strip name) "Unknown").
  set (k := str_or (PyStr.strip country) "").
  assert (Hrun : forall (X : Type) (a b : M X) w,
             (if negb
                   (negb (PyStr.nonempty
                            match get_default "webpage" VNone d with
                            | VStr s => PyStr.strip s | _ => "" end)
                    && truthy (get_default "ipo" VNone d)
                    || PyStr.nonempty
                         match get_default "webpage" VNone d with
                         | VStr s => PyStr.strip s | _ => "" end
                       && is_non_brand_page
                            (VStr match get_default "webpage" VNone d with
                                  | VStr s => PyStr.strip s | _ => "" end))
              then a else b) w
             = (if needs_fix then b else a) w).
  { intros. fold (company_url_str d). fold needs_fix. now destruct needs_fix. }
  destruct needs_fix eqn:Hn.
  2:{ exists [EvRecord JSON_NAME].
      split; [|split; [reflexivity|intros _; apply body_trace_skip]].
      run_body. rewrite Hname. run_m. rewrite Hcountry. run_m. now rewrite Hrun. }
  destruct (ask_says E n k) as (aevs & Hs & F).
  cbn [andb].
  destruct (opt_truthy (resolve E (VStr n) (VStr k))) eqn:Ht.
  - eexists. split; [|split].
    + run_body. rewrite Hname. run_m. rewrite Hcountry. run_m. rewrite Hrun.
      fold n k. run_m. rewrite Hs, Ht. run_m.
      destruct (FixIpoWebpages.count_fix limit st) as [st' c].
      unfold add_events. cbn. rewrite <- !app_assoc. cbn. reflexivity.
    + apply (@body_trace_asked JSON_NAME (LJson n (company_url_str d))
               aevs (LSet (opt_str (resolve E (VStr n) (VStr k)))) F);
        reflexivity.
    + intros _.
      apply (@body_trace_asked JSON_NAME (LJson n (company_url_str d))
               aevs (LSet (opt_str (resolve E (VStr n) (VStr k)))) F);
        reflexivity.
  - eexists. split; [|split].
    + run_body. rewrite Hname. run_m. rewrite Hcountry. run_m. rewrite Hrun.
      fold n k. run_m. rewrite Hs, Ht. run_m.
      unfold add_events. cbn. rewrite <- !app_assoc. cbn. reflexivity.
    + apply (@body_trace_asked JSON_NAME (LJson n (company_url_str d))
               aevs LNoAlternative F); reflexivity.
    + intros _.
      apply (@body_trace_asked JSON_NAME (LJson n (company_url_str d))
               aevs LNoAlternative F); reflexivity.
Qed.

(** ** The companies of the JSON file in classification mode *)

Lemma json_companies_says E limit : forall cs st,
  let seen := firstn (loop_visited (json_step E limit) cs st) cs in
  exists evs,
    says (FixIpoWebpages.json_companies E limit cs st)
         (if forallb typed_company seen
          then Returns (loop_result (json_step E limit) cs st)
          else Raises AttributeError) evs
    /\ count is_file_event evs = 0%nat
    /\ (forallb typed_company seen = true ->
        count is_record evs = List.length seen
        /\ count is_asking evs = List.length (filter json_asked seen)
        /\ count is_replaced evs = List.length (filter (json_hit E) seen)).
Proof.
  induction cs as [|c rest IH]; intro st.
  - exists []. split; [|repeat split].
    intro w. cbn. unfold ret. now rewrite add_events_nil.
  - destruct (json_company_says E limit c st) as (e1 & H1 & F1 & T1).
    cbn [FixIpoWebpages.json_companies loop_result loop_visited].
    destruct (json_step E limit c st) as [[c' st'] k] eqn:Hstep.
    destruct (typed_company c) eqn:Hc.
    + destruct (T1 eq_refl) as (R1 & A1 & P1 & _).
      destruct k.
      * destruct (IH st') as (e2 & H2 & F2 & T2).
        cbn zeta in H2, T2.
        cbn zeta. cbn [firstn forallb]. rewrite Hc. cbn [andb].
        destruct (loop_result (json_step E limit) rest st') as [rest' st''] eqn:Hrest.
        exists (e1 ++ e2). split; [|split].
        -- intro w. unfold bind. rewrite H1, H2, add_events_app.
           destruct (forallb typed_company _); reflexivity.
        -- rewrite count_app, F1, F2. reflexivity.
        -- intro Hall. destruct (T2 Hall) as (R2 & A2 & P2).
           cbn [filter List.length]. rewrite !count_app, R1, A1, P1, R2, A2, P2.
           destruct (json_asked c), (json_hit E c); cbn; repeat split.
      * cbn zeta. cbn [firstn forallb]. rewrite Hc. cbn [andb].
        exists e1. split; [|split; [assumption|]].
        -- intro w. unfold bind. rewrite H1. reflexivity.
        -- intros _. cbn [filter List.length]. rewrite R1, A1, P1.
           destruct (json_asked c), (json_hit E c); cbn; repeat split.
    + exists e1. split; [|split; [assumption|]].
      * intro w. unfold bind. rewrite H1.
        cbn zeta. destruct k; cbn [firstn forallb]; rewrite Hc; reflexivity.
      * cbn zeta. destruct k; cbn [firstn forallb]; rewrite Hc; discriminate.
Qed.

(** ** One company and all companies in liveness mode *)

Lemma accepted_code s :
  negb (VerifyWebpages.in_codes s VerifyWebpages.BAD_CODES)
  && (200 <=? s)%Z && (s <? 400)%Z = accepted s.
Proof. reflexivity. Qed.

Lemma company_says E c st :
  exists evs,
    says (VerifyWebpages.company E c st)
         (if is_dict c then Returns (verify_step E c st) else Raises AttributeError)
         evs
    /\ count is_file_event evs = 0%nat.
Proof.
  unfold VerifyWebpages.company.
  destruct c as [ | b | z | m e | s | l | d];
    try (exists [EvRecord JSON_NAME]; split; [intro w; reflexivity | reflexivity]).
  cbn [is_dict verify_step]. unfold checked_url.
  set (name := get_default "name" (VStr "Unknown") d).
  set (country := get_default "country" (VStr "") d).
  destruct (get_default "webpage" VNone d) as [ | | | | url | | ] eqn:Hurl;
    try (exists [EvRecord JSON_NAME]; split; [|reflexivity];
         run_body; rewrite Hurl; reflexivity).
  destruct (PyStr.nonempty url && PyStr.startswith url "http") eqn:Hok.
  2:{ exists [EvRecord JSON_NAME]. split; [|reflexivity].
      run_body. rewrite Hurl. cbv [opt_truthy opt_str].
      destruct (PyStr.nonempty url), (PyStr.startswith url "http");
        try discriminate Hok; reflexivity. }
  apply andb_true_iff in Hok. destruct Hok as [Hne Hpre].
  pose proof (check_url_says E url 10) as Hc1.
  destruct (ask_ai_says E name country (openai_key E) (gemini_key E))
    as (aevs & Hs & _ & F).
  fold (resolve E name country) in Hs.
  destruct (VerifyWebpages.in_codes (status_of E url 10) VerifyWebpages.BAD_CODES) eqn:Hbad.
  2:{ exists [EvRecord JSON_NAME; EvHead url 10]. split; [|reflexivity].
      run_body. rewrite Hurl. cbv [opt_truthy opt_str]. rewrite Hne, Hpre.
      cbn [negb orb]. fold name country. rewrite Hc1, Hbad.
      unfold add_events. cbn. rewrite <- !app_assoc. reflexivity. }
  destruct (opt_truthy (resolve E name country)) eqn:Ht.
  2:{ eexists. split.
      - run_body. rewrite Hurl. cbv [opt_truthy opt_str]. rewrite Hne, Hpre.
        cbn [negb orb]. fold name country. rewrite Hc1, Hbad.
        cbn [add_events trace csv_files json_file]. rewrite Hs.
        fold (opt_truthy (resolve E name country)). rewrite Ht.
        unfold add_events. cbn. rewrite <- !app_assoc. cbn. reflexivity.
      - rewrite !count_cons, count_app, !count_cons, count_nil.
        now rewrite (count_resolver _ resolver_not_file F). }
  pose proof (check_url_says E (opt_str (resolve E name country)) 10) as Hc2.
  destruct (accepted (status_of E (opt_str (resolve E name country)) 10)) eqn:Hacc.
  - eexists. split.
    + run_body. rewrite Hurl. cbv [opt_truthy opt_str]. rewrite Hne, Hpre.
      cbn [negb orb]. fold name country. rewrite Hc1, Hbad.
      cbn [add_events trace csv_files json_file]. rewrite Hs.
      fold (opt_truthy (resolve E name country)). rewrite Ht.
      fold (opt_str (resolve E name country)).
      cbn [add_events trace csv_files json_file]. rewrite Hc2.
      rewrite accepted_code, Hacc.
      unfold add_events. cbn. rewrite <- !app_assoc. cbn. reflexivity.
    + rewrite !count_cons, count_app, !count_cons, count_nil.
      now rewrite (count_resolver _ resolver_not_file F).
  - eexists. split.
    + run_body. rewrite Hurl. cbv [opt_truthy opt_str]. rewrite Hne, Hpre.
      cbn [negb orb]. fold name country. rewrite Hc1, Hbad.
      cbn [add_events trace csv_files json_file]. rewrite Hs.
      fold (opt_truthy (resolve E name country)). rewrite Ht.
      fold (opt_str (resolve E name country)).
      cbn [add_events trace csv_files json_file]. rewrite Hc2.
      rewrite accepted_code, Hacc.
      unfold add_events. cbn. rewrite <- !app_assoc. cbn. reflexivity.
    + rewrite !count_cons, count_app, !count_cons, count_nil.
      now rewrite (count_resolver _ resolver_not_file F).
Qed.

Lemma companies_loop_says E : forall cs st,
  exists evs,
    says (VerifyWebpages.companies_loop E cs st)
         (if forallb is_dict cs then Returns (verify_result E cs st)
          else Raises AttributeError) evs
    /\ count is_file_event evs = 0%nat.
Proof.
  induction cs as [|c rest IH]; intro st.
  - exists []. split; [|reflexivity].
    intro w. cbn. unfold ret. now rewrite add_events_nil.
  - destruct (company_says E c st) as (e1 & H1 & F1).
    cbn [VerifyWebpages.companies_loop verify_result forallb].
    destruct (is_dict c).
    + destruct (verify_step E c st) as [c' st'].
      destruct (IH st') as (e2 & H2 & F2).
      exists (e1 ++ e2). split.
      * intro w. unfold bind. rewrite H1, H2, add_events_app. cbn [andb].
        destruct (forallb is_dict rest); [|reflexivity].
        destruct (verify_result E rest st') as [rest' st'']. reflexivity.
      * rewrite count_app, F1, F2. reflexivity.
    + exists e1. split; [|assumption].
      intro w. unfold bind. now rewrite H1.
Qed.

(** ** Dicts *)

Section DictFacts.
Variable V : Type.
Implicit Types (d : dict V) (k : string) (v : V).

Lemma dict_get_set_same k v d : dict_get k (dict_set k v d) = Some v.
Proof.
  induction d as [|[k' v'] d IH]; simpl.
  - now rewrite String.eqb_refl.
  - destruct (String.eqb k k') eqn:H; simpl; rewrite H; auto.
Qed.

Lemma dict_get_set_other k k' v d :
  k' <> k -> dict_get k' (dict_set k v d) = dict_get k' d.
Proof.
  intro Hne. induction d as [|[k0 v0] d IH]; simpl.
  - apply String.eqb_neq in Hne. now rewrite Hne.
  - destruct (String.eqb k k0) eqn:H; simpl.
    + apply String.eqb_eq in H. subst k0.
      apply String.eqb_neq in Hne. now rewrite Hne.
    + now rewrite IH.
Qed.

Lemma keys_set_present k v d :
  dict_get k d <> None -> keys (dict_set k v d) = keys d.
Proof.
  induction d as [|[k0 v0] d IH]; simpl; intro H.
  - congruence.
  - destruct (String.eqb k k0) eqn:Hk; simpl; [reflexivity|].
    f_equal. now apply IH.
Qed.

Lemma keys_set_absent k v d :
  dict_get k d = None -> keys (dict_set k v d) = keys d ++ [k].
Proof.
  induction d as [|[k0 v0] d IH]; simpl; intro H; [reflexivity|].
  destruct (String.eqb k k0) eqn:Hk; simpl; [discriminate|].
  f_equal. now apply IH.
Qed.

Lemma dict_set_same k v d : dict_get k d = Some v -> dict_set k v d = d.
Proof.
  induction d as [|[k0 v0] d IH]; simpl; intro H; [discriminate|].
  destruct (String.eqb k k0) eqn:Hk.
  - now injection H as ->.
  - now rewrite IH.
Qed.

End DictFacts.

(** ** The budget *)

Lemma hits_cons f flags : hits (f :: flags) = (b2n f + hits flags)%nat.
Proof. unfold hits. simpl. destruct f; reflexivity. Qed.

Lemma hits_app a b : hits (a ++ b) = (hits a + hits b)%nat.
Proof. unfold hits. now rewrite filter_app, length_app. Qed.

Lemma visited_short : forall flags n,
  (hits flags < n)%nat -> visited n flags = List.length flags.
Proof.
  induction flags as [|f flags IH]; intros n H; [reflexivity|].
  rewrite hits_cons in H. simpl. f_equal. destruct f; simpl in H.
  - destruct n as [|[|k]]; try lia. apply IH. lia.
  - apply IH. lia.
Qed.

Lemma visited_le : forall flags n, (visited n flags <= List.length flags)%nat.
Proof.
  induction flags as [|f flags IH]; intro n; simpl; [lia|].
  destruct f; [destruct n as [|[|k]]|]; try specialize (IH (S k));
    try specialize (IH n); lia.
Qed.


Lemma visited_app : forall a b n,
  (1 <= n)%nat ->
  visited n (a ++ b)
  = if (n <=? hits a)%nat then visited n a
    else (List.length a + visited (n - hits a) b)%nat.
Proof.
  induction a as [|f a IH]; intros b n H.
  - simpl. unfold hits. simpl. destruct (n <=? 0)%nat eqn:Hn.
    + apply Nat.leb_le in Hn. lia.
    + now rewrite Nat.sub_0_r.
  - rewrite hits_cons. cbn [app visited List.length]. destruct f; cbn [b2n].
    + destruct n as [|[|k]]; [lia|reflexivity|].
      rewrite IH by lia.
      destruct (Nat.leb_spec (S k) (hits a)),
               (Nat.leb_spec (S (S k)) (1 + hits a)); try lia.
      replace (S (S k) - (1 + hits a))%nat with (S k - hits a)%nat by lia.
      reflexivity.
    + rewrite IH by lia. cbn [Nat.add].
      destruct (n <=? hits a)%nat; reflexivity.
Qed.

(** ** Loops of the replacing kind *)

Section HitLoop.
Variable A : Type.
Variable limit : Z.
Variable hit : A -> bool.
Variable update : A -> A.

Let step := hit_step limit hit update.

(** The counters after the loop, whatever the limit. *)
Lemma hit_loop_fixed : forall xs st,
  let res := loop_result step xs st in
  let m := List.length (filter hit (firstn (loop_visited step xs st) xs)) in
  FixIpoWebpages.fixed (snd res) = (FixIpoWebpages.fixed st + m)%nat
  /\ FixIpoWebpages.total_fixed (snd res) = (FixIpoWebpages.total_fixed st + m)%nat.
Proof.
  induction xs as [|x xs IH]; intro st; cbn zeta.
  - simpl. lia.
  - cbn [loop_result loop_visited]. unfold step at 1 3 5 7, hit_step.
    destruct (hit x) eqn:Hx.
    + unfold FixIpoWebpages.count_fix.
      destruct (negb (limit =? 0)%Z);
        [destruct (FixIpoWebpages.limit_remaining st - 1 <=? 0)%Z|].
      * cbn. rewrite Hx. cbn. lia.
      * specialize (IH (FixIpoWebpages.mkLocals (S (FixIpoWebpages.fixed st))
                           (S (FixIpoWebpages.total_fixed st))
                           (FixIpoWebpages.limit_remaining st - 1))).
        cbn zeta in IH. fold step.
        destruct (loop_result step xs _) as [rest' st''].
        cbn [snd firstn filter FixIpoWebpages.fixed FixIpoWebpages.total_fixed
             FixIpoWebpages.limit_remaining] in *. rewrite Hx. cbn [List.length]. lia.
      * specialize (IH (FixIpoWebpages.mkLocals (S (FixIpoWebpages.fixed st))
                           (S (FixIpoWebpages.total_fixed st))
                           (FixIpoWebpages.limit_remaining st))).
        cbn zeta in IH. fold step.
        destruct (loop_result step xs _) as [rest' st''].
        cbn [snd firstn filter FixIpoWebpages.fixed FixIpoWebpages.total_fixed
             FixIpoWebpages.limit_remaining] in *. rewrite Hx. cbn [List.length]. lia.
    + specialize (IH st). cbn zeta in IH. fold step.
      destruct (loop_result step xs st) as [rest' st''].
      cbn [snd firstn filter FixIpoWebpages.fixed FixIpoWebpages.total_fixed
             FixIpoWebpages.limit_remaining] in *. rewrite Hx. lia.
Qed.

(** The items after the loop: each one as it was or updated. *)
Lemma hit_loop_items (R : A -> A -> Prop) :
  (forall x, R x x) -> (forall x, hit x = true -> R x (update x)) ->
  forall xs st, Forall2 R xs (fst (loop_result step xs st)).
Proof.
  intros Hrefl Hupd. induction xs as [|x xs IH]; intro st; [constructor|].
  cbn [loop_result]. unfold step at 1, hit_step.
  assert (Hxs : Forall2 R xs xs) by (clear - Hrefl; induction xs; constructor; auto).
  destruct (hit x) eqn:Hx.
  - destruct (FixIpoWebpages.count_fix limit st) as [st' c].
    destruct c.
    + specialize (IH st'). fold step.
      destruct (loop_result step xs st') as [rest' st''].
      constructor; auto.
    + constructor; auto.
  - specialize (IH st). fold step.
    destruct (loop_result step xs st) as [rest' st''].
    constructor; auto.
Qed.

(** With a budget of [n >= 1] left. *)
Lemma hit_loop_budget : limit <> 0%Z -> forall xs st n,
  FixIpoWebpages.limit_remaining st = Z.of_nat n -> (1 <= n)%nat ->
  let res := loop_result step xs st in
  let m := Nat.min n (hits (map hit xs)) in
  loop_visited step xs st = visited n (map hit xs)
  /\ List.length (filter hit (firstn (loop_visited step xs st) xs)) = m
  /\ FixIpoWebpages.limit_remaining (snd res) = Z.of_nat (n - m).
Proof.
  intro Hlimit. apply Z.eqb_neq in Hlimit.
  induction xs as [|x xs IH]; intros st n Hn H1; cbn zeta.
  - cbn. rewrite Nat.min_0_r, Nat.sub_0_r. auto.
  - cbn [loop_result loop_visited map visited]. rewrite hits_cons.
    unfold step at 1 3 5, hit_step.
    destruct (hit x) eqn:Hx; cbn [b2n].
    + unfold FixIpoWebpages.count_fix. rewrite Hlimit. cbn [negb].
      rewrite Hn.
      destruct n as [|[|k]]; [lia| |].
      * (* the budget is used up here *)
        replace (Z.of_nat 1 - 1 <=? 0)%Z with true
          by (symmetry; apply Z.leb_le; lia).
        cbn. rewrite Hx. cbn. repeat split.
      * replace (Z.of_nat (S (S k)) - 1 <=? 0)%Z with false
          by (symmetry; apply Z.leb_gt; lia).
        specialize (IH (FixIpoWebpages.mkLocals (S (FixIpoWebpages.fixed st))
                           (S (FixIpoWebpages.total_fixed st))
                           (Z.of_nat (S (S k)) - 1)) (S k)).
        cbn zeta in IH. destruct IH as (Hv & Hm & Hl);
          [cbn [FixIpoWebpages.limit_remaining]; lia | lia |].
        fold step. fold step in Hv, Hm, Hl.
        destruct (loop_result step xs _) as [rest' st''].
        cbn [snd firstn filter FixIpoWebpages.fixed FixIpoWebpages.total_fixed
             FixIpoWebpages.limit_remaining] in *. rewrite Hx. cbn [List.length].
        rewrite Hv. split; [reflexivity|]. rewrite <- Hv, Hm, Hl.
        split; lia.
    + specialize (IH st n Hn H1). cbn zeta in IH.
      destruct IH as (Hv & Hm & Hl).
      fold step. fold step in Hv, Hm, Hl.
      destruct (loop_result step xs st) as [rest' st''].
      cbn [snd firstn filter FixIpoWebpages.fixed FixIpoWebpages.total_fixed
             FixIpoWebpages.limit_remaining] in *. rewrite Hx.
      rewrite Hv. split; [reflexivity|]. rewrite <- Hv, Hm, Hl.
      split; reflexivity.
Qed.

(** The items after the loop: those the loop got to, each replaced when
    it is selected, then the others as they were. *)
Lemma hit_loop_result : forall xs st,
  let v := loop_visited step xs st in
  fst (loop_result step xs st)
  = map (fun x => if hit x then update x else x) (firstn v xs) ++ skipn v xs.
Proof.
  induction xs as [|x xs IH]; intro st; [reflexivity|].
  cbn zeta. cbn [loop_result loop_visited].
  assert (Hstep : step x st
                  = if hit x
                    then let (st', c) := FixIpoWebpages.count_fix limit st in
                         (update x, st', c)
                    else (x, st, Next)) by reflexivity.
  rewrite Hstep. clear Hstep.
  destruct (hit x) eqn:Hx.
  - destruct (FixIpoWebpages.count_fix limit st) as [st' c].
    destruct c.
    + specialize (IH st'). cbn zeta in IH.
      destruct (loop_result step xs st') as [rest' st''].
      cbn [fst firstn skipn map app] in *. now rewrite Hx, IH.
    + cbn [fst firstn skipn map app]. now rewrite Hx.
  - specialize (IH st). cbn zeta in IH.
    destruct (loop_result step xs st) as [rest' st''].
    cbn [fst firstn skipn map app] in *. now rewrite Hx, IH.
Qed.

(** A loop that replaced something holds the replacement at the place
    of a selected item. *)
Lemma hit_loop_nth : forall xs st,
  (0 < List.length (filter hit (firstn (loop_visited step xs st) xs)))%nat ->
  exists i x,
    nth_error xs i = Some x /\ hit x = true
    /\ nth_error (fst (loop_result step xs st)) i = Some (update x).
Proof.
  induction xs as [|x xs IH]; intros st H; [cbn in H; lia|].
  cbn [loop_result loop_visited] in *.
  assert (Hstep : step x st
                  = if hit x
                    then let (st', c) := FixIpoWebpages.count_fix limit st in
                         (update x, st', c)
                    else (x, st, Next)) by reflexivity.
  rewrite Hstep in *. clear Hstep.
  destruct (hit x) eqn:Hx.
  - exists 0%nat, x. split; [reflexivity|]. split; [assumption|].
    destruct (FixIpoWebpages.count_fix limit st) as [st' c].
    destruct c; [|reflexivity].
    now destruct (loop_result step xs st').
  - cbn [firstn filter] in H. rewrite Hx in H.
    destruct (IH st H) as (i & y & Hn & Hy & Hr).
    exists (S i), y. split; [assumption|]. split; [assumption|].
    destruct (loop_result step xs st). exact Hr.
Qed.
End HitLoop.

(** Without a budget the loop gets to every item. *)
Lemma hit_loop_unlimited {A} (hit : A -> bool) (update : A -> A) : forall xs st,
  loop_result (hit_step 0 hit update) xs st
  = (map (fun x => if hit x then update x else x) xs,
     FixIpoWebpages.mkLocals
       (FixIpoWebpages.fixed st + List.length (filter hit xs))
       (FixIpoWebpages.total_fixed st + List.length (filter hit xs))
       (FixIpoWebpages.limit_remaining st))
  /\ loop_visited (hit_step 0 hit update) xs st = List.length xs.
Proof.
  induction xs as [|x xs IH]; intro st.
  - cbn. rewrite !Nat.add_0_r. destruct st; split; reflexivity.
  - cbn [loop_result loop_visited map filter List.length].
    unfold hit_step at 1 3. destruct (hit x) eqn:Hx.
    + unfold FixIpoWebpages.count_fix. cbn [Z.eqb negb].
      destruct (IH (FixIpoWebpages.mkLocals (S (FixIpoWebpages.fixed st))
                      (S (FixIpoWebpages.total_fixed st))
                      (FixIpoWebpages.limit_remaining st))) as [-> ->].
      cbn [FixIpoWebpages.fixed FixIpoWebpages.total_fixed
           FixIpoWebpages.limit_remaining List.length].
      split; [|reflexivity]. f_equal. f_equal; lia.
    + destruct (IH st) as [-> ->]. split; reflexivity.
Qed.

Lemma map_no_hit {A} (hit : A -> bool) (update : A -> A) xs :
  List.length (filter hit xs) = 0%nat ->
  map (fun x => if hit x then update x else x) xs = xs.
Proof.
  induction xs as [|x xs IH]; [reflexivity|]. cbn [filter map].
  destruct (hit x); cbn [List.length]; [discriminate|].
  intro H. now rewrite IH.
Qed.

Lemma hits_map_filter {A} (hit : A -> bool) xs :
  hits (map hit xs) = List.length (filter hit xs).
Proof.
  induction xs as [|x xs IH]; [reflexivity|].
  cbn [map filter]. rewrite hits_cons, IH. destruct (hit x); reflexivity.
Qed.

(** ** Writes in a trace *)

Lemma writes_app a b : writes (a ++ b) = writes a ++ writes b.
Proof.
  induction a as [|ev a IH]; [reflexivity|].
  destruct ev; simpl; rewrite IH; reflexivity.
Qed.

Lemma writes_quiet evs : count is_file_event evs = 0%nat -> writes evs = [].
Proof.
  induction evs as [|ev evs IH]; [reflexivity|].
  rewrite count_cons. destruct ev; simpl; intro H; try discriminate H; now apply IH.
Qed.

Lemma In_writes name evs : In (EvWrite name) evs <-> In name (writes evs).
Proof.
  induction evs as [|ev evs IH]; [reflexivity|].
  destruct ev; simpl; rewrite <- IH; split;
    try (intros [H|H]; [discriminate H | assumption]); try tauto.
  - intros [[= ->]|H]; auto.
  - intros [->|H]; auto.
Qed.

(** ** One CSV file *)

(** What [csv_file] does, case by case: the file is skipped; or its rows
    are gone through, and then a row without a name ends the run, or the
    loop over the files is left, or nothing was replaced, or the table
    is written. *)
Lemma csv_file_cases E limit name st w :
  exists o w' evs,
    FixIpoWebpages.csv_file E limit name st w = (o, w')
    /\ trace w' = trace w ++ evs
    /\ json_file w' = json_file w
    /\ ((csv_files w' = csv_files w
         /\ o = Returns (st, Next)
         /\ count is_record evs = 0%nat /\ count is_replaced evs = 0%nat
         /\ writes evs = []
         /\ csv_flags E (csv_files w name) = [])
        \/ exists t fn,
            csv_files w name = Some t /\ fieldnames t = Some fn
            /\ mem "webpage" fn = true
            /\ let res := loop_result (csv_step E limit) (rows t)
                            (FixIpoWebpages.mkLocals 0 (fst st) (snd st)) in
               let l := snd res in
               let st' := (FixIpoWebpages.total_fixed l,
                           FixIpoWebpages.limit_remaining l) in
               let seen := firstn (loop_visited (csv_step E limit) (rows t)
                                     (FixIpoWebpages.mkLocals 0 (fst st) (snd st)))
                                  (rows t) in
               ((* a row whose name or country cannot be stripped *)
                (forallb typed_row seen = false
                 /\ o = Raises AttributeError
                 /\ csv_files w' = csv_files w /\ writes evs = [])
                \/ (forallb typed_row seen = true
                    /\ count is_record evs = List.length seen
                    /\ count is_replaced evs = List.length (filter (csv_hit E) seen)
                    /\ (((FixIpoWebpages.limit_remaining l <=? 0)%Z
                          && negb (limit =? 0)%Z = true
                         /\ o = Returns (st', Break)
                         /\ csv_files w' = csv_files w /\ writes evs = [])
                        \/ ((FixIpoWebpages.limit_remaining l <=? 0)%Z
                             && negb (limit =? 0)%Z = false
                            /\ FixIpoWebpages.fixed l = 0%nat
                            /\ o = Returns (st', Next)
                            /\ csv_files w' = csv_files w /\ writes evs = [])
                        \/ ((FixIpoWebpages.limit_remaining l <=? 0)%Z
                             && negb (limit =? 0)%Z = false
                            /\ (0 < FixIpoWebpages.fixed l)%nat
                            /\ writes evs = [name]
                            /\ csv_files w'
                               = (fun p => if String.eqb p name
                                           then Some (mkCsv (Some fn)
                                                        (fst (writerows fn (fst res))))
                                           else csv_files w p)
                            /\ o = if snd (writerows fn (fst res))
                                   then Returns (st', Next)
                                   else Raises ValueError))))).
Proof.
  unfold FixIpoWebpages.csv_file, csv_exists, read_csv.
  destruct (csv_files w name) as [t|] eqn:Ht.
  2:{ exists (Returns (st, Next)), w, []. split; [|split; [|split]].
      - unfold bind. rewrite Ht. reflexivity.
      - now rewrite app_nil_r.
      - reflexivity.
      - left. repeat split. }
  fold (header t).
  destruct (mem "webpage" (header t)) eqn:Hcol.
  2:{ exists (Returns (st, Next)),
             (add_events [EvRead name; EvPrint (LNoWebpageColumn name)] w),
             [EvRead name; EvPrint (LNoWebpageColumn name)].
      split; [|split; [|split]].
      - cbv [bind emit print ret]. rewrite Ht. cbn [negb csv_files]. rewrite Ht.
        fold (header t). rewrite Hcol.
        unfold add_events. cbn. now rewrite <- app_assoc.
      - reflexivity.
      - reflexivity.
      - left. cbn [csv_flags]. rewrite Hcol. repeat split. }
  destruct (fieldnames t) as [fn|] eqn:Hfn;
    [|unfold header in Hcol; rewrite Hfn in Hcol; discriminate Hcol].
  assert (Hcol' : mem "webpage" fn = true)
    by (unfold header in Hcol; now rewrite Hfn in Hcol).
  set (st0 := FixIpoWebpages.mkLocals 0 (fst st) (snd st)).
  destruct (csv_rows_says E limit name (rows t) st0) as (evs & Hs & Q & Hty).
  cbn zeta in Hs, Hty.
  pose proof (writes_quiet _ Q) as Wq.
  destruct (forallb typed_row
              (firstn (loop_visited (csv_step E limit) (rows t) st0) (rows t)))
    eqn:Hall.
  2:{ (* a row that cannot be named *)
      eexists _, _, (EvRead name :: evs). split; [|split; [|split]].
      - unfold bind at 1 2 3, emit. rewrite Ht. cbn [negb csv_files]. rewrite Ht.
        rewrite Hfn, Hcol'. cbn [negb]. fold st0.
        unfold bind. rewrite Hs. reflexivity.
      - unfold add_events. cbn. now rewrite <- app_assoc.
      - reflexivity.
      - right. exists t, fn.
        do 3 (split; [first [assumption | reflexivity]|]).
        cbn zeta. fold st0. left. rewrite Hall.
        repeat split; try assumption. }
  destruct (Hty eq_refl) as (R & _ & P).
  destruct (loop_result (csv_step E limit) (rows t) st0) as [rs l] eqn:Hres.
  destruct ((FixIpoWebpages.limit_remaining l <=? 0)%Z && negb (limit =? 0)%Z) eqn:Hbrk.
  { (* the budget is used up: leave the loop over the files *)
    eexists _, _, (EvRead name :: evs). split; [|split; [|split]].
    - unfold bind at 1 2 3, emit. rewrite Ht. cbn [negb csv_files]. rewrite Ht.
      rewrite Hfn, Hcol'. cbn [negb]. fold st0.
      unfold bind. rewrite Hs. rewrite Hbrk. unfold ret. reflexivity.
    - unfold add_events. cbn. now rewrite <- app_assoc.
    - reflexivity.
    - right. exists t, fn.
      do 3 (split; [first [assumption | reflexivity]|]).
      cbn zeta. fold st0. rewrite Hres. cbn [snd fst]. right. rewrite Hall.
      rewrite !count_cons, R, P. cbn [is_record is_replaced b2n Nat.add].
      split; [reflexivity|]. split; [reflexivity|]. split; [reflexivity|].
      left. repeat split; try assumption. }
  destruct (0 <? FixIpoWebpages.fixed l)%nat eqn:Hfix.
  2:{ (* nothing replaced: no write *)
      eexists _, _, (EvRead name :: evs). split; [|split; [|split]].
      - unfold bind at 1 2 3, emit. rewrite Ht. cbn [negb csv_files]. rewrite Ht.
        rewrite Hfn, Hcol'. cbn [negb]. fold st0.
        unfold bind. rewrite Hs. rewrite Hbrk, Hfix. unfold ret.
        reflexivity.
      - unfold add_events. cbn. now rewrite <- app_assoc.
      - reflexivity.
      - right. exists t, fn.
        do 3 (split; [first [assumption | reflexivity]|]).
        cbn zeta. fold st0. rewrite Hres. cbn [snd fst]. right. rewrite Hall.
        rewrite !count_cons, R, P. cbn [is_record is_replaced b2n Nat.add].
        split; [reflexivity|]. split; [reflexivity|]. split; [reflexivity|].
        right. left. apply Nat.ltb_ge in Hfix.
        repeat split; try assumption; try lia. }
  (* the table is written *)
  apply Nat.ltb_lt in Hfix.
  destruct (writerows fn rs) as [ws ok] eqn:Hw.
  destruct ok.
  - eexists _, _, (EvRead name :: evs
                     ++ [EvWrite name; EvPrint (LSavedCsv name (FixIpoWebpages.fixed l))]).
    split; [|split; [|split]].
    + unfold bind at 1 2 3, emit. rewrite Ht. cbn [negb csv_files]. rewrite Ht.
      rewrite Hfn, Hcol'. cbn [negb]. fold st0.
      unfold bind at 1. rewrite Hs. rewrite Hbrk.
      apply Nat.ltb_lt in Hfix. rewrite Hfix.
      unfold write_csv, bind, emit, print. rewrite Hw. cbn. reflexivity.
    + unfold add_events. cbn. rewrite <- !app_assoc. reflexivity.
    + reflexivity.
    + right. exists t, fn.
      do 3 (split; [first [assumption | reflexivity]|]).
      cbn zeta. fold st0. rewrite Hres. cbn [snd fst]. right. rewrite Hall.
      rewrite !count_cons, !count_app, R, P.
      cbn [is_record is_replaced b2n Nat.add count filter List.length].
      split; [reflexivity|]. split; [lia|]. split; [lia|].
      right. right. rewrite Hw. cbn [fst snd].
      repeat split; try assumption.
      cbn [writes]. rewrite writes_app, Wq. reflexivity.
  - eexists _, _, (EvRead name :: evs ++ [EvWrite name]).
    split; [|split; [|split]].
    + unfold bind at 1 2 3, emit. rewrite Ht. cbn [negb csv_files]. rewrite Ht.
      rewrite Hfn, Hcol'. cbn [negb]. fold st0.
      unfold bind at 1. rewrite Hs. rewrite Hbrk.
      apply Nat.ltb_lt in Hfix. rewrite Hfix.
      unfold write_csv, bind, emit, print. rewrite Hw. cbn. reflexivity.
    + unfold add_events. cbn. rewrite <- !app_assoc. reflexivity.
    + reflexivity.
    + right. exists t, fn.
      do 3 (split; [first [assumption | reflexivity]|]).
      cbn zeta. fold st0. rewrite Hres. cbn [snd fst]. right. rewrite Hall.
      rewrite !count_cons, !count_app, R, P.
      cbn [is_record is_replaced b2n Nat.add count filter List.length].
      split; [reflexivity|]. split; [lia|]. split; [lia|].
      right. right. rewrite Hw. cbn [fst snd].
      repeat split; try assumption.
      cbn [writes]. rewrite writes_app, Wq. reflexivity.
Qed.

(** ** Well-formed tables and what is written back *)

Lemma mem_In k l : mem k l = true <-> In k l.
Proof.
  unfold mem. rewrite existsb_exists. split.
  - intros (x & Hx & He). apply String.eqb_eq in He. now subst.
  - intro H. exists k. split; [assumption | apply String.eqb_refl].
Qed.

Lemma list_eqb_eq a b : list_eqb a b = true <-> a = b.
Proof.
  unfold list_eqb. destruct (list_eq_dec string_dec a b); split; congruence.
Qed.

Lemma dict_set_absent {V} k (v : V) (d : dict V) :
  dict_get k d = None -> dict_set k v d = d ++ [(k, v)].
Proof.
  induction d as [|[k0 v0] d IH]; simpl; intro H; [reflexivity|].
  destruct (String.eqb k k0); [discriminate|]. f_equal. now apply IH.
Qed.

Lemma dict_get_app {V} k (d1 d2 : dict V) :
  dict_get k (d1 ++ d2)
  = match dict_get k d1 with Some v => Some v | None => dict_get k d2 end.
Proof.
  induction d1 as [|[k0 v0] d1 IH]; simpl; [reflexivity|].
  destruct (String.eqb k k0); [reflexivity | apply IH].
Qed.

Lemma zip_dict_fresh : forall fn line d,
  nodupb fn = true ->
  (forall k, In k fn -> dict_get k d = None) ->
  List.length line = List.length fn ->
  zip_dict fn line d
  = d ++ map (fun kc => (fst kc, Some (snd kc))) (combine fn line).
Proof.
  induction fn as [|k fn IH]; intros line d Hn Hd Hl.
  - destruct line; [|discriminate Hl]. cbn. now rewrite app_nil_r.
  - destruct line as [|c line]; [discriminate Hl|].
    cbn [nodupb] in Hn. apply andb_true_iff in Hn. destruct Hn as [Hk Hn].
    cbn [zip_dict combine map fst snd].
    rewrite dict_set_absent by (apply Hd; now left).
    rewrite IH; [now rewrite <- app_assoc | assumption | | now injection Hl].
    intros k' Hin. rewrite dict_get_app, (Hd k') by now right.
    cbn [dict_get]. destruct (String.eqb k' k) eqn:He; [|reflexivity].
    apply String.eqb_eq in He. subst k'. apply mem_In in Hin.
    rewrite Hin in Hk. discriminate Hk.
Qed.

(** A line of the right length is read as the row of its cells. *)
Lemma read_row_full fn line :
  nodupb fn = true -> List.length line = List.length fn ->
  read_row fn line = row_of fn line.
Proof.
  intros Hn Hl. unfold read_row, row_of.
  rewrite Hl, skipn_all, <- Hl, skipn_all. cbn [pad].
  now rewrite zip_dict_fresh.
Qed.

Lemma csv_wf_inv t fn :
  csv_wf t = true -> fieldnames t = Some fn ->
  nodupb fn = true
  /\ Forall (fun l => List.length l = List.length fn) (lines t)
  /\ rows t = map (row_of fn) (lines t).
Proof.
  unfold csv_wf, rows. intros H Hfn. rewrite Hfn in *.
  apply andb_true_iff in H. destruct H as [Hn Hr].
  split; [assumption|].
  induction (lines t) as [|l ls IH]; [repeat split; constructor|].
  cbn [forallb] in Hr. apply andb_true_iff in Hr. destruct Hr as [Hl Hr].
  apply andb_true_iff in Hl. destruct Hl as [Hb Hl]. apply Nat.eqb_eq in Hl.
  destruct (IH Hr) as [F R]. split; [now constructor|].
  cbn [filter]. rewrite Hb. cbn [map]. rewrite R. f_equal.
  now apply read_row_full.
Qed.

Lemma csv_wf_full t fn :
  csv_wf t = true -> fieldnames t = Some fn -> Forall (full fn) (rows t).
Proof.
  intros Hwf Hfn. destruct (csv_wf_inv t Hwf Hfn) as (_ & F & ->).
  induction F as [|l ls Hl _ IH]; constructor; [|assumption].
  now exists l.
Qed.

(** *** Rows of full lines *)

Lemma row_get_row_of_head k fn c line :
  row_get k (row_of (k :: fn) (c :: line)) = Some c.
Proof.
  unfold row_get, row_of. cbn. now rewrite String.eqb_refl.
Qed.

Lemma row_get_row_of_tail k k' fn c line :
  k' <> k -> row_get k' (row_of (k :: fn) (c :: line)) = row_get k' (row_of fn line).
Proof.
  intro H. unfold row_get, row_of. cbn.
  destruct (String.eqb k' k) eqn:He; [|reflexivity].
  apply String.eqb_eq in He. contradiction.
Qed.

Lemma written_row_of : forall fn line,
  nodupb fn = true -> List.length line = List.length fn ->
  written_row fn (row_of fn line) = line.
Proof.
  induction fn as [|k fn IH]; intros line Hn Hl.
  - destruct line; [reflexivity | discriminate Hl].
  - destruct line as [|c line]; [discriminate Hl|].
    cbn [nodupb] in Hn. apply andb_true_iff in Hn. destruct Hn as [Hk Hn].
    unfold written_row. cbn [map]. rewrite row_get_row_of_head. cbn [opt_str].
    f_equal. transitivity (written_row fn (row_of fn line));
      [|apply IH; [assumption | now injection Hl]].
    unfold written_row. apply map_ext_in. intros k' Hin.
    rewrite row_get_row_of_tail; [reflexivity|].
    intros ->. apply mem_In in Hin. rewrite Hin in Hk. discriminate Hk.
Qed.

Lemma keys_row_of : forall fn line,
  List.length line = List.length fn -> keys (cells (row_of fn line)) = fn.
Proof.
  induction fn as [|k fn IH]; intros [|c line] Hl; try discriminate Hl;
    [reflexivity|].
  unfold row_of, keys in *. cbn in *. f_equal. apply IH. now injection Hl.
Qed.

Lemma writable_full fn r : full fn r -> writable fn r = true.
Proof.
  intros (line & Hl & ->). unfold writable. cbn [surplus row_of is_blank andb].
  rewrite (keys_row_of fn line Hl). apply forallb_forall. intros k Hin.
  now apply mem_In.
Qed.

Lemma named_full fn r : full fn r -> csv_named r = true.
Proof.
  intros (line & Hl & ->). unfold csv_named, row_get_or_empty, get_default, row_of.
  cbn [cells].
  assert (H : forall k, match dict_get k (map (fun kc : string * string =>
                                                 (fst kc, Some (snd kc)))
                                            (combine fn line)) with
                        | Some None => False
                        | _ => True
                        end).
  { intro k. induction (combine fn line) as [|[k0 c0] l IH]; cbn; [exact I|].
    destruct (String.eqb k k0); [exact I | exact IH]. }
  pose proof (H "brand_name") as H1. pose proof (H "country") as H2.
  destruct (dict_get "brand_name" _) as [[|]|], (dict_get "country" _) as [[|]|];
    try reflexivity; contradiction.
Qed.

Lemma typed_full fn r : full fn r -> typed_row r = true.
Proof.
  intro H. unfold typed_row. rewrite (named_full H). apply orb_true_r.
Qed.

Lemma set_col_length : forall fn k v line,
  List.length (set_col fn k v line) = List.length line.
Proof.
  induction fn as [|k' fn IH]; intros k v [|c line]; try reflexivity.
  cbn [set_col]. destruct (String.eqb k k'); cbn; [reflexivity|].
  now rewrite IH.
Qed.

Lemma set_cell_row_of : forall fn k v line,
  mem k fn = true -> List.length line = List.length fn ->
  set_cell k v (row_of fn line) = row_of fn (set_col fn k v line).
Proof.
  unfold set_cell, row_of. cbn [cells surplus].
  induction fn as [|k' fn IH]; intros k v line Hm Hl; [discriminate Hm|].
  destruct line as [|c line]; [discriminate Hl|].
  cbn [combine map fst snd dict_set set_col].
  cbn [mem existsb] in Hm.
  destruct (String.eqb k k') eqn:He.
  - cbn [combine map fst snd]. reflexivity.
  - cbn [orb] in Hm. cbn [combine map fst snd].
    assert (H := IH k v line Hm ltac:(now injection Hl)).
    injection H as H. now rewrite H.
Qed.

Lemma csv_hit_webpage E r :
  csv_hit E r = true -> dict_get "webpage" (cells r) <> None.
Proof.
  unfold csv_hit, claimed_eligible, csv_url, row_get. intros H Hnone.
  rewrite Hnone in H. discriminate H.
Qed.

Lemma dict_get_mem {V} k (d : dict V) : dict_get k d <> None -> mem k (keys d) = true.
Proof.
  induction d as [|[k0 v0] d IH]; cbn; [congruence|].
  destruct (String.eqb k k0); [reflexivity | exact IH].
Qed.

Lemma csv_update_full E fn r :
  csv_hit E r = true -> full fn r -> full fn (csv_update E r).
Proof.
  intros Hh (line & Hl & ->). unfold csv_update.
  pose proof (dict_get_mem _ _ (csv_hit_webpage E _ Hh)) as Hm.
  rewrite (keys_row_of fn line Hl) in Hm.
  rewrite set_cell_row_of by assumption.
  eexists. split; [|reflexivity]. now rewrite set_col_length.
Qed.

Lemma csv_frame_refl r : csv_frame r r.
Proof. repeat split. Qed.

Lemma Forall2_refl {A} (R : A -> A -> Prop) :
  (forall a, R a a) -> forall l, Forall2 R l l.
Proof. intros HR. induction l; constructor; auto. Qed.

Lemma csv_update_frame E r : csv_hit E r = true -> csv_frame r (csv_update E r).
Proof.
  intro H. unfold csv_update, set_cell. cbn [cells surplus]. split; [|split].
  - apply keys_set_present. now apply csv_hit_webpage with E.
  - reflexivity.
  - intros k Hk. now apply dict_get_set_other.
Qed.

Lemma csv_rows_frame E limit rs st :
  Forall2 csv_frame rs (fst (loop_result (csv_step E limit) rs st)).
Proof.
  apply hit_loop_items; [apply csv_frame_refl | apply csv_update_frame].
Qed.

Lemma csv_rows_full E limit fn rs st :
  Forall (full fn) rs ->
  Forall (full fn) (fst (loop_result (csv_step E limit) rs st)).
Proof.
  intro F.
  assert (H : Forall2 (fun r r' => full fn r -> full fn r') rs
                      (fst (loop_result (csv_step E limit) rs st))).
  { apply hit_loop_items; [auto|]. intros r Hh. now apply csv_update_full. }
  induction H as [|r r' rs rs' H1 _ IH]; [constructor|].
  inversion F; subst. constructor; auto.
Qed.

(** What [DictWriter] writes for rows of full lines, and what
    [DictReader] reads back. *)
Lemma writerows_full fn : forall rs,
  Forall (full fn) rs -> writerows fn rs = (map (written_row fn) rs, true).
Proof.
  induction 1 as [|r rs Hr _ IH]; [reflexivity|].
  cbn [writerows map]. now rewrite (writable_full Hr), IH.
Qed.

Lemma rows_written fn : nodupb fn = true -> fn <> [] -> forall rs,
  Forall (full fn) rs ->
  rows (mkCsv (Some fn) (map (written_row fn) rs)) = rs.
Proof.
  intros Hn Hne. unfold rows. cbn [fieldnames lines].
  induction 1 as [|r rs (line & Hl & ->) _ IH]; [reflexivity|].
  cbn [map filter]. rewrite (written_row_of fn line Hn Hl).
  destruct line as [|c line]; [destruct fn; [contradiction | discriminate Hl]|].
  cbn [is_blank negb map]. rewrite IH. f_equal. now apply read_row_full.
Qed.

Lemma lines_written fn ls :
  nodupb fn = true -> Forall (fun l => List.length l = List.length fn) ls ->
  map (written_row fn) (map (row_of fn) ls) = ls.
Proof.
  intros Hn F. induction F as [|l ls Hl _ IH]; [reflexivity|].
  cbn [map]. now rewrite written_row_of, IH.
Qed.

(** *** Rows of any line *)

Lemma keys_dict_set {V} k (v : V) (d : dict V) k' :
  In k' (keys (dict_set k v d)) -> k' = k \/ In k' (keys d).
Proof.
  induction d as [|[k0 v0] d IH]; cbn.
  - intros [<-|[]]. now left.
  - destruct (String.eqb k k0) eqn:He; cbn.
    + intros [<-|H]; right; [now left | now right].
    + intros [<-|H]; [right; now left|].
      destruct (IH H) as [->|H']; [now left | right; now right].
Qed.

Lemma keys_zip_dict : forall fn line d k,
  In k (keys (zip_dict fn line d)) -> In k fn \/ In k (keys d).
Proof.
  induction fn as [|k0 fn IH]; intros line d k H; [now right|].
  destruct line as [|c line]; [now right|].
  cbn [zip_dict] in H. destruct (IH _ _ _ H) as [H1|H1]; [left; now right|].
  destruct (keys_dict_set _ _ _ _ H1) as [->|H2]; [left; now left | now right].
Qed.

Lemma keys_pad : forall missing d k,
  In k (keys (pad missing d)) -> In k missing \/ In k (keys d).
Proof.
  induction missing as [|k0 missing IH]; intros d k H; [now right|].
  cbn [pad] in H. destruct (IH _ _ H) as [H1|H1]; [left; now right|].
  destruct (keys_dict_set _ _ _ _ H1) as [->|H2]; [left; now left | now right].
Qed.

Lemma In_skipn {A} (x : A) : forall n l, In x (skipn n l) -> In x l.
Proof.
  induction n as [|n IH]; intros [|y l] H; cbn in *; auto.
Qed.

Lemma keys_read_row fn line :
  forallb (fun k => mem k fn) (keys (cells (read_row fn line))) = true.
Proof.
  apply forallb_forall. intros k H. apply mem_In. unfold read_row in H.
  cbn [cells] in H. destruct (keys_pad _ _ _ H) as [H1|H1].
  - eapply In_skipn; eassumption.
  - destruct (keys_zip_dict _ _ _ _ H1) as [H2|[]]. assumption.
Qed.

Lemma rows_keys t fn :
  fieldnames t = Some fn ->
  Forall (fun r => forallb (fun k => mem k fn) (keys (cells r)) = true) (rows t).
Proof.
  intro Hfn. unfold rows. rewrite Hfn. apply Forall_forall. intros r Hin.
  apply in_map_iff in Hin. destruct Hin as (l & <- & _). apply keys_read_row.
Qed.

Lemma writerows_writable fn : forall rs,
  forallb (writable fn) rs = true ->
  writerows fn rs = (map (written_row fn) rs, true).
Proof.
  induction rs as [|r rs IH]; [reflexivity|].
  cbn [forallb writerows map]. intro H. apply andb_true_iff in H.
  destruct H as [Hr Hrs]. now rewrite Hr, IH.
Qed.

Lemma frame_writable fn r r' :
  csv_frame r r' -> writable fn r = true -> writable fn r' = true.
Proof.
  intros (K & S & _). unfold writable. now rewrite K, S.
Qed.

(** When no line is longer than the header, every row the loop leaves
    can be written. *)
Lemma loop_writable E limit t fn st :
  fieldnames t = Some fn ->
  forallb (fun r => is_blank (surplus r)) (rows t) = true ->
  forallb (writable fn) (fst (loop_result (csv_step E limit) (rows t) st)) = true.
Proof.
  intros Hfn Hs.
  pose proof (rows_keys t Hfn) as Hk.
  pose proof (csv_rows_frame E limit (rows t) st) as Hfr.
  rewrite forallb_forall in Hs. rewrite Forall_forall in Hk.
  assert (Hw : Forall (fun r => writable fn r = true) (rows t)).
  { apply Forall_forall. intros r Hin. unfold writable.
    now rewrite (Hs r Hin), (Hk r Hin). }
  clear Hs Hk. apply forallb_forall. apply Forall_forall.
  induction Hfr as [|r r' rs rs' H1 _ IH]; [constructor|].
  inversion Hw; subst. constructor; [|auto].
  eapply frame_writable; eassumption.
Qed.

Lemma In_firstn {A} (x : A) : forall n l, In x (firstn n l) -> In x l.
Proof.
  induction n as [|n IH]; intros [|a l] H; simpl in *; try contradiction.
  destruct H; [now left | right; auto].
Qed.

Lemma forallb_firstn {A} (p : A -> bool) n l :
  forallb p l = true -> forallb p (firstn n l) = true.
Proof.
  rewrite !forallb_forall. intros H x Hin. apply H. eapply In_firstn; eassumption.
Qed.

(** The rows of a well-formed table are typed: the body raises on
    none. *)
Lemma csv_wf_typed t n :
  csv_wf t = true -> forallb typed_row (firstn n (rows t)) = true.
Proof.
  intro Hwf. apply forallb_firstn. apply forallb_forall.
  destruct (fieldnames t) as [fn|] eqn:Hfn.
  - pose proof (csv_wf_full t Hwf Hfn) as F. rewrite Forall_forall in F.
    intros r Hin. eapply typed_full. now apply F.
  - unfold rows. rewrite Hfn. intros r [].
Qed.

(** For a well-formed table, what [DictWriter] writes is read back as
    the rows the loop leaves. *)
Lemma write_back_id E limit t fn st :
  csv_wf t = true -> fieldnames t = Some fn ->
  let rs := fst (loop_result (csv_step E limit) (rows t) st) in
  writerows fn rs = (map (written_row fn) rs, true)
  /\ Forall (full fn) rs
  /\ (fn <> [] -> rows (mkCsv (Some fn) (map (written_row fn) rs)) = rs).
Proof.
  intros Hwf Hfn rs. destruct (csv_wf_inv t Hwf Hfn) as (Hn & _ & _).
  assert (F : Forall (full fn) rs)
    by (apply csv_rows_full; now apply csv_wf_full).
  split; [now apply writerows_full|]. split; [assumption|].
  intro Hne. now apply rows_written.
Qed.

(** ** The JSON part of the classification pass *)

Lemma get_companies_says data :
  says (get_companies data)
       (match data with
        | VDict d =>
            match items_of (get_default "companies" (VList []) d) with
            | Some items => Returns (d, items)
            | None => Raises TypeError
            end
        | _ => Raises AttributeError
        end) [].
Proof.
  intro w. rewrite add_events_nil. unfold get_companies.
  destruct data as [ | | | | | |d]; try reflexivity.
  cbv [bind as_dict ret].
  destruct (get_default "companies" (VList []) d); reflexivity.
Qed.

(** What [json_part] does, case by case. *)
Lemma json_part_cases E limit st w :
  exists o w' evs,
    FixIpoWebpages.json_part E limit st w = (o, w')
    /\ trace w' = trace w ++ evs
    /\ csv_files w' = csv_files w
    /\ ((* the file is not opened *)
        (o = Returns (fst st) /\ evs = [] /\ json_file w' = json_file w
         /\ (json_file w = None
             \/ negb (limit =? 0)%Z && (snd st <=? 0)%Z = true))
        \/ exists data,
            json_file w = Some data
            /\ negb (limit =? 0)%Z && (snd st <=? 0)%Z = false
            /\ ((* not an object with companies to loop over *)
                ((forall d items, data = VDict d ->
                                  items_of (get_default "companies" (VList []) d)
                                  <> Some items)
                 /\ (exists e, o = Raises e)
                 /\ json_file w' = json_file w /\ writes evs = [])
                \/ exists d items,
                    data = VDict d
                    /\ items_of (get_default "companies" (VList []) d) = Some items
                    /\ let st0 := FixIpoWebpages.mkLocals 0 (fst st) (snd st) in
                       let res := loop_result (json_step E limit) items st0 in
                       let l := snd res in
                       let seen := firstn (loop_visited (json_step E limit) items st0)
                                          items in
                       ((* a company that is not typed *)
                        (forallb typed_company seen = false
                         /\ o = Raises AttributeError
                         /\ json_file w' = json_file w /\ writes evs = [])
                        \/ (forallb typed_company seen = true
                            /\ o = Returns (FixIpoWebpages.total_fixed l)
                            /\ count is_record evs = List.length seen
                            /\ count is_replaced evs
                               = List.length (filter (json_hit E) seen)
                            /\ ((FixIpoWebpages.fixed l = 0%nat
                                 /\ json_file w' = json_file w /\ writes evs = [])
                                \/ ((0 < FixIpoWebpages.fixed l)%nat
                                    /\ json_file w'
                                       = Some (VDict (with_companies d (fst res)))
                                    /\ writes evs = [JSON_NAME])))))).
Proof.
  unfold FixIpoWebpages.json_part, json_exists, read_json.
  destruct (json_file w) as [data|] eqn:Hj.
  2:{ exists (Returns (fst st)), w, []. split; [|split; [|split]].
      - unfold bind. rewrite Hj. reflexivity.
      - now rewrite app_nil_r.
      - reflexivity.
      - left. repeat split; auto. }
  destruct (negb (limit =? 0)%Z && (snd st <=? 0)%Z) eqn:Hb.
  { exists (Returns (fst st)), w, []. split; [|split; [|split]].
    - unfold bind. rewrite Hj. cbn [andb negb]. reflexivity.
    - now rewrite app_nil_r.
    - reflexivity.
    - left. repeat split; auto. }
  pose proof (get_companies_says data) as Hg.
  match goal with
  | |- context [bind (bind (emit (EvRead JSON_NAME)) _) ?k] => set (K := k)
  end.
  match goal with
  | |- exists o w' evs, ?lhs = _ /\ _ =>
      assert (Hopen : lhs = K data (add_events [EvRead JSON_NAME] w))
  end.
  { unfold bind, emit, add_events. cbn [json_file]. rewrite Hj. cbn [andb negb].
    cbv beta. rewrite Hj. reflexivity. }
  rewrite Hopen. clear Hopen. subst K. cbv beta.
  unfold bind at 1. rewrite Hg, add_events_nil.
  destruct data as [ | | | | | |d];
    try (eexists _, _, [EvRead JSON_NAME]; split; [reflexivity|];
         split; [reflexivity|]; split; [reflexivity|];
         right; eexists; split; [reflexivity|]; split; [reflexivity|];
         left; split; [intros ? ? [=]|]; split; [eexists; reflexivity|];
         split; [exact Hj | reflexivity]).
  destruct (items_of (get_default "companies" (VList []) d)) as [items|] eqn:Hit.
  2:{ eexists _, _, [EvRead JSON_NAME]. split; [reflexivity|].
      split; [reflexivity|]. split; [reflexivity|].
      right. eexists. split; [reflexivity|]. split; [reflexivity|].
      left. split; [|split; [eexists; reflexivity | split; [exact Hj | reflexivity]]].
      intros d0 items [= <-]. rewrite Hit. discriminate. }
  set (st0 := FixIpoWebpages.mkLocals 0 (fst st) (snd st)).
  destruct (json_companies_says E limit items st0) as (evs & Hs & Q & T).
  cbn zeta in Hs, T. pose proof (writes_quiet _ Q) as Wq.
  destruct (forallb typed_company
              (firstn (loop_visited (json_step E limit) items st0) items)) eqn:Hty.
  2:{ eexists _, _, (EvRead JSON_NAME :: evs). split; [|split; [|split]].
      - unfold bind. rewrite Hs. reflexivity.
      - unfold add_events. cbn. now rewrite <- app_assoc.
      - reflexivity.
      - right. eexists. split; [reflexivity|]. split; [reflexivity|].
        right. exists d, items. split; [reflexivity|]. split; [assumption|].
        cbn zeta. fold st0. left. rewrite Hty. repeat split; assumption. }
  destruct (T eq_refl) as (R & _ & P).
  destruct (loop_result (json_step E limit) items st0) as [cs l] eqn:Hres.
  destruct (0 <? FixIpoWebpages.fixed l)%nat eqn:Hfix.
  - eexists _, _, (EvRead JSON_NAME :: evs
                     ++ [EvWrite JSON_NAME; EvPrint (LSavedJson (FixIpoWebpages.fixed l))]).
    split; [|split; [|split]].
    + unfold bind at 1. rewrite Hs. rewrite Hfix.
      unfold write_json, bind, emit, print, ret. cbn. reflexivity.
    + unfold add_events, set_json. cbn. rewrite <- !app_assoc. reflexivity.
    + reflexivity.
    + right. eexists. split; [reflexivity|]. split; [reflexivity|].
      right. exists d, items. split; [reflexivity|]. split; [assumption|].
      cbn zeta. fold st0. right. rewrite Hty, Hres. cbn [fst snd].
      rewrite !count_cons, !count_app, R, P.
      cbn [is_record is_replaced b2n Nat.add count filter List.length].
      split; [reflexivity|]. split; [reflexivity|].
      split; [lia|]. split; [lia|]. right. apply Nat.ltb_lt in Hfix.
      split; [assumption|]. split; [reflexivity|].
      cbn [writes]. rewrite writes_app, Wq. reflexivity.
  - eexists _, _, (EvRead JSON_NAME :: evs). split; [|split; [|split]].
    + unfold bind at 1. rewrite Hs. rewrite Hfix. reflexivity.
    + unfold add_events. cbn. now rewrite <- app_assoc.
    + reflexivity.
    + right. eexists. split; [reflexivity|]. split; [reflexivity|].
      right. exists d, items. split; [reflexivity|]. split; [assumption|].
      cbn zeta. fold st0. right. rewrite Hty, Hres. cbn [fst snd].
      rewrite !count_cons, R, P. cbn [is_record is_replaced b2n Nat.add].
      split; [reflexivity|]. split; [reflexivity|].
      split; [reflexivity|]. split; [reflexivity|]. left.
      apply Nat.ltb_ge in Hfix. repeat split; try assumption; try lia.
Qed.

(** ** All CSV files *)

Lemma filter_nonempty {A} (p : A -> bool) l :
  (0 < List.length (filter p l))%nat -> exists x, In x l /\ p x = true.
Proof.
  destruct (filter p l) as [|x f] eqn:H; simpl; [lia|]. intros _.
  exists x. apply filter_In. rewrite H. now left.
Qed.

(** A positive [fixed] after the loop means a flagged item was there. *)
Lemma hit_loop_some_hit {A} limit (hit : A -> bool) update xs st :
  FixIpoWebpages.fixed st = 0%nat ->
  let step := hit_step limit hit update in
  (0 < FixIpoWebpages.fixed (snd (loop_result step xs st)))%nat ->
  exists x, In x (firstn (loop_visited step xs st) xs) /\ hit x = true.
Proof.
  intros H0 step H.
  destruct (hit_loop_fixed limit hit update xs st) as [Hf _].
  fold step in Hf. rewrite Hf, H0 in H. now apply filter_nonempty.
Qed.

Lemma csv_kept_same w w' name : csv_files w' name = csv_files w name -> csv_kept w w' name.
Proof.
  intros H t Ht _. exists t. rewrite H. repeat split; auto.
  apply Forall2_refl, csv_frame_refl.
Qed.

(** The table a pass that gets to every row leaves, and the table it
    finds when it replaces nothing. *)
Lemma fixed_table_written E t fn :
  fieldnames t = Some fn -> mem "webpage" fn = true ->
  fixed_table E t
  = mkCsv (Some fn) (map (written_row fn) (map (csv_fix E) (rows t))).
Proof.
  intros Hfn Hcol. unfold fixed_table, header. rewrite Hfn, Hcol.
  now rewrite map_map.
Qed.

Lemma fixed_table_same E t :
  csv_wf t = true -> List.length (filter (csv_hit E) (rows t)) = 0%nat ->
  fixed_table E t = t.
Proof.
  intros Hwf H0. unfold fixed_table.
  destruct (mem "webpage" (header t)) eqn:Hcol; [|reflexivity].
  unfold header in *. destruct (fieldnames t) as [fn|] eqn:Hfn; [|discriminate Hcol].
  rewrite <- (map_map (csv_fix E) (written_row fn)).
  unfold csv_fix. rewrite (map_no_hit (csv_hit E) (csv_update E) (rows t) H0).
  destruct (csv_wf_inv t Hwf Hfn) as (Hn & F & ->).
  rewrite (@lines_written fn (lines t) Hn F). destruct t. cbn in *. now rewrite Hfn.
Qed.

Lemma mem_nonempty k fn : mem k fn = true -> fn <> [].
Proof. now destruct fn. Qed.

Lemma csv_hit_inv E r :
  csv_hit E r = true ->
  claimed_eligible (csv_url r) = true
  /\ exists new, csv_answer E r = Some new
                 /\ csv_update E r = set_cell "webpage" new r.
Proof.
  unfold csv_hit, csv_update. intro H. apply andb_true_iff in H.
  destruct H as [He Ha]. split; [assumption|].
  destruct (csv_answer E r) as [new|] eqn:Hans; [|discriminate Ha].
  now exists new.
Qed.

(** One file: the other files and the JSON file stay; the file itself
    stays or is rewritten within its frame; and it is written only if
    one of its rows was given a candidate. *)
Lemma csv_file_frame E limit name st w :
  exists o w' evs,
    FixIpoWebpages.csv_file E limit name st w = (o, w')
    /\ trace w' = trace w ++ evs
    /\ json_file w' = json_file w
    /\ (forall p, p <> name -> csv_files w' p = csv_files w p)
    /\ csv_kept w w' name
    /\ (forall n, In n (writes evs) -> n = name /\ csv_assigned E w w' name).
Proof.
  destruct (csv_file_cases E limit name st w)
    as (o & w' & evs & Hrun & Htr & Hj & Hcase).
  exists o, w', evs. do 3 (split; [assumption|]).
  destruct Hcase as [(Hf & _ & _ & _ & Hw & _) | (t & fn & Ht & Hfn & Hcol & Hrest)].
  { rewrite Hw. split; [now intros; rewrite Hf|].
    split; [apply csv_kept_same; now rewrite Hf | intros n []]. }
  cbn zeta in Hrest.
  destruct Hrest as [(_ & _ & Hf & Hw) | (_ & _ & _ & Hsub)].
  { rewrite Hw. split; [now intros; rewrite Hf|].
    split; [apply csv_kept_same; now rewrite Hf | intros n []]. }
  destruct Hsub as [(_ & _ & Hf & Hw) | [(_ & _ & _ & Hf & Hw) | (_ & Hfix & Hw & Hf & _)]].
  - rewrite Hw. split; [now intros; rewrite Hf|].
    split; [apply csv_kept_same; now rewrite Hf | intros n []].
  - rewrite Hw. split; [now intros; rewrite Hf|].
    split; [apply csv_kept_same; now rewrite Hf | intros n []].
  - set (st0 := FixIpoWebpages.mkLocals 0 (fst st) (snd st)) in *.
    rewrite Hw, Hf. cbv beta. split; [|split].
    + intros p Hp. apply String.eqb_neq in Hp. now rewrite Hp.
    + intros t0 Ht0 Hwf. rewrite Ht in Ht0. injection Ht0 as <-.
      rewrite Hf. cbv beta.
      rewrite String.eqb_refl. eexists. split; [reflexivity|].
      destruct (write_back_id E limit t st0 Hwf Hfn) as (Hwr & _ & Hrd).
      cbn zeta in Hwr, Hrd. rewrite Hwr. cbn [fieldnames fst].
      split; [now symmetry|].
      rewrite Hrd by (eapply mem_nonempty; eassumption).
      apply csv_rows_frame.
    + intros n [<-|[]]. split; [reflexivity|].
      destruct (hit_loop_fixed limit (csv_hit E) (csv_update E) (rows t) st0)
        as [Hm _].
      fold (csv_step E limit) in Hm. rewrite Hm in Hfix. cbn [FixIpoWebpages.fixed st0] in Hfix.
      destruct (hit_loop_nth limit (csv_hit E) (csv_update E) (rows t) st0 Hfix)
        as (i & r & Hn & Hhit & Hres).
      fold (csv_step E limit) in Hres.
      destruct (csv_hit_inv E r Hhit) as (Hel & new & Hans & Hupd).
      exists t, fn, i, r, new. do 5 (split; [assumption|]).
      rewrite Hf. cbv beta.
      rewrite String.eqb_refl. eexists. split; [reflexivity|].
      split; [reflexivity|]. intro Hs. cbn [lines].
      rewrite (writerows_writable _ _ (loop_writable E limit t st0 Hfn Hs)).
      cbn [fst]. rewrite nth_error_map, Hres, Hupd. reflexivity.
Qed.

Lemma csv_assigned_later E w w1 w' name :
  csv_files w' name = csv_files w1 name ->
  csv_assigned E w w1 name -> csv_assigned E w w' name.
Proof.
  intros H (t & fn & i & r & new & H1 & H2 & H3 & H4 & H5 & t' & H6 & H7).
  exists t, fn, i, r, new. do 5 (split; [assumption|]).
  exists t'. split; [congruence | assumption].
Qed.

Lemma csv_assigned_earlier E w w1 w' name :
  csv_files w1 name = csv_files w name ->
  csv_assigned E w1 w' name -> csv_assigned E w w' name.
Proof.
  intros H (t & fn & i & r & new & H1 & H2).
  exists t, fn, i, r, new. split; [congruence | assumption].
Qed.

Lemma csv_files_loop_frame E limit : forall names st w,
  nodupb names = true ->
  exists o w' evs,
    FixIpoWebpages.csv_files_loop E limit names st w = (o, w')
    /\ trace w' = trace w ++ evs
    /\ json_file w' = json_file w
    /\ (forall p, mem p names = false -> csv_files w' p = csv_files w p)
    /\ (forall p, csv_kept w w' p)
    /\ (forall n, In n (writes evs) ->
                  mem n names = true /\ csv_assigned E w w' n).
Proof.
  induction names as [|name rest IH]; intros st w Hnd.
  - exists (Returns st), w, []. split; [reflexivity|].
    split; [now rewrite app_nil_r|]. split; [reflexivity|].
    split; [reflexivity|].
    split; [intro p; now apply csv_kept_same | intros n []].
  - cbn [nodupb] in Hnd. apply andb_true_iff in Hnd. destruct Hnd as [Hnot Hnd].
    apply negb_true_iff in Hnot.
    destruct (csv_file_frame E limit name st w)
      as (o1 & w1 & e1 & Hrun & Htr & Hj & Hother & Hkept & Hwr).
    cbn [FixIpoWebpages.csv_files_loop]. unfold bind at 1. rewrite Hrun.
    assert (Hk1 : forall p, csv_kept w w1 p).
    { intro p. destruct (string_dec p name) as [->|Hp]; [assumption|].
      apply csv_kept_same. now apply Hother. }
    assert (Ha1 : forall p, mem p (name :: rest) = false ->
                            csv_files w1 p = csv_files w p).
    { intros p Hp. cbn [mem existsb] in Hp. apply orb_false_iff in Hp.
      apply Hother. apply String.eqb_neq. tauto. }
    assert (Hw1 : forall n, In n (writes e1) ->
                            mem n (name :: rest) = true /\ csv_assigned E w w1 n).
    { intros n Hn. destruct (Hwr n Hn) as [-> Hr]. split; [|assumption].
      cbn [mem existsb]. now rewrite String.eqb_refl. }
    destruct o1 as [[st1 c]|e].
    2:{ exists (Raises e), w1, e1. repeat split; try assumption; now apply Hw1. }
    destruct c.
    2:{ exists (Returns st1), w1, e1. repeat split; try assumption; now apply Hw1. }
    destruct (IH st1 w1 Hnd)
      as (o & w' & e2 & Hrun2 & Htr2 & Hj2 & Ha2 & Hkept2 & Hwr2).
    exists o, w', (e1 ++ e2). split; [assumption|].
    split; [rewrite Htr2, Htr; now rewrite app_assoc|].
    split; [congruence|]. split; [|split].
    + intros p Hp. rewrite Ha2, Ha1; auto.
      cbn [mem existsb] in Hp. apply orb_false_iff in Hp. tauto.
    + intros p t Ht Hwf.
      destruct (string_dec p name) as [->|Hp].
      * destruct (Hkept t Ht Hwf) as (t1 & Ht1 & Hfn1 & Hfr1).
        exists t1. rewrite (Ha2 name Hnot). auto.
      * apply Hkept2; [|assumption]. rewrite Hother; assumption.
    + intros n Hn. rewrite writes_app in Hn. apply in_app_or in Hn.
      destruct Hn as [Hn|Hn].
      * destruct (Hwr n Hn) as [-> Hr].
        split; [cbn [mem existsb]; now rewrite String.eqb_refl|].
        eapply csv_assigned_later; [|eassumption]. now apply Ha2.
      * destruct (Hwr2 n Hn) as (Hmem & Has).
        split; [cbn [mem existsb]; unfold mem in Hmem; rewrite Hmem; apply orb_true_r|].
        eapply csv_assigned_earlier; [|eassumption]. apply Hother.
        intros ->. unfold mem in *. congruence.
Qed.

(** ** The JSON file *)

Lemma json_hit_dict E c : json_hit E c = true -> exists d, c = VDict d.
Proof. destruct c; try discriminate. eauto. Qed.

Lemma json_update_frame E c : json_hit E c = true -> company_frame c (json_update E c).
Proof.
  intro H. destruct (json_hit_dict E c H) as (d & ->). right.
  exists d, (dict_set "webpage" (VStr (opt_str (company_answer E d))) d).
  split; [reflexivity|]. split; [reflexivity|]. split.
  - destruct (dict_get "webpage" d) eqn:Hg.
    + left. apply keys_set_present. congruence.
    + right. split; [reflexivity|]. now apply keys_set_absent.
  - intros k Hk. now apply dict_get_set_other.
Qed.

Lemma json_companies_frame E limit cs st :
  Forall2 company_frame cs (fst (loop_result (json_step E limit) cs st)).
Proof.
  apply hit_loop_items; [now left | apply json_update_frame].
Qed.

Lemma items_of_list v items d :
  items_of v = Some items -> In (VDict d) items -> v = VList items.
Proof.
  destruct v as [ | | | |s|l|d0]; try discriminate; simpl; intros [= <-] Hin.
  - exfalso. unfold chars in Hin. apply in_map_iff in Hin.
    destruct Hin as (? & [=] & _).
  - reflexivity.
  - exfalso. apply in_map_iff in Hin. destruct Hin as (? & [=] & _).
Qed.

Lemma get_default_list (d : dict value) items c :
  get_default "companies" (VList []) d = VList items -> In c items ->
  dict_get "companies" d = Some (VList items).
Proof.
  unfold get_default. destruct (dict_get "companies" d) as [v|].
  - now intros ->.
  - intros [= <-] [].
Qed.

Lemma json_hit_inv E c :
  json_hit E c = true ->
  exists d new,
    c = VDict d /\ company_needs_fix d = true
    /\ company_answer E d = Some new
    /\ json_update E c = VDict (dict_set "webpage" (VStr new) d).
Proof.
  destruct c as [ | | | | | |d]; try discriminate. cbn [json_hit json_update].
  intro H. apply andb_true_iff in H. destruct H as [Hn Ha].
  destruct (company_answer E d) as [new|] eqn:Hans; [|discriminate Ha].
  now exists d, new.
Qed.

Lemma json_part_frame E limit st w :
  exists o w' evs,
    FixIpoWebpages.json_part E limit st w = (o, w')
    /\ trace w' = trace w ++ evs
    /\ csv_files w' = csv_files w
    /\ json_kept w w'
    /\ (forall n, In n (writes evs) -> n = JSON_NAME /\ json_assigned E w w').
Proof.
  destruct (json_part_cases E limit st w)
    as (o & w' & evs & Hrun & Htr & Hc & Hcase).
  exists o, w', evs. do 3 (split; [assumption|]).
  assert (Hsame : json_file w' = json_file w -> json_kept w w').
  { intros H data Hd. exists data. rewrite H. split; [assumption | now left]. }
  destruct Hcase as [(_ & -> & Hj & _) | (data & Hd & _ & Hsub)].
  { split; [auto | intros n []]. }
  destruct Hsub as [(_ & _ & Hj & Hw) | (d & items & -> & Hit & Hsub)].
  { rewrite Hw. split; [auto | intros n []]. }
  cbn zeta in Hsub.
  destruct Hsub as [(_ & _ & Hj & Hw) | (Hty & _ & _ & _ & Hsub)].
  { rewrite Hw. split; [auto | intros n []]. }
  destruct Hsub as [(_ & Hj & Hw) | (Hfix & Hj & Hw)].
  { rewrite Hw. split; [auto | intros n []]. }
  (* the file is written: some company was given a candidate *)
  set (st0 := FixIpoWebpages.mkLocals 0 (fst st) (snd st)) in *.
  destruct (hit_loop_fixed limit (json_hit E) (json_update E) items st0) as [Hm _].
  fold (json_step E limit) in Hm. rewrite Hm in Hfix.
  cbn [FixIpoWebpages.fixed st0] in Hfix.
  destruct (hit_loop_nth limit (json_hit E) (json_update E) items st0 Hfix)
    as (i & c & Hn & Hhit & Hres).
  fold (json_step E limit) in Hres.
  destruct (json_hit_inv E c Hhit) as (dc & new & -> & Hneeds & Hans & Hupd).
  pose proof (nth_error_In _ _ Hn) as Hin.
  pose proof (@items_of_list _ _ _ Hit Hin) as Hv.
  pose proof (@get_default_list d _ _ Hv Hin) as Hg.
  assert (Hwc : with_companies d (fst (loop_result (json_step E limit) items st0))
                = dict_set "companies"
                    (VList (fst (loop_result (json_step E limit) items st0))) d)
    by (unfold with_companies; now rewrite Hg).
  rewrite Hw. split.
  - intros data Hdata. rewrite Hd in Hdata. injection Hdata as <-.
    eexists. split; [exact Hj|]. right. rewrite Hwc.
    eexists d, _, items, _. split; [reflexivity|]. split; [reflexivity|].
    split; [apply keys_set_present; congruence|].
    split; [intros k Hk; now apply dict_get_set_other|].
    split; [assumption|]. split; [apply dict_get_set_same|].
    apply json_companies_frame.
  - intros n [<-|[]]. split; [reflexivity|].
    exists d, items, i, dc, new, (fst (loop_result (json_step E limit) items st0)).
    do 5 (split; [assumption|]). split; [now rewrite Hj, Hwc|].
    now rewrite Hres, Hupd.
Qed.

(** ** The classification pass and [main] *)

Lemma nodupb_CSVS : nodupb FixIpoWebpages.CSVS = true.
Proof. reflexivity. Qed.

Lemma json_assigned_earlier E w w1 w' :
  json_file w1 = json_file w -> json_assigned E w1 w' -> json_assigned E w w'.
Proof.
  intros H (d & cs & i & c & new & cs' & H1 & H2).
  exists d, cs, i, c, new, cs'. split; [congruence | assumption].
Qed.

Lemma pass_frame E limit w :
  exists o w' evs,
    FixIpoWebpages.pass E limit w = (o, w')
    /\ trace w' = trace w ++ evs
    /\ (forall p, csv_kept w w' p)
    /\ json_kept w w'
    /\ (forall n, In n (writes evs) ->
                  csv_assigned E w w' n \/ (n = JSON_NAME /\ json_assigned E w w')).
Proof.
  unfold FixIpoWebpages.pass.
  destruct (csv_files_loop_frame E limit FixIpoWebpages.CSVS (0%nat, limit) w nodupb_CSVS)
    as (o1 & w1 & e1 & Hrun1 & Htr1 & Hj1 & _ & Hk1 & Hw1).
  unfold bind at 1. rewrite Hrun1.
  assert (Hjk : json_kept w w1).
  { intros data Hd. exists data. rewrite Hj1. split; [assumption | now left]. }
  destruct o1 as [st|e].
  2:{ exists (Raises e), w1, e1. repeat split; try assumption.
      intros n Hn. left. now apply Hw1. }
  destruct (json_part_frame E limit st w1)
    as (o2 & w2 & e2 & Hrun2 & Htr2 & Hc2 & Hk2 & Hw2).
  unfold bind at 1. rewrite Hrun2.
  assert (Hcsv : forall p, csv_kept w w2 p).
  { intros p t Ht Hwf. rewrite Hc2. now apply Hk1. }
  assert (Hjs : json_kept w w2).
  { intros data Hd. apply Hk2. now rewrite Hj1. }
  assert (Hwr : forall n, In n (writes (e1 ++ e2)) ->
                          csv_assigned E w w2 n
                          \/ (n = JSON_NAME /\ json_assigned E w w2)).
  { intros n Hn. rewrite writes_app in Hn. apply in_app_or in Hn.
    destruct Hn as [Hn|Hn].
    - left. eapply csv_assigned_later; [|apply Hw1; exact Hn]. now rewrite Hc2.
    - destruct (Hw2 n Hn) as [-> Has]. right. split; [reflexivity|].
      eapply json_assigned_earlier; eassumption. }
  assert (Hdone : forall total n,
             csv_assigned E w w2 n \/ (n = JSON_NAME /\ json_assigned E w w2) ->
             csv_assigned E w (add_events [EvPrint (LDone total)] w2) n
             \/ (n = JSON_NAME
                 /\ json_assigned E w (add_events [EvPrint (LDone total)] w2))).
  { intros total n [H|[-> H]]; [left | right; split; [reflexivity|]].
    - eapply csv_assigned_later; [|exact H]. reflexivity.
    - destruct H as (d & cs & i & c & new & cs' & H).
      now exists d, cs, i, c, new, cs'. }
  destruct o2 as [total|e].
  - exists (Returns tt), (add_events [EvPrint (LDone total)] w2),
           (e1 ++ e2 ++ [EvPrint (LDone total)]).
    split; [reflexivity|].
    split; [cbn; rewrite Htr2, Htr1; now rewrite <- !app_assoc|].
    split; [assumption|]. split; [assumption|].
    intros n Hn. apply Hdone, Hwr. rewrite app_assoc, writes_app in Hn.
    cbn in Hn. now rewrite app_nil_r in Hn.
  - exists (Raises e), w2, (e1 ++ e2). split; [reflexivity|].
    split; [rewrite Htr2, Htr1; now rewrite app_assoc|].
    repeat split; assumption.
Qed.

Lemma startup_cases E w :
  (started E = true /\ startup E w = (Returns tt, w))
  \/ (started E = false
      /\ exists l, startup E w = (Raises (SystemExit 1), add_events [EvPrint l] w)).
Proof.
  unfold started, startup.
  destruct (opt_truthy (openai_key E)), (opt_truthy (gemini_key E)),
    (openai_importable E); cbn [negb andb orb];
    first [ left; split; reflexivity
          | right; split; [reflexivity | eexists; reflexivity] ].
Qed.

Lemma main_frame E limit w :
  exists o w' evs,
    FixIpoWebpages.main E limit w = (o, w')
    /\ trace w' = trace w ++ evs
    /\ (forall p, csv_kept w w' p)
    /\ json_kept w w'
    /\ (forall n, In n (writes evs) ->
                  csv_assigned E w w' n \/ (n = JSON_NAME /\ json_assigned E w w')).
Proof.
  unfold FixIpoWebpages.main.
  destruct (startup_cases E w) as [[_ Hs] | [_ (l & Hs)]].
  - destruct (pass_frame E limit w) as (o & w' & evs & Hrun & H).
    exists o, w', evs. split; [|assumption].
    unfold bind. now rewrite Hs.
  - exists (Raises (SystemExit 1)), (add_events [EvPrint l] w), [EvPrint l].
    split; [unfold bind; now rewrite Hs|]. split; [reflexivity|].
    split; [intro p; now apply csv_kept_same|].
    split; [|intros n []].
    intros data Hd. exists data. split; [assumption | now left].
Qed.


(** ** The liveness pass *)

(** Each company comes out as it went in unless [fixed] goes up, and
    [failed] only grows. *)
Lemma verify_step_cases E c st :
  let (c', st') := verify_step E c st in
  (exists more, snd st' = snd st ++ more)
  /\ ((c' = c /\ fst st' = fst st) \/ fst st' = S (fst st)).
Proof.
  unfold verify_step. destruct c; try (split; [exists []; now rewrite app_nil_r | now left]).
  destruct (checked_url d) as [url|];
    [|split; [exists []; now rewrite app_nil_r | now left]].
  destruct (VerifyWebpages.in_codes _ _);
    [|split; [exists []; now rewrite app_nil_r | now left]].
  destruct (opt_truthy _); [destruct (accepted _)|]; cbn [fst snd].
  - split; [exists []; now rewrite app_nil_r | now right].
  - split; [eexists; reflexivity | now left].
  - split; [eexists; reflexivity | now left].
Qed.

Lemma verify_result_cases E : forall cs st,
  let res := verify_result E cs st in
  (exists more, snd (snd res) = snd st ++ more)
  /\ (fst st <= fst (snd res))%nat
  /\ (fst (snd res) = fst st -> fst res = cs)
  /\ List.length (fst res) = List.length cs.
Proof.
  induction cs as [|c cs IH]; intro st; cbn zeta.
  - cbn. split; [exists []; now rewrite app_nil_r | auto].
  - cbn [verify_result]. pose proof (verify_step_cases E c st) as H1.
    destruct (verify_step E c st) as [c' st'].
    specialize (IH st'). cbn zeta in IH.
    destruct (verify_result E cs st') as [rest' st''].
    cbn [fst snd] in *.
    destruct H1 as [(m1 & Hm1) H1]. destruct IH as ((m2 & Hm2) & Hle & Hsame & Hlen).
    split; [exists (m1 ++ m2); rewrite Hm2, Hm1; now rewrite app_assoc|].
    split; [destruct H1 as [[_ H1]|H1]; lia|].
    split; [|cbn; now rewrite Hlen].
    intro Heq. destruct H1 as [[-> H1]|H1]; [|lia].
    f_equal. apply Hsame. lia.
Qed.

(** The company at position [i] comes out as its own pass of the body
    leaves it, and what that pass appends to [failed] stays there. *)
Lemma verify_result_nth E : forall cs st i c,
  nth_error cs i = Some c ->
  exists st_i,
    nth_error (fst (verify_result E cs st)) i = Some (fst (verify_step E c st_i))
    /\ forall x, In x (snd (snd (verify_step E c st_i))) ->
                 In x (snd (snd (verify_result E cs st))).
Proof.
  induction cs as [|c0 cs IH]; intros st i c Hi; [destruct i; discriminate|].
  cbn [verify_result].
  pose proof (verify_result_cases E cs (snd (verify_step E c0 st))) as Hmono.
  destruct i as [|i]; cbn [nth_error] in Hi.
  - injection Hi as ->. exists st.
    destruct (verify_step E c st) as [c' st'].
    cbn zeta in Hmono. cbn [snd] in Hmono.
    destruct (verify_result E cs st') as [rest' st''].
    cbn [fst snd nth_error] in *. split; [reflexivity|].
    destruct Hmono as ((m & ->) & _). intros x Hx. apply in_or_app. now left.
  - destruct (verify_step E c0 st) as [c' st'].
    destruct (IH st' i c Hi) as (st_i & Hn & Hf).
    exists st_i. destruct (verify_result E cs st') as [rest' st''].
    cbn [fst snd nth_error] in *. split; assumption.
Qed.

Lemma with_companies_list (d : dict value) cs cs' :
  dict_get "companies" d = Some (VList cs) ->
  with_companies d cs' = dict_set "companies" (VList cs') d.
Proof. unfold with_companies. now intros ->. Qed.

Lemma with_companies_same (d : dict value) items :
  items_of (get_default "companies" (VList []) d) = Some items ->
  with_companies d items = d.
Proof.
  unfold with_companies, get_default.
  destruct (dict_get "companies" d) as [v|] eqn:Hg; [|reflexivity].
  destruct v; try reflexivity. cbn. intros [= ->]. now apply dict_set_same.
Qed.

(** What the liveness pass does, case by case: it raises before it
    writes, or it goes through every company and writes. *)
Ltac not_this_shape Hj :=
  let d0 := fresh "d" in
  let items0 := fresh "items" in
  let Hd0 := fresh "Hd" in
  let Hi0 := fresh "Hi" in
  intros d0 items0 Hd0 Hi0; rewrite ?Hj in Hd0;
  first [discriminate Hd0 | injection Hd0 as <-; congruence].

Lemma verify_pass_cases E w :
  exists o w' evs,
    VerifyWebpages.pass E w = (o, w')
    /\ trace w' = trace w ++ evs
    /\ csv_files w' = csv_files w
    /\ ((exists e, o = Raises e) /\ json_file w' = json_file w /\ writes evs = []
        /\ (forall d items,
              json_file w = Some (VDict d) ->
              items_of (get_default "companies" (VList []) d) = Some items ->
              forallb is_dict items = false)
        \/ exists d items,
            json_file w = Some (VDict d)
            /\ items_of (get_default "companies" (VList []) d) = Some items
            /\ forallb is_dict items = true
            /\ let res := verify_result E items (0%nat, []) in
               o = Returns (snd res)
               /\ json_file w' = Some (VDict (with_companies d (fst res)))
               /\ exists evs0,
                   evs = evs0 ++ [EvWrite JSON_NAME;
                                  EvPrint (LStillBroken (fst (snd res))
                                             (List.length (snd (snd res))))]
                   /\ writes evs0 = []).
Proof.
  unfold VerifyWebpages.pass, read_json.
  destruct (json_file w) as [data|] eqn:Hj.
  2:{ exists (Raises FileNotFoundError), (add_events [EvRead JSON_NAME] w),
             [EvRead JSON_NAME].
      split; [unfold bind, emit, add_events; cbn [json_file]; now rewrite Hj|].
      split; [reflexivity|]. split; [reflexivity|].
      left. split; [eexists; reflexivity|]. split; [exact Hj|].
      split; [reflexivity | not_this_shape Hj]. }
  match goal with
  | |- context [bind (bind (emit (EvRead JSON_NAME)) _) ?k] => set (K := k)
  end.
  match goal with
  | |- exists o w' evs, ?lhs = _ /\ _ =>
      assert (Hopen : lhs = K data (add_events [EvRead JSON_NAME] w))
  end.
  { unfold bind, emit, add_events. cbn [json_file]. rewrite Hj. reflexivity. }
  rewrite Hopen. clear Hopen. subst K. cbv beta.
  pose proof (get_companies_says data) as Hg.
  unfold bind at 1. rewrite Hg, add_events_nil.
  destruct data as [ | | | | | |d];
    try (eexists _, _, [EvRead JSON_NAME]; split; [reflexivity|];
         split; [reflexivity|]; split; [reflexivity|];
         left; split; [eexists; reflexivity|]; split; [exact Hj|];
         split; [reflexivity | not_this_shape Hj]).
  destruct (items_of (get_default "companies" (VList []) d)) as [items|] eqn:Hit.
  2:{ eexists _, _, [EvRead JSON_NAME]. split; [reflexivity|].
      split; [reflexivity|]. split; [reflexivity|].
      left. split; [eexists; reflexivity|]. split; [exact Hj|].
      split; [reflexivity | not_this_shape Hj]. }
  destruct (companies_loop_says E items (0%nat, [])) as (evs & Hs & Q).
  pose proof (writes_quiet _ Q) as Wq.
  destruct (forallb is_dict items) eqn:Hd.
  2:{ eexists _, _, (EvRead JSON_NAME :: evs). split; [|split; [|split]].
      - unfold bind. rewrite Hs. reflexivity.
      - unfold add_events. cbn. now rewrite <- app_assoc.
      - reflexivity.
      - left. split; [eexists; reflexivity|]. split; [exact Hj|].
        split; [assumption | not_this_shape Hj]. }
  destruct (verify_result E items (0%nat, [])) as [cs st] eqn:Hres.
  eexists _, _, (EvRead JSON_NAME :: evs
                   ++ [EvWrite JSON_NAME;
                       EvPrint (LStillBroken (fst st) (List.length (snd st)))]).
  split; [|split; [|split]].
  - unfold bind at 1. rewrite Hs.
    unfold write_json, bind, emit, print, ret. cbn. reflexivity.
  - unfold add_events, set_json. cbn. rewrite <- !app_assoc. reflexivity.
  - reflexivity.
  - right. exists d, items. split; [reflexivity|]. split; [assumption|].
    split; [assumption|]. cbn zeta. rewrite Hres. cbn [fst snd].
    split; [reflexivity|]. split; [reflexivity|].
    exists (EvRead JSON_NAME :: evs). split; [reflexivity|].
    cbn [writes]. assumption.
Qed.

Lemma resolve_truthy E name country new :
  resolve E name country = Some new -> PyStr.nonempty new = true.
Proof.
  unfold resolve, provider_answers.
  pose proof (answer_truthy (openai_importable E)
                (openai_create E (opt_str (openai_key E)) name country)) as T1.
  pose proof (answer_truthy (genai_importable E)
                (gemini_generate E (opt_str (gemini_key E)) name country)) as T2.
  destruct (opt_truthy (openai_key E)), (opt_truthy (gemini_key E));
    cbn [app first_candidate];
    repeat match goal with
           | |- context [match ?a with Some _ => _ | None => _ end] =>
               destruct a; cbn [first_candidate opt_truthy] in *
           end;
    intros [= <-]; assumption || discriminate.
Qed.

(** C4: in liveness mode, for a company whose webpage is a string with
    the scheme prefix and of status 404 or 423, and for which the
    resolver has a candidate: the saved file holds the candidate as its
    webpage when the status of the candidate is not 404 or 423 and lies
    in [200,400), and otherwise holds the company unchanged, the attempt
    being appended to [failed]. *)
Theorem liveness_revalidation E w d cs i c url new :
  json_file w = Some (VDict d) ->
  dict_get "companies" d = Some (VList cs) ->
  forallb is_dict cs = true ->
  nth_error cs i = Some (VDict c) ->
  get_default "webpage" VNone c = VStr url ->
  PyStr.startswith url "http" = true ->
  In (status_of E url 10) VerifyWebpages.BAD_CODES ->
  resolve E (get_default "name" (VStr "Unknown") c)
            (get_default "country" (VStr "") c) = Some new ->
  let new_status := status_of E new 10 in
  let live := ~ In new_status VerifyWebpages.BAD_CODES
              /\ (200 <= new_status < 400)%Z in
  exists fixed failed w' cs',
    VerifyWebpages.pass E w = (Returns (fixed, failed), w')
    /\ json_file w' = Some (VDict (dict_set "companies" (VList cs') d))
    /\ List.length cs' = List.length cs
    /\ (live ->
        nth_error cs' i = Some (VDict (dict_set "webpage" (VStr new) c)))
    /\ (~ live ->
        nth_error cs' i = Some (VDict c)
        /\ In (get_default "name" (VStr "Unknown") c, url, Some new) failed).
Proof.
  intros Hj Hg Hd Hi Hurl Hpre Hbad Hres new_status live.
  assert (Hit : items_of (get_default "companies" (VList []) d) = Some cs)
    by (unfold get_default; now rewrite Hg).
  destruct (verify_pass_cases E w) as (o & w' & evs & Hrun & _ & _ & Hcase).
  destruct Hcase as [(_ & _ & _ & Hno) | (d0 & items & Hj0 & Hit0 & _ & Hok)].
  { rewrite (Hno d cs Hj Hit) in Hd. discriminate Hd. }
  rewrite Hj in Hj0. injection Hj0 as <-. rewrite Hit in Hit0. injection Hit0 as <-.
  cbn zeta in Hok. destruct Hok as (-> & Hfile & _).
  destruct (verify_result_nth E cs (0%nat, []) i Hi) as (st_i & Hn & Hf).
  destruct (verify_result_cases E cs (0%nat, [])) as (_ & _ & _ & Hlen).
  destruct (verify_result E cs (0%nat, [])) as [cs' [fixed failed]].
  cbn [fst snd] in *.
  exists fixed, failed, w', cs'. split; [assumption|].
  split; [now rewrite Hfile, (with_companies_list d cs' Hg)|].
  split; [assumption|].
  (* the pass of the body over this company *)
  assert (Hne : PyStr.nonempty url = true)
    by (destruct url; [discriminate Hpre | reflexivity]).
  assert (Hin : VerifyWebpages.in_codes (status_of E url 10) VerifyWebpages.BAD_CODES = true).
  { unfold VerifyWebpages.in_codes. apply existsb_exists.
    exists (status_of E url 10). split; [assumption | apply Z.eqb_refl]. }
  assert (Hch : checked_url c = Some url) by (unfold checked_url; now rewrite Hurl, Hne, Hpre).
  assert (Hstep : forall st,
             verify_step E (VDict c) st
             = if accepted new_status
               then (VDict (dict_set "webpage" (VStr new) c), (S (fst st), snd st))
               else (VDict c,
                     (fst st,
                      snd st ++ [(get_default "name" (VStr "Unknown") c, url, Some new)]))).
  { intro st. unfold verify_step. rewrite Hch, Hin, Hres.
    cbn [opt_truthy opt_str]. now rewrite (resolve_truthy _ _ _ Hres). }
  rewrite Hstep in Hn, Hf.
  assert (Hacc : accepted new_status = true <-> live).
  { unfold accepted, live, VerifyWebpages.in_codes.
    rewrite !andb_true_iff, negb_true_iff, Z.leb_le, Z.ltb_lt.
    split.
    - intros [[Hb Hlo] Hhi]. split; [|lia].
      intro Hin'. assert (Hex : existsb (Z.eqb new_status) VerifyWebpages.BAD_CODES = true).
      { apply existsb_exists. exists new_status. split; [assumption | apply Z.eqb_refl]. }
      congruence.
    - intros [Hnot [Hlo Hhi]]. repeat split; try assumption.
      destruct (existsb _ _) eqn:Hex; [|reflexivity].
      apply existsb_exists in Hex. destruct Hex as (x & Hx & He).
      apply Z.eqb_eq in He. subst x. contradiction. }
  split.
  - intro Hl. apply Hacc in Hl. now rewrite Hl in Hn.
  - intro Hl. destruct (accepted new_status) eqn:Ha.
    + exfalso. apply Hl, Hacc. reflexivity.
    + split; [assumption|]. apply Hf. cbn [snd]. apply in_or_app. right. now left.
Qed.

(** C10, as the code has it: a run of the liveness script that
    completes ends by writing the JSON file and printing the summary,
    also when nothing was fixed, in which case the file holds the value
    it held; a run of the classification script writes a CSV file or the
    JSON file only if, in that run, it gave a record of that file a
    candidate of the resolver as webpage: the record was eligible, the
    resolver had the candidate for it, and the file holds the candidate
    at the place of the record afterwards (in a CSV file when no line is
    longer than the header, where the write ends early).  The candidate
    may be the webpage the record had. *)
Theorem write_policy :
  (forall E w w',
      VerifyWebpages.main E w = (Returns tt, w') ->
      exists evs fixed failed,
        trace w' = trace w ++ evs
                   ++ [EvWrite JSON_NAME; EvPrint (LStillBroken fixed failed)]
        /\ writes evs = []
        /\ (fixed = 0%nat -> json_file w' = json_file w))
  /\ (forall E limit w,
         let w' := snd (FixIpoWebpages.main E limit w) in
         exists evs,
           trace w' = trace w ++ evs
           /\ forall name,
               In (EvWrite name) evs ->
               csv_assigned E w w' name
               \/ (name = JSON_NAME /\ json_assigned E w w')).
Proof.
  split.
  - intros E w w' Hmain. unfold VerifyWebpages.main in Hmain.
    destruct (startup_cases E w) as [[_ Hs] | [_ (l & Hs)]];
      unfold bind at 1 in Hmain; rewrite Hs in Hmain; [|discriminate Hmain].
    destruct (verify_pass_cases E w) as (o & w1 & evs & Hrun & Htr & _ & Hcase).
    unfold bind in Hmain. rewrite Hrun in Hmain.
    destruct Hcase as [((e & ->) & _) | (d & items & Hj & Hit & _ & Hok)];
      [discriminate Hmain|].
    cbn zeta in Hok. destruct Hok as (-> & Hfile & evs0 & -> & Hw0).
    unfold ret in Hmain. injection Hmain as <-.
    exists evs0, (fst (snd (verify_result E items (0%nat, [])))),
      (List.length (snd (snd (verify_result E items (0%nat, []))))).
    split; [assumption|]. split; [assumption|].
    intro Hfixed. rewrite Hfile, Hj. do 2 f_equal.
    destruct (verify_result_cases E items (0%nat, [])) as (_ & _ & Hsame & _).
    rewrite (Hsame Hfixed). now apply with_companies_same.
  - intros E limit w.
    destruct (main_frame E limit w) as (o & w' & evs & Hrun & Htr & _ & _ & Hwr).
    cbn zeta. exists evs. rewrite Hrun. split; [assumption|].
    intros name Hin. apply Hwr. now apply In_writes.
Qed.

(** ** The budget over a run *)

Lemma firstn_visited_length {A} n (hit : A -> bool) xs :
  List.length (firstn (visited n (map hit xs)) xs) = visited n (map hit xs).
Proof.
  rewrite length_firstn. pose proof (visited_le (map hit xs) n) as H.
  rewrite length_map in H. lia.
Qed.

(** One CSV file with [n >= 1] replacements left: the file is left as
    it is when the budget ends in it, and holds every replacement
    otherwise. *)
Lemma csv_file_budget E b name total n w :
  (1 <= b)%nat -> (1 <= n)%nat ->
  match csv_files w name with Some t => csv_wf t | None => true end = true ->
  let fl := csv_flags E (csv_files w name) in
  let m := Nat.min n (hits fl) in
  exists w' evs,
    FixIpoWebpages.csv_file E (Z.of_nat b) name (total, Z.of_nat n) w
    = (Returns ((total + m)%nat, Z.of_nat (n - m),
                if (n <=? hits fl)%nat then Break else Next), w')
    /\ trace w' = trace w ++ evs
    /\ json_file w' = json_file w
    /\ (forall p, p <> name -> csv_files w' p = csv_files w p)
    /\ csv_files w' name
       = (if (n <=? hits fl)%nat then csv_files w name
          else option_map (fixed_table E) (csv_files w name))
    /\ count is_record evs = visited n fl
    /\ count is_replaced evs = m.
Proof.
  intros Hb Hn Hwf fl m.
  destruct (csv_file_frame E (Z.of_nat b) name (total, Z.of_nat n) w)
    as (o0 & w0 & e0 & Hrun0 & _ & _ & Hother & _).
  destruct (csv_file_cases E (Z.of_nat b) name (total, Z.of_nat n) w)
    as (o & w' & evs & Hrun & Htr & Hj & Hcase).
  rewrite Hrun in Hrun0. injection Hrun0 as <- <-.
  exists w', evs. rewrite Hrun.
  destruct Hcase as [(Hf & -> & R & P & _ & Hfl) | (t & fn & Ht & Hfn & Hcol & Hrest)].
  { subst m fl. rewrite Hfl. cbn [hits filter List.length visited].
    rewrite Nat.min_0_r, Nat.add_0_r, Nat.sub_0_r.
    replace (n <=? 0)%nat with false by (symmetry; apply Nat.leb_gt; lia).
    repeat split; try assumption.
    rewrite Hf. destruct (csv_files w name) as [t|] eqn:Ht; [|reflexivity].
    cbn [option_map]. f_equal. symmetry.
    destruct (mem "webpage" (header t)) eqn:Hcol.
    - apply fixed_table_same; [exact Hwf|]. unfold csv_flags in Hfl.
      rewrite Hcol in Hfl. apply map_eq_nil in Hfl. now rewrite Hfl.
    - unfold fixed_table. now rewrite Hcol. }
  rewrite Ht in Hwf.
  assert (Hflags : fl = map (csv_hit E) (rows t)).
  { subst fl. rewrite Ht. unfold csv_flags, header. now rewrite Hfn, Hcol. }
  cbn zeta in Hrest. cbn [fst snd] in Hrest.
  set (st0 := FixIpoWebpages.mkLocals 0 total (Z.of_nat n)) in *.
  destruct Hrest as [(Hty & _) | (_ & Hrest)];
    [now rewrite (csv_wf_typed t _ Hwf) in Hty|].
  assert (Hlim : Z.of_nat b <> 0%Z) by lia.
  destruct (@hit_loop_budget row (Z.of_nat b) (csv_hit E) (csv_update E) Hlim
              (rows t) st0 n eq_refl Hn)
    as (Hv & Hm & Hl).
  destruct (hit_loop_fixed (Z.of_nat b) (csv_hit E) (csv_update E) (rows t) st0)
    as (Hf & Ht').
  pose proof (hit_loop_result (Z.of_nat b) (csv_hit E) (csv_update E) (rows t) st0)
    as Hres.
  fold (csv_step E (Z.of_nat b)) in Hv, Hm, Hl, Hf, Ht', Hres. cbn zeta in Hres.
  rewrite <- Hflags in Hv, Hm, Hl. fold m in Hm, Hl.
  rewrite Hm in Hf, Ht'. cbn [FixIpoWebpages.fixed FixIpoWebpages.total_fixed st0] in Hf, Ht'.
  destruct Hrest as (R & P & Hsub).
  rewrite Hm in P. rewrite Hv in R. rewrite Hflags in R.
  rewrite firstn_visited_length in R. rewrite <- Hflags in R.
  rewrite Hl, Ht' in Hsub.
  assert (Hbrk : (Z.of_nat (n - m) <=? 0)%Z && negb (Z.of_nat b =? 0)%Z
                 = (n <=? hits fl)%nat).
  { replace (Z.of_nat b =? 0)%Z with false by (symmetry; apply Z.eqb_neq; lia).
    cbn [negb]. rewrite andb_true_r.
    destruct (Nat.leb_spec n (hits fl)); [apply Z.leb_le | apply Z.leb_gt]; lia. }
  rewrite Hbrk in Hsub. rewrite Ht. cbn [option_map].
  destruct Hsub as [(Hc & -> & Hsame & _)
                   | [(Hc & Hfix & -> & Hsame & _) | (Hc & Hfix & _ & Hwr & ->)]];
    rewrite Hc.
  - rewrite Hsame, Ht. repeat split; assumption.
  - rewrite Hsame, Ht. repeat split; try assumption.
    f_equal. symmetry. apply fixed_table_same; [assumption|].
    apply Nat.leb_gt in Hc. rewrite Hf in Hfix. subst m.
    rewrite <- hits_map_filter, <- Hflags. lia.
  - destruct (@write_back_id E (Z.of_nat b) t fn st0 Hwf Hfn) as (Hwb & _ & _).
    cbn zeta in Hwb. rewrite Hwb in *. cbn [fst snd] in *.
    repeat split; try assumption.
    rewrite Hwr. cbv beta. rewrite String.eqb_refl. f_equal.
    rewrite (fixed_table_written E t Hfn Hcol). f_equal. f_equal.
    rewrite Hres, Hv.
    apply Nat.leb_gt in Hc. rewrite (visited_short fl Hc), Hflags, length_map.
    now rewrite firstn_all, skipn_all, app_nil_r.
Qed.

Lemma files_same E w w' names :
  (forall p, mem p names = true -> csv_files w' p = csv_files w p) ->
  files_flags E w' names = files_flags E w names
  /\ files_wf w' names = files_wf w names.
Proof.
  induction names as [|name rest IH]; intro H; [split; reflexivity|].
  assert (Hn : csv_files w' name = csv_files w name).
  { apply H. cbn. now rewrite String.eqb_refl. }
  destruct IH as [IH1 IH2].
  { intros p Hp. apply H. cbn. unfold mem in Hp. rewrite Hp. apply orb_true_r. }
  unfold files_flags, files_wf in *. cbn [flat_map forallb].
  now rewrite Hn, IH1, IH2.
Qed.

Lemma fix_first_all {A} (hit : A -> bool) update n xs :
  (hits (map hit xs) < n)%nat ->
  fix_first hit update n xs = map (fun x => if hit x then update x else x) xs.
Proof.
  intro H. unfold fix_first. rewrite (visited_short _ H), length_map.
  now rewrite firstn_all, skipn_all, app_nil_r.
Qed.

Lemma fix_first_none {A} (hit : A -> bool) update n xs :
  hits (map hit xs) = 0%nat -> fix_first hit update n xs = xs.
Proof.
  intro H. unfold fix_first. rewrite map_no_hit; [apply firstn_skipn|].
  rewrite hits_map_filter in H.
  assert (L : forall k, (List.length (filter hit (firstn k xs))
                         <= List.length (filter hit xs))%nat).
  { clear. induction xs as [|x xs IH]; intros [|k]; cbn; try lia.
    specialize (IH k). destruct (hit x); cbn; lia. }
  specialize (L (visited n (map hit xs))). lia.
Qed.

(** All CSV files with [n >= 1] replacements left. *)
Lemma csv_files_loop_budget E b : (1 <= b)%nat -> forall names total n w,
  (1 <= n)%nat -> nodupb names = true -> files_wf w names = true ->
  let fl := files_flags E w names in
  let m := Nat.min n (hits fl) in
  exists w' evs,
    FixIpoWebpages.csv_files_loop E (Z.of_nat b) names (total, Z.of_nat n) w
    = (Returns ((total + m)%nat, Z.of_nat (n - m)), w')
    /\ trace w' = trace w ++ evs
    /\ json_file w' = json_file w
    /\ (forall p, mem p names = false -> csv_files w' p = csv_files w p)
    /\ ((hits fl < n)%nat ->
        forall p, mem p names = true ->
                  csv_files w' p = option_map (fixed_table E) (csv_files w p))
    /\ count is_record evs = visited n fl
    /\ count is_replaced evs = m.
Proof.
  intro Hb. induction names as [|name rest IH]; intros total n w Hn Hnd Hwf fl m.
  - exists w, []. subst m fl. cbn. rewrite Nat.min_0_r, Nat.add_0_r, Nat.sub_0_r.
    unfold ret. rewrite app_nil_r. repeat split. intros _ p Hp. discriminate Hp.
  - cbn [nodupb] in Hnd. apply andb_true_iff in Hnd. destruct Hnd as [Hnot Hnd].
    apply negb_true_iff in Hnot.
    cbn [files_wf forallb] in Hwf. apply andb_true_iff in Hwf.
    destruct Hwf as [Hwf1 Hwf].
    destruct (csv_file_budget E name total w Hb Hn Hwf1)
      as (w1 & e1 & Hrun & Htr & Hj & Hother & Hself & R1 & P1).
    cbn zeta in Hrun, Hself, R1, P1.
    set (fl1 := csv_flags E (csv_files w name)) in *.
    assert (Hfl : fl = fl1 ++ files_flags E w rest) by reflexivity.
    assert (Hout : forall p, mem p (name :: rest) = false ->
                             csv_files w1 p = csv_files w p).
    { intros p Hp. cbn [mem existsb] in Hp. apply orb_false_iff in Hp.
      apply Hother. apply String.eqb_neq. tauto. }
    cbn [FixIpoWebpages.csv_files_loop]. unfold bind at 1. rewrite Hrun.
    destruct (Nat.leb_spec n (hits fl1)) as [Hle|Hgt].
    + (* the budget ends in this file *)
      exists w1, e1. subst m. rewrite Hfl, hits_app, (visited_app _ _ Hn).
      replace (n <=? hits fl1)%nat with true by (symmetry; apply Nat.leb_le; lia).
      replace (Nat.min n (hits fl1 + hits (files_flags E w rest))) with n by lia.
      replace (Nat.min n (hits fl1)) with n in * by lia.
      unfold ret. repeat split; try assumption. intro Hlt. lia.
    + replace (Nat.min n (hits fl1)) with (hits fl1) in * by lia.
      replace (n <=? hits fl1)%nat with false in Hself
        by (symmetry; apply Nat.leb_gt; lia).
      assert (Hrest : forall p, mem p rest = true -> csv_files w1 p = csv_files w p).
      { intros p Hp. apply Hother. intros ->. unfold mem in *. congruence. }
      destruct (files_same E w w1 rest Hrest) as [Hsf Hsw].
      destruct (IH (total + hits fl1)%nat (n - hits fl1)%nat w1)
        as (w' & e2 & Hrun2 & Htr2 & Hj2 & Hout2 & Hin2 & R2 & P2);
        [lia | assumption | now rewrite Hsw |].
      cbn zeta in Hrun2, Hin2, R2, P2. rewrite Hsf in Hrun2, Hin2, R2, P2.
      exists w', (e1 ++ e2). subst m. rewrite Hfl, hits_app, (visited_app _ _ Hn).
      replace (n <=? hits fl1)%nat with false by (symmetry; apply Nat.leb_gt; lia).
      rewrite Hrun2. split; [do 3 f_equal; lia|].
      split; [rewrite Htr2, Htr; now rewrite app_assoc|].
      split; [congruence|].
      split; [|split].
      * intros p Hp. rewrite Hout2, Hout; auto.
        cbn [mem existsb] in Hp. apply orb_false_iff in Hp. tauto.
      * intros Hlt p Hp. cbn [mem existsb] in Hp. fold (mem p rest) in Hp.
        destruct (mem p rest) eqn:Hpr.
        -- rewrite (Hin2 ltac:(lia) p Hpr). now rewrite (Hrest p Hpr).
        -- rewrite orb_false_r in Hp. apply String.eqb_eq in Hp. subst p.
           rewrite (Hout2 name Hpr). exact Hself.
      * rewrite !count_app, R1, P1, R2, P2.
        rewrite (visited_short fl1 Hgt). split; lia.
Qed.

Lemma json_typed_items data :
  json_typed (Some data) = true ->
  exists d, data = VDict d
            /\ items_of (get_default "companies" (VList []) d)
               = Some (json_companies_of (Some data))
            /\ forallb typed_company (json_companies_of (Some data)) = true.
Proof.
  unfold json_typed, json_companies_of. destruct data; try discriminate.
  destruct (get_default "companies" (VList []) d) eqn:Hg; try discriminate.
  intro H. exists d. rewrite Hg. repeat split. assumption.
Qed.

(** The JSON part with [n >= 1] replacements left. *)
Lemma json_part_budget E b total n w :
  (1 <= b)%nat -> (1 <= n)%nat -> json_typed (json_file w) = true ->
  let fl := map (json_hit E) (json_companies_of (json_file w)) in
  let m := Nat.min n (hits fl) in
  exists w' evs,
    FixIpoWebpages.json_part E (Z.of_nat b) (total, Z.of_nat n) w
    = (Returns (total + m)%nat, w')
    /\ trace w' = trace w ++ evs
    /\ csv_files w' = csv_files w
    /\ json_file w' = option_map (fixed_json_first E n) (json_file w)
    /\ count is_record evs = visited n fl
    /\ count is_replaced evs = m.
Proof.
  intros Hb Hn Hty fl m.
  destruct (json_part_cases E (Z.of_nat b) (total, Z.of_nat n) w)
    as (o & w' & evs & Hrun & Htr & Hcsv & Hcase).
  exists w', evs. rewrite Hrun. cbn [fst snd] in Hcase.
  assert (Hopen : negb (Z.of_nat b =? 0)%Z && (Z.of_nat n <=? 0)%Z = false).
  { apply andb_false_iff. right. apply Z.leb_gt. lia. }
  destruct Hcase as [(-> & -> & Hj & [Hnone | Hx]) | (data & Hd & _ & Hsub)];
    [|congruence|].
  { subst m fl. rewrite Hj, Hnone. cbn. rewrite Nat.min_0_r, Nat.add_0_r.
    repeat split; assumption. }
  rewrite Hd in Hty. destruct (json_typed_items data Hty) as (d & -> & Hit & Hall).
  subst m fl. rewrite Hd. set (items := json_companies_of (Some (VDict d))) in *.
  set (m := Nat.min n (hits (map (json_hit E) items))).
  destruct Hsub as [(Hno & _) | (d0 & items0 & [= <-] & Hit0 & Hsub)];
    [exfalso; apply (Hno d items eq_refl); exact Hit |].
  rewrite Hit in Hit0. injection Hit0 as <-.
  cbn zeta in Hsub.
  set (st0 := FixIpoWebpages.mkLocals 0 total (Z.of_nat n)) in *.
  assert (Hlim : Z.of_nat b <> 0%Z) by lia.
  destruct (@hit_loop_budget value (Z.of_nat b) (json_hit E) (json_update E) Hlim
              items st0 n eq_refl Hn) as (Hv & Hm & _).
  destruct (hit_loop_fixed (Z.of_nat b) (json_hit E) (json_update E) items st0)
    as (Hf & Ht').
  pose proof (hit_loop_result (Z.of_nat b) (json_hit E) (json_update E) items st0)
    as Hres.
  fold (json_step E (Z.of_nat b)) in Hv, Hm, Hf, Ht', Hres. fold m in Hm.
  cbn zeta in Hres. rewrite Hv in Hres.
  fold (fix_first (json_hit E) (json_update E) n items) in Hres.
  rewrite Hm in Hf, Ht'.
  cbn [FixIpoWebpages.fixed FixIpoWebpages.total_fixed st0] in Hf, Ht'.
  destruct Hsub as [(Hbad & _) | (_ & -> & R & P & Hw)].
  { rewrite (forallb_firstn _ _ _ Hall) in Hbad. discriminate Hbad. }
  rewrite Ht'. rewrite Hm in P. rewrite Hv, firstn_visited_length in R.
  cbn [option_map fixed_json_first]. fold items.
  split; [reflexivity|]. split; [exact Htr|]. split; [exact Hcsv|].
  split; [|split; assumption].
  destruct Hw as [(Hfix & Hj & _) | (_ & Hj & _)].
  - rewrite Hj, Hd. f_equal. f_equal.
    rewrite fix_first_none by (subst m; lia).
    symmetry. now apply with_companies_same.
  - rewrite Hj, Hres. reflexivity.
Qed.

Lemma json_part_exhausted E limit total lr w :
  limit <> 0%Z -> (lr <= 0)%Z ->
  FixIpoWebpages.json_part E limit (total, lr) w = (Returns total, w).
Proof.
  intros Hl Hr. unfold FixIpoWebpages.json_part, json_exists, bind. cbn [snd fst].
  replace (limit =? 0)%Z with false by (symmetry; now apply Z.eqb_neq).
  replace (lr <=? 0)%Z with true by (symmetry; now apply Z.leb_le).
  cbn [negb andb]. rewrite andb_false_r. reflexivity.
Qed.

(** The pass with a budget of [b >= 1]: what it reports, how many
    records it gets to and, when the budget outlasts the CSV files, what
    it leaves in the files. *)
Lemma pass_budget E b w :
  (1 <= b)%nat -> inputs_ok w = true ->
  let cf := files_flags E w FixIpoWebpages.CSVS in
  let m := Nat.min b (hits (all_flags E w)) in
  exists w' evs,
    FixIpoWebpages.pass E (Z.of_nat b) w = (Returns tt, w')
    /\ trace w' = trace w ++ evs ++ [EvPrint (LDone m)]
    /\ count is_replaced evs = m
    /\ count is_record evs = visited b (all_flags E w)
    /\ ((hits cf < b)%nat ->
        (forall name, In name FixIpoWebpages.CSVS ->
                      csv_files w' name
                      = option_map (fixed_table E) (csv_files w name))
        /\ json_file w'
           = option_map (fixed_json_first E (b - hits cf)) (json_file w)).
Proof.
  intros Hb Hok. unfold inputs_ok in Hok. apply andb_true_iff in Hok.
  destruct Hok as [Hwf Hty]. unfold all_flags in *. cbn zeta.
  set (cf := files_flags E w FixIpoWebpages.CSVS) in *.
  set (jf := map (json_hit E) (json_companies_of (json_file w))) in *.
  rewrite hits_app. rewrite (visited_app _ _ Hb).
  destruct (csv_files_loop_budget E Hb FixIpoWebpages.CSVS 0 w Hb nodupb_CSVS Hwf)
    as (w1 & e1 & Hrun1 & Htr1 & Hj1 & _ & Hin1 & R1 & P1).
  cbn zeta in Hrun1, Hin1, R1, P1. fold cf in Hrun1, Hin1, R1, P1.
  cbn [Nat.add] in Hrun1.
  unfold FixIpoWebpages.pass, bind at 1. rewrite Hrun1.
  destruct (Nat.leb_spec b (hits cf)) as [Hle|Hgt].
  - (* the budget ends in the CSV files *)
    replace (Nat.min b (hits cf)) with b in * by lia.
    replace (Nat.min b (hits cf + hits jf)) with b by lia.
    unfold bind at 1. rewrite json_part_exhausted by lia.
    exists (add_events [EvPrint (LDone b)] w1), e1.
    split; [reflexivity|]. split; [cbn; rewrite Htr1; now rewrite <- app_assoc|].
    split; [assumption|]. split; [assumption|]. intro Hlt. lia.
  - replace (Nat.min b (hits cf)) with (hits cf) in * by lia.
    destruct (json_part_budget E (hits cf) (n := b - hits cf) w1 Hb)
      as (w2 & e2 & Hrun2 & Htr2 & Hcsv2 & Hj2 & R2 & P2);
      [lia | now rewrite Hj1 |].
    cbn zeta in Hrun2, R2, P2. rewrite Hj1 in Hrun2, Hj2, R2, P2.
    fold jf in Hrun2, R2, P2.
    replace (hits cf + Nat.min (b - hits cf) (hits jf))%nat
      with (Nat.min b (hits cf + hits jf)) in Hrun2 by lia.
    unfold bind at 1. rewrite Hrun2.
    exists (add_events [EvPrint (LDone (Nat.min b (hits cf + hits jf)))] w2),
           (e1 ++ e2).
    split; [reflexivity|].
    split; [cbn; rewrite Htr2, Htr1; now rewrite <- !app_assoc|].
    rewrite !count_app, R1, P1, R2, P2, (visited_short cf Hgt).
    split; [lia|]. split; [lia|]. intros _. split; [|exact Hj2].
    intros name Hin. cbn [csv_files add_events]. rewrite Hcsv2.
    apply (Hin1 Hgt). now apply mem_In.
Qed.



Lemma csv_update_set E r :
  csv_update E r = set_cell "webpage" (opt_str (csv_answer E r)) r.
Proof. reflexivity. Qed.


(** ** Eligibility in classification mode *)

Lemma asks_count evs b : count is_asking evs = b2n b -> asks evs = b.
Proof.
  unfold asks, count. intro H.
  destruct (existsb is_asking evs) eqn:He.
  - apply existsb_exists in He. destruct He as (ev & Hin & Hev).
    destruct b; [reflexivity|]. exfalso.
    assert (Hf : In ev (filter is_asking evs)) by (apply filter_In; auto).
    destruct (filter is_asking evs); [contradiction | discriminate H].
  - destruct b; [|reflexivity]. exfalso.
    destruct (filter is_asking evs) as [|ev f] eqn:Hf; [discriminate H|].
    assert (Hin : In ev (filter is_asking evs)) by (rewrite Hf; now left).
    apply filter_In in Hin. destruct Hin as [Hin Hev].
    assert (Hex : existsb is_asking evs = true)
      by (apply existsb_exists; eauto).
    congruence.
Qed.

(** C3, as the code has it: a pass of the CSV body asks the resolver
    exactly when the stripped webpage is non-empty, begins with the
    scheme prefix and is classified non-brand, and the row has a brand
    name and a country to strip; when it has not, for a line too short
    to have these cells, the pass ends in [AttributeError] and nothing
    is asked.  A pass of the JSON body over a typed company with a
    non-empty webpage asks exactly when the webpage is classified
    non-brand, with or without the prefix. *)
Theorem classification_eligibility :
  (forall E limit path r st w,
      exists o evs,
        FixIpoWebpages.csv_row E limit path r st w = (o, add_events evs w)
        /\ asks evs = claimed_eligible (csv_url r) && csv_named r
        /\ (o = Raises AttributeError
            <-> claimed_eligible (csv_url r) && negb (csv_named r) = true))
  /\ (forall E limit d st w,
         typed_company (VDict d) = true ->
         PyStr.nonempty (company_url_str d) = true ->
         exists o evs,
           FixIpoWebpages.json_company E limit (VDict d) st w = (o, add_events evs w)
           /\ asks evs = is_non_brand_page (VStr (company_url_str d))).
Proof.
  split.
  - intros E limit path r st w.
    destruct (csv_row_says E limit path r st) as (evs & Hs & _ & Ht & Hf).
    eexists _, evs. split; [apply Hs|].
    unfold typed_row in *.
    destruct (claimed_eligible (csv_url r)), (csv_named r);
      cbn [negb orb andb] in *.
    + split; [apply asks_count; now apply Ht|].
      split; [discriminate | discriminate].
    + rewrite (Hf eq_refl). split; [reflexivity|]. split; reflexivity.
    + split; [apply asks_count; now apply Ht|].
      split; [discriminate | discriminate].
    + split; [apply asks_count; now apply Ht|].
      split; [discriminate | discriminate].
  - intros E limit d st w Hty Hne.
    destruct (json_company_says E limit (VDict d) st) as (evs & Hs & _ & Ht).
    destruct (Ht Hty) as (_ & Ha & _).
    eexists _, evs. split; [apply Hs|].
    apply asks_count. rewrite Ha. f_equal.
    unfold json_asked, company_needs_fix. now rewrite Hne.
Qed.

Lemma classification_eligibility_witness :
  exists o evs,
    FixIpoWebpages.json_company Example.E 0 (VDict Example.no_scheme)
      Example.st0 Example.w = (o, add_events evs Example.w)
    /\ asks evs = is_non_brand_page (VStr (company_url_str Example.no_scheme)).
Proof.
  apply (proj2 classification_eligibility Example.E 0%Z Example.no_scheme
               Example.st0 Example.w); reflexivity.
Defined.

(** C3, as it is stated, fails on a JSON company whose webpage is
    flagged but has no scheme prefix: the resolver is asked. *)
Lemma json_scheme_counterexample :
  let evs := trace (snd (FixIpoWebpages.json_company Example.E 0
                           (VDict Example.no_scheme) Example.st0 Example.w)) in
  PyStr.nonempty (company_url_str Example.no_scheme) = true
  /\ asks evs <> claimed_eligible (company_url_str Example.no_scheme).
Proof. vm_compute. split; [reflexivity | discriminate]. Qed.

(** ** Runs on the example *)

(** C1 fails on the code: with a budget of one, the first flagged row of
    the CSV file is replaced and the run ends without writing the file,
    which keeps the old webpage; the same budget used up in the JSON
    file does lead to its write. *)
Theorem budget_exhaustion_skips_csv_save :
  (let r := FixIpoWebpages.main Example.E 1 Example.w in
   fst r = Returns tt
   /\ count is_replaced (trace (snd r)) = 1%nat
   /\ writes (trace (snd r)) = []
   /\ csv_files (snd r) "CDC_midbln.csv" = Some Example.table)
  /\ (let r := FixIpoWebpages.main Example.E 1 Example.json_only in
      fst r = Returns tt
      /\ count is_replaced (trace (snd r)) = 1%nat
      /\ writes (trace (snd r)) = [JSON_NAME]).
Proof. vm_compute. repeat split. Qed.


Lemma liveness_revalidation_witness :
  exists fixed failed w' cs',
    VerifyWebpages.pass Example.E Example.w = (Returns (fixed, failed), w')
    /\ json_file w' = Some (VDict (dict_set "companies" (VList cs') Example.data))
    /\ List.length cs' = 3%nat
    /\ nth_error cs' 1
       = Some (VDict (dict_set "webpage" (VStr "https://www.acme.com")
                        Example.dead_page)).
Proof.
  destruct (@liveness_revalidation Example.E Example.w Example.data
              [VDict Example.no_scheme; VDict Example.dead_page; VDict Example.listed]
              1 Example.dead_page "https://old.bolt.example/" "https://www.acme.com"
              eq_refl eq_refl eq_refl eq_refl eq_refl eq_refl
              ltac:(vm_compute; left; reflexivity)
              ltac:(vm_compute; reflexivity))
    as (fixed & failed & w' & cs' & Hrun & Hfile & Hlen & Hlive & _).
  exists fixed, failed, w', cs'. repeat split; try assumption.
  apply Hlive.
  replace (status_of Example.E "https://www.acme.com" 10) with 200%Z
    by (vm_compute; reflexivity).
  split; [intros [H|[H|[]]]; discriminate H | lia].
Defined.


Lemma write_policy_witness :
  exists evs fixed failed,
    trace (snd (VerifyWebpages.main Example.E Example.json_only))
    = trace Example.json_only ++ evs
      ++ [EvWrite JSON_NAME; EvPrint (LStillBroken fixed failed)]
    /\ writes evs = []
    /\ (fixed = 0%nat ->
        json_file (snd (VerifyWebpages.main Example.E Example.json_only))
        = json_file Example.json_only).
Proof.
  apply (proj1 write_policy Example.E Example.json_only
               (snd (VerifyWebpages.main Example.E Example.json_only))).
  vm_compute. reflexivity.
Defined.


(** C10, as it is stated, fails when the resolver answers with the
    webpage the record already has: the record counts as replaced, the
    file is written, and no record of it has changed. *)
Lemma same_page_write_counterexample :
  let r := FixIpoWebpages.main Example.E_same 0 Example.w_one_row in
  fst r = Returns tt
  /\ writes (trace (snd r)) = ["CDC_midbln.csv"]
  /\ count is_replaced (trace (snd r)) = 1%nat
  /\ csv_files (snd r) "CDC_midbln.csv" = Some Example.one_row
  /\ csv_files Example.w_one_row "CDC_midbln.csv" = Some Example.one_row.
Proof. vm_compute. repeat split. Qed.

(** * Properties of the configuration and of the maintenance scripts *)

(** ** [configix] *)

Lemma is_object_load F dir file_name :
  Configix.load_config F dir file_name
  = match config_file F dir file_name with
    | Some (Json v) => inr v
    | _ => inl Configix.Exception
    end.
Proof.
  unfold Configix.load_config.
  destruct (config_file F dir file_name) as [[v|]|]; reflexivity.
Qed.

Lemma load_complete F dir :
  Configix.config_dir F = Some dir -> complete F dir = true ->
  Configix.load F
  = inr (Configix.mkGlobals
           [("ai_gemini", Configix.mkEntry "Gemini" (gemini_in F dir)
                            (match config_file F dir "config_gemini.json" with
                             | Some (Json v) => v | _ => VNone end));
            ("ai_grok", Configix.mkEntry "Grok"
                          (file_key (config_file F dir "config_grok.json") "grok_api_key")
                          (match config_file F dir "config_grok.json" with
                           | Some (Json v) => v | _ => VNone end));
            ("ai_openai", Configix.mkEntry "OpenAI" (openai_in F dir)
                            (match config_file F dir "config_openai.json" with
                             | Some (Json v) => v | _ => VNone end))]
           "ai_openai").
Proof.
  intros Hdir Hc. unfold Configix.load. rewrite Hdir.
  unfold complete in Hc. unfold gemini_in, openai_in.
  rewrite !is_object_load.
  destruct (config_file F dir "config_gemini.json") as [[[]|]|]; try discriminate Hc.
  destruct (config_file F dir "config_grok.json") as [[[]|]|]; try discriminate Hc.
  destruct (config_file F dir "config_openai.json") as [[[]|]|]; try discriminate Hc.
  reflexivity.
Qed.

Lemma load_inv F g :
  Configix.load F = inr g ->
  exists dir, Configix.config_dir F = Some dir /\ complete F dir = true.
Proof.
  unfold Configix.load. destruct (Configix.config_dir F) as [dir|]; [|discriminate].
  intro H. exists dir. split; [reflexivity|].
  unfold complete. rewrite !is_object_load in H.
  destruct (config_file F dir "config_gemini.json") as [[[]|]|]; try discriminate H;
  destruct (config_file F dir "config_grok.json") as [[[]|]|]; try discriminate H;
  destruct (config_file F dir "config_openai.json") as [[[]|]|]; try discriminate H;
  reflexivity.
Qed.

(** X1: importing the package succeeds exactly when the first directory
    that exists among [S/config], [C:/12_CODINGHARD/config] and
    [S/../../config] holds the three files [config_gemini.json],
    [config_grok.json] and [config_openai.json], each a JSON object; a
    later directory is not tried when that one is incomplete. *)
Theorem configix_import_needs_three_files F :
  Configix.config_dir F
  = find (dir_exists F) [LocalConfig; WindowsConfig; GrandparentConfig]
  /\ ((exists g, Configix.load F = inr g)
      <-> exists dir, Configix.config_dir F = Some dir /\ complete F dir = true).
Proof.
  split.
  - unfold Configix.config_dir. cbn [find].
    destruct (dir_exists F LocalConfig) eqn:HL; cbn [negb]; [now rewrite HL|].
    destruct (dir_exists F WindowsConfig) eqn:HW; cbn [negb]; [now rewrite HW|].
    destruct (dir_exists F GrandparentConfig); reflexivity.
  - split.
    + intros [g Hg]. eapply load_inv; eassumption.
    + intros (dir & Hdir & Hc). eexists. apply load_complete; eassumption.
Qed.

Lemma known_loaded F g p :
  Configix.load F = inr g -> Configix.known p g = mem p PROVIDERS.
Proof.
  intro H. destruct (@load_inv F g H) as (dir & Hdir & Hc).
  rewrite (@load_complete F dir Hdir Hc) in H. injection H as <-. reflexivity.
Qed.

Lemma subscript_known g p :
  Configix.known p g = true -> exists e, Configix.subscript p g = inr e.
Proof.
  unfold Configix.known, Configix.subscript, keys.
  induction (Configix.ai_providers g) as [|[k v] d IH]; cbn; [discriminate|].
  destruct (String.eqb p k); [eexists; reflexivity|]. exact IH.
Qed.

Lemma last_default {A} (l : list A) a d d' : last (a :: l) d = last (a :: l) d'.
Proof.
  revert a. induction l as [|b l IH]; intro a; [reflexivity|].
  change (last (b :: l) d = last (b :: l) d'). apply IH.
Qed.

Lemma switches_state F g : Configix.load F = inr g -> forall ps g0,
  Configix.ai_providers g0 = Configix.ai_providers g ->
  Configix.known (Configix.current_ai_provider g0) g = true ->
  let g' := Configix.switches ps g0 in
  Configix.ai_providers g' = Configix.ai_providers g
  /\ Configix.current_ai_provider g'
     = last (filter (fun p => mem p PROVIDERS) ps) (Configix.current_ai_provider g0).
Proof.
  intro Hload. induction ps as [|p ps IH]; intros g0 Hprov Hcur; cbn zeta.
  - split; [assumption | reflexivity].
  - cbn [Configix.switches filter]. unfold Configix.switch_ai_provider.
    assert (Hk : Configix.known p g0 = mem p PROVIDERS).
    { unfold Configix.known. rewrite Hprov. apply (@known_loaded F g p Hload). }
    rewrite Hk. destruct (mem p PROVIDERS) eqn:Hp; cbn [snd].
    + destruct (IH (Configix.mkGlobals (Configix.ai_providers g0) p)) as [H1 H2].
      * exact Hprov.
      * cbn. rewrite (@known_loaded F g p Hload). exact Hp.
      * split; [exact H1|]. rewrite H2. cbn [Configix.current_ai_provider].
        destruct (filter (fun p0 => mem p0 PROVIDERS) ps) as [|a l]; [reflexivity|].
        change (last (a :: l) p = last (a :: l) (Configix.current_ai_provider g0)).
        apply last_default.
    + apply IH; assumption.
Qed.

(** X2: after any sequence of [switch_ai_provider] calls, accepted or
    rejected, the current provider is the last accepted request
    ([ai_openai] when none was), so [get_current_ai] returns the entry
    [get_ai_provider] gives for it and never fails; a rejected request
    raises [ValueError] and leaves the state as it was. *)
Theorem current_provider_is_last_accepted F g ps :
  Configix.load F = inr g ->
  let g' := Configix.switches ps g in
  let p := last (filter (fun p => mem p PROVIDERS) ps) "ai_openai" in
  (exists e, Configix.get_current_ai g' = inr e
             /\ Configix.get_ai_provider p g = inr e)
  /\ (forall q, mem q PROVIDERS = false ->
                Configix.switch_ai_provider q g' = (inl (Configix.ValueError q), g')).
Proof.
  intros Hload g' p.
  assert (Hcur0 : Configix.current_ai_provider g = "ai_openai").
  { destruct (@load_inv F g Hload) as (dir & Hdir & Hc).
    rewrite (@load_complete F dir Hdir Hc) in Hload. injection Hload as <-.
    reflexivity. }
  destruct (@switches_state F g Hload ps g eq_refl) as [Hprov Hcur].
  { rewrite Hcur0. rewrite (@known_loaded F g _ Hload). reflexivity. }
  fold g' in Hprov, Hcur. rewrite Hcur0 in Hcur. fold p in Hcur.
  assert (Hp : mem p PROVIDERS = true).
  { subst p. clear. induction ps as [|q ps IH]; [reflexivity|].
    cbn [filter]. destruct (mem q PROVIDERS) eqn:Hq; [|exact IH].
    destruct (filter (fun p => mem p PROVIDERS) ps) as [|a l] eqn:Hf; [exact Hq|].
    change (last (q :: a :: l) "ai_openai") with (last (a :: l) "ai_openai").
    exact IH. }
  split.
  - assert (Hk : Configix.known p g = true) by now rewrite (@known_loaded F g p Hload).
    destruct (@subscript_known g p Hk) as [e He]. exists e. split.
    + unfold Configix.get_current_ai. rewrite Hcur.
      unfold Configix.subscript in *. now rewrite Hprov.
    + unfold Configix.get_ai_provider. now rewrite Hk.
  - intros q Hq. unfold Configix.switch_ai_provider, Configix.known.
    rewrite Hprov. fold (Configix.known q g). rewrite (@known_loaded F g q Hload), Hq.
    reflexivity.
Qed.

Lemma current_provider_is_last_accepted_witness :
  let g := Configix.mkGlobals
             [("ai_gemini", Configix.mkEntry "Gemini" (VStr "g-test")
                              ExampleConfig.gemini_json);
              ("ai_grok", Configix.mkEntry "Grok" VNone ExampleConfig.grok_json);
              ("ai_openai", Configix.mkEntry "OpenAI" (VStr "sk-test")
                              ExampleConfig.openai_json)]
             "ai_openai" in
  let g' := Configix.switches ["ai_grok"; "nope"; "ai_gemini"; "AI_GROK"] g in
  (exists e, Configix.get_current_ai g' = inr e
             /\ Configix.get_ai_provider "ai_gemini" g = inr e)
  /\ (forall q, mem q PROVIDERS = false ->
                Configix.switch_ai_provider q g' = (inl (Configix.ValueError q), g')).
Proof.
  exact (@current_provider_is_last_accepted ExampleConfig.local_only _
           ["ai_grok"; "nope"; "ai_gemini"; "AI_GROK"] eq_refl).
Defined.


(** ** [get_ai_keys] *)

Lemma load_openai_run F dir w :
  _load_openai_key F dir w
  = (match config_file F dir "config_openai.json" with
     | None => Returns VNone
     | Some NotJson => Raises ValueError
     | Some (Json (VDict d)) => Returns (get_default "openai_api_key" VNone d)
     | Some (Json _) => Raises AttributeError
     end, w).
Proof.
  unfold _load_openai_key.
  destruct (config_file F dir "config_openai.json") as [[[]|]|]; reflexivity.
Qed.

Lemma load_gemini_run F dir w :
  _load_gemini_key F dir w
  = (match config_file F dir "config_gemini.json" with
     | None => Returns VNone
     | Some NotJson => Raises ValueError
     | Some (Json (VDict d)) => Returns (get_default "ITEM" VNone d)
     | Some (Json _) => Raises AttributeError
     end, w).
Proof.
  unfold _load_gemini_key.
  destruct (config_file F dir "config_gemini.json") as [[[]|]|]; reflexivity.
Qed.

Lemma load_openai_ok F dir w :
  loadable (config_file F dir "config_openai.json") = true ->
  _load_openai_key F dir w = (Returns (openai_in F dir), w).
Proof.
  rewrite load_openai_run. unfold openai_in, file_key.
  destruct (config_file F dir "config_openai.json") as [[[]|]|];
    first [reflexivity | intro H; discriminate H].
Qed.

Lemma load_gemini_ok F dir w :
  loadable (config_file F dir "config_gemini.json") = true ->
  _load_gemini_key F dir w = (Returns (gemini_in F dir), w).
Proof.
  rewrite load_gemini_run. unfold gemini_in, file_key.
  destruct (config_file F dir "config_gemini.json") as [[[]|]|];
    first [reflexivity | intro H; discriminate H].
Qed.

(** A loader returns the key of its file or raises, and changes
    nothing. *)
Lemma load_openai_cases F dir w :
  (exists e, _load_openai_key F dir w = (Raises e, w))
  \/ _load_openai_key F dir w = (Returns (openai_in F dir), w).
Proof.
  rewrite load_openai_run. unfold openai_in, file_key.
  destruct (config_file F dir "config_openai.json") as [[[]|]|];
    first [right; reflexivity | left; eexists; reflexivity].
Qed.

Lemma load_gemini_cases F dir w :
  (exists e, _load_gemini_key F dir w = (Raises e, w))
  \/ _load_gemini_key F dir w = (Returns (gemini_in F dir), w).
Proof.
  rewrite load_gemini_run. unfold gemini_in, file_key.
  destruct (config_file F dir "config_gemini.json") as [[[]|]|];
    first [right; reflexivity | left; eexists; reflexivity].
Qed.

(** The loop goes over the directories that exist. *)
Lemma bases_loop_existing F : forall bases keys w,
  bases_loop F bases keys w = bases_loop F (filter (dir_exists F) bases) keys w.
Proof.
  induction bases as [|base rest IH]; intros keys w; [reflexivity|].
  cbn [bases_loop filter]. destruct (dir_exists F base) eqn:Hb.
  - cbn [bases_loop]. rewrite Hb. unfold bind.
    destruct (or_else (fst keys) (_load_openai_key F base) w) as [[o|e] w1]; [|reflexivity].
    destruct (or_else (snd keys) (_load_gemini_key F base) w1) as [[g|e] w2]; [|reflexivity].
    apply IH.
  - apply IH.
Qed.

Lemma bases_loop_cons F base rest keys w :
  bases_loop F (base :: rest) keys w
  = (if dir_exists F base then
       openai_key <- or_else (fst keys) (_load_openai_key F base) ;;
       gemini_key <- or_else (snd keys) (_load_gemini_key F base) ;;
       bases_loop F rest (openai_key, gemini_key)
     else bases_loop F rest keys) w.
Proof. reflexivity. Qed.

(** With both keys found the loop reads nothing more. *)
Lemma bases_loop_found F : forall bases a b w,
  truthy a = true -> truthy b = true ->
  bases_loop F bases (a, b) w = (Returns (a, b), w).
Proof.
  induction bases as [|base rest IH]; intros a b w Ha Hb; [reflexivity|].
  cbn [bases_loop fst snd]. destruct (dir_exists F base); [|now apply IH].
  unfold bind, or_else. rewrite Ha, Hb. unfold ret. now apply IH.
Qed.

(** The loop when every key file can be loaded. *)
Lemma bases_loop_ok F : forall bases a b w,
  forallb (fun base =>
             negb (dir_exists F base)
             || (loadable (config_file F base "config_openai.json")
                 && loadable (config_file F base "config_gemini.json")))
          bases = true ->
  bases_loop F bases (a, b) w
  = (Returns (or_chain a (map (openai_in F) (filter (dir_exists F) bases)),
              or_chain b (map (gemini_in F) (filter (dir_exists F) bases))), w).
Proof.
  induction bases as [|base rest IH]; intros a b w Hok; [reflexivity|].
  cbn [forallb] in Hok. apply andb_true_iff in Hok. destruct Hok as [H1 Hok].
  cbn [bases_loop filter fst snd]. destruct (dir_exists F base); [|now apply IH].
  cbn [negb orb] in H1. apply andb_true_iff in H1. destruct H1 as [Ho Hg].
  cbn [map or_chain]. unfold bind, or_else.
  destruct (truthy a).
  - unfold ret at 1. destruct (truthy b).
    + unfold ret at 1. now apply IH.
    + rewrite (load_gemini_ok F base w Hg). now apply IH.
  - rewrite (load_openai_ok F base w Ho). destruct (truthy b).
    + unfold ret at 1. now apply IH.
    + rewrite (load_gemini_ok F base w Hg). now apply IH.
Qed.

(** A key that is set is kept by the [try] block. *)
Lemma configix_keeps_openai F o g :
  truthy o = true -> fst (configix_keys F (o, g)) = o.
Proof.
  intro Ho. unfold configix_keys. destruct (Configix.load F) as [e|cfg]; [reflexivity|].
  unfold or_provider at 1. rewrite Ho.
  destruct (or_provider g (provider_key cfg "ai_gemini")); reflexivity.
Qed.

Lemma configix_keeps_gemini F o g :
  truthy g = true -> snd (configix_keys F (o, g)) = g.
Proof.
  intro Hg. unfold configix_keys. destruct (Configix.load F) as [e|cfg]; [reflexivity|].
  destruct (or_provider o (provider_key cfg "ai_openai")) as [e|o']; [reflexivity|].
  unfold or_provider. now rewrite Hg.
Qed.

Lemma configix_keys_failed F keys :
  (forall cfg, Configix.load F <> inr cfg) -> configix_keys F keys = keys.
Proof.
  intro H. unfold configix_keys. destruct keys as [o g].
  destruct (Configix.load F) as [e|cfg]; [reflexivity|]. now destruct (H cfg).
Qed.

(** X3: when every key file of the directories that exist can be loaded
    (it is missing or holds a JSON object), [get_ai_keys] returns; a key
    that some directory sets is the first set one in the order
    [S/../config], [C:/12_CODINGHARD/config], [S/config], whatever the
    package holds; and when the package cannot be imported the keys are
    what the directories gave. *)
Theorem get_ai_keys_precedence F w :
  configs_ok F = true ->
  let from_dirs := (or_chain VNone (map (openai_in F) (existing F)),
                    or_chain VNone (map (gemini_in F) (existing F))) in
  exists openai_key gemini_key,
    get_ai_keys F w = (Returns (openai_key, gemini_key), w)
    /\ (truthy (fst from_dirs) = true -> openai_key = fst from_dirs)
    /\ (truthy (snd from_dirs) = true -> gemini_key = snd from_dirs)
    /\ ((forall cfg, Configix.load F <> inr cfg) ->
        (openai_key, gemini_key) = from_dirs).
Proof.
  intros Hok from_dirs. unfold get_ai_keys, bind.
  rewrite (bases_loop_ok F BASES VNone VNone w Hok). fold (existing F).
  change (or_chain VNone (map (openai_in F) (existing F)),
          or_chain VNone (map (gemini_in F) (existing F))) with from_dirs.
  unfold ret.
  exists (fst (configix_keys F from_dirs)), (snd (configix_keys F from_dirs)).
  rewrite <- surjective_pairing. split; [reflexivity|].
  split; [|split].
  - intro H. subst from_dirs. now apply configix_keeps_openai.
  - intro H. subst from_dirs. now apply configix_keeps_gemini.
  - intro H. now rewrite configix_keys_failed.
Qed.

Lemma get_ai_keys_precedence_witness :
  exists openai_key gemini_key,
    get_ai_keys ExampleConfig.parent_only ExampleConfig.w
    = (Returns (openai_key, gemini_key), ExampleConfig.w)
    /\ (truthy (VStr "sk-test") = true -> openai_key = VStr "sk-test")
    /\ (truthy (VStr "g-test") = true -> gemini_key = VStr "g-test")
    /\ ((forall cfg, Configix.load ExampleConfig.parent_only <> inr cfg) ->
        (openai_key, gemini_key) = (VStr "sk-test", VStr "g-test")).
Proof.
  exact (@get_ai_keys_precedence ExampleConfig.parent_only ExampleConfig.w eq_refl).
Defined.

(** X4: when [S/../config] exists and its two key files set both keys,
    these are the keys: nothing else is read, so neither a file of a
    later directory that cannot be loaded nor the package changes the
    result. *)
Theorem first_directory_decides F w d1 d2 :
  dir_exists F ParentConfig = true ->
  config_file F ParentConfig "config_openai.json" = Some (Json (VDict d1)) ->
  config_file F ParentConfig "config_gemini.json" = Some (Json (VDict d2)) ->
  truthy (get_default "openai_api_key" VNone d1) = true ->
  truthy (get_default "ITEM" VNone d2) = true ->
  get_ai_keys F w
  = (Returns (get_default "openai_api_key" VNone d1, get_default "ITEM" VNone d2), w).
Proof.
  intros He Ho Hg To Tg. unfold get_ai_keys, BASES, bind at 1.
  rewrite bases_loop_cons, He. cbn [fst snd]. unfold bind at 1.
  unfold or_else at 1. cbn [truthy]. rewrite load_openai_run, Ho.
  unfold bind at 1. unfold or_else at 1. cbn [truthy]. rewrite load_gemini_run, Hg.
  rewrite bases_loop_found by assumption. unfold ret. f_equal. f_equal.
  rewrite (surjective_pairing (configix_keys F _)).
  now rewrite configix_keeps_openai, configix_keeps_gemini.
Qed.

Lemma first_directory_decides_witness :
  get_ai_keys ExampleConfig.parent_only ExampleConfig.w
  = (Returns (VStr "sk-test", VStr "g-test"), ExampleConfig.w).
Proof.
  exact (@first_directory_decides ExampleConfig.parent_only ExampleConfig.w
           [("openai_api_key", VStr "sk-test")] [("ITEM", VStr "g-test")]
           eq_refl eq_refl eq_refl eq_refl eq_refl).
Defined.

(** X5: a key file that is there but holds no JSON object, in the first
    directory that exists, ends [get_ai_keys] with an exception
    ([ValueError] from [json.load], [AttributeError] from [.get]); the
    [try] around the package does not cover the directories. *)
Theorem unloadable_key_file_is_fatal F w dir rest t :
  existing F = dir :: rest ->
  config_file F dir "config_openai.json" = Some t ->
  is_object (Some t) = false ->
  get_ai_keys F w
  = (Raises match t with NotJson => ValueError | Json _ => AttributeError end, w).
Proof.
  intros Hex Hf Hobj. unfold get_ai_keys, bind at 1.
  rewrite bases_loop_existing. fold (existing F). rewrite Hex.
  assert (Hd : dir_exists F dir = true).
  { assert (Hin : In dir (existing F)) by (rewrite Hex; now left).
    unfold existing in Hin. apply filter_In in Hin. tauto. }
  cbn [bases_loop fst snd]. rewrite Hd. unfold bind at 1.
  unfold or_else at 1. cbn [truthy]. rewrite load_openai_run, Hf.
  destruct t as [[]|]; first [reflexivity | discriminate Hobj].
Qed.

Lemma unloadable_key_file_is_fatal_witness :
  get_ai_keys ExampleConfig.broken ExampleConfig.w
  = (Raises ValueError, ExampleConfig.w).
Proof.
  exact (@unloadable_key_file_is_fatal ExampleConfig.broken ExampleConfig.w
           ParentConfig [] NotJson eq_refl eq_refl eq_refl).
Defined.

(** After a directory, each key is set or is what the directory
    holds. *)
Lemma loop_step_cases F base a b w :
  (exists e, 
      (o <- or_else a (_load_openai_key F base) ;;
       g <- or_else b (_load_gemini_key F base) ;;
       ret (o, g)) w = (Raises e, w))
  \/ exists o g,
      (o <- or_else a (_load_openai_key F base) ;;
       g <- or_else b (_load_gemini_key F base) ;;
       ret (o, g)) w = (Returns (o, g), w)
      /\ (truthy o = true \/ o = openai_in F base)
      /\ (truthy g = true \/ g = gemini_in F base).
Proof.
  unfold bind, or_else, ret.
  destruct (truthy a) eqn:Ha, (truthy b) eqn:Hb; cbn beta iota.
  - right. exists a, b. split; [reflexivity | auto].
  - destruct (load_gemini_cases F base w) as [[e ->] | ->].
    + left. eexists. reflexivity.
    + right. exists a, (gemini_in F base). split; [reflexivity | auto].
  - destruct (load_openai_cases F base w) as [[e ->] | ->].
    + left. eexists. reflexivity.
    + right. exists (openai_in F base), b. split; [reflexivity | auto].
  - destruct (load_openai_cases F base w) as [[e ->] | ->].
    + left. eexists. reflexivity.
    + destruct (load_gemini_cases F base w) as [[e ->] | ->].
      * left. eexists. reflexivity.
      * right. exists (openai_in F base), (gemini_in F base).
        split; [reflexivity | auto].
Qed.

Lemma bases_loop_last F : forall dirs a b w dir,
  Forall (fun d => dir_exists F d = true) dirs ->
  (truthy a = true \/ a = openai_in F dir) ->
  (truthy b = true \/ b = gemini_in F dir) ->
  (exists e, bases_loop F dirs (a, b) w = (Raises e, w))
  \/ exists o g,
      bases_loop F dirs (a, b) w = (Returns (o, g), w)
      /\ (truthy o = true \/ o = openai_in F (last dirs dir))
      /\ (truthy g = true \/ g = gemini_in F (last dirs dir)).
Proof.
  induction dirs as [|d dirs IH]; intros a b w dir Hall Ha Hb.
  - right. exists a, b. auto.
  - inversion Hall as [|? ? Hd Hrest]; subst.
    cbn [bases_loop fst snd]. rewrite Hd.
    destruct (loop_step_cases F d a b w) as [[e He] | (o & g & Hs & Ho & Hg)].
    + left. exists e. unfold bind in *.
      destruct (or_else a (_load_openai_key F d) w) as [[o|e1] w1]; [|exact He].
      destruct (or_else b (_load_gemini_key F d) w1) as [[g|e2] w2]; [|exact He].
      discriminate He.
    + assert (Hrun : bases_loop F (d :: dirs) (a, b) w = bases_loop F dirs (o, g) w).
      { cbn [bases_loop fst snd]. rewrite Hd. unfold bind in *.
        destruct (or_else a (_load_openai_key F d) w) as [[o1|e1] w1]; [|discriminate Hs].
        destruct (or_else b (_load_gemini_key F d) w1) as [[g1|e2] w2]; [|discriminate Hs].
        unfold ret in Hs. now injection Hs as -> -> ->. }
      cbn [bases_loop fst snd] in Hrun. rewrite Hd in Hrun. rewrite Hrun.
      destruct (IH o g w d Hrest Ho Hg) as [[e He] | (o' & g' & Hs' & Ho' & Hg')].
      * left. now exists e.
      * right. exists o', g'. split; [exact Hs'|].
        assert (Hl : last (d :: dirs) dir = last dirs d).
        { destruct dirs as [|d' dirs']; [reflexivity|].
          change (last (d' :: dirs') dir = last (d' :: dirs') d). apply last_default. }
        rewrite Hl. auto.
Qed.

(** The package gives what its directory holds. *)
Lemma provider_keys_loaded F cfg dir :
  Configix.load F = inr cfg -> Configix.config_dir F = Some dir ->
  provider_key cfg "ai_openai" = inr (openai_in F dir)
  /\ provider_key cfg "ai_gemini" = inr (gemini_in F dir).
Proof.
  intros Hload Hdir. destruct (@load_inv F cfg Hload) as (dir' & Hdir' & Hc).
  rewrite Hdir in Hdir'. injection Hdir' as <-.
  rewrite (@load_complete F dir Hdir Hc) in Hload. injection Hload as <-.
  split; reflexivity.
Qed.

Lemma configix_idle_at F dir o g :
  Configix.config_dir F = Some dir ->
  (truthy o = true \/ o = openai_in F dir) ->
  (truthy g = true \/ g = gemini_in F dir) ->
  configix_keys F (o, g) = (o, g).
Proof.
  intros Hdir Ho Hg. unfold configix_keys.
  destruct (Configix.load F) as [e|cfg] eqn:Hload; [reflexivity|].
  destruct (@provider_keys_loaded F cfg dir Hload Hdir) as [-> ->].
  unfold or_provider.
  destruct (truthy o) eqn:To, (truthy g) eqn:Tg; try reflexivity.
  - destruct Hg as [Hg|Hg]; [discriminate Hg | now rewrite <- Hg].
  - destruct Ho as [Ho|Ho]; [discriminate Ho | now rewrite <- Ho].
  - destruct Ho as [Ho|Ho]; [discriminate Ho|].
    destruct Hg as [Hg|Hg]; [discriminate Hg|]. now rewrite <- Ho, <- Hg.
Qed.

(** X6: when [S/config] or [C:/12_CODINGHARD/config] exists, the package
    adds nothing: it reads the directory the loop read last, so
    [get_ai_keys] returns (or raises) what the loop over the
    directories does. *)
Theorem configix_fallback_is_idle F w :
  dir_exists F LocalConfig = true \/ dir_exists F WindowsConfig = true ->
  get_ai_keys F w = bases_loop F BASES (VNone, VNone) w.
Proof.
  intro Hex.
  assert (Hlast : exists dir,
             Configix.config_dir F = Some dir
             /\ last (existing F) ParentConfig = dir
             /\ existing F <> []).
  { unfold Configix.config_dir, existing, BASES. cbn [filter].
    destruct (dir_exists F LocalConfig) eqn:HL.
    - exists LocalConfig. cbn [negb]. rewrite HL. cbn [negb].
      split; [reflexivity|].
      destruct (dir_exists F ParentConfig), (dir_exists F WindowsConfig);
        split; first [reflexivity | discriminate].
    - destruct Hex as [Hex|HW]; [discriminate Hex|].
      exists WindowsConfig. cbn [negb]. rewrite HW. cbn [negb]. rewrite HW. cbn [negb].
      split; [reflexivity|].
      destruct (dir_exists F ParentConfig); split; first [reflexivity | discriminate]. }
  destruct Hlast as (dir & Hdir & Hl & Hne).
  unfold get_ai_keys, bind. rewrite bases_loop_existing. fold (existing F).
  assert (Hall : Forall (fun d => dir_exists F d = true) (existing F)).
  { apply Forall_forall. intros d Hd. unfold existing in Hd.
    apply filter_In in Hd. tauto. }
  destruct (existing F) as [|d0 dirs] eqn:Hdirs; [now destruct Hne|].
  pose proof (Forall_inv Hall) as Hd0. pose proof (Forall_inv_tail Hall) as Hrest.
  cbn beta in Hd0.
  cbn [bases_loop fst snd]. rewrite Hd0.
  destruct (loop_step_cases F d0 VNone VNone w) as [[e He] | (o & g & Hs & Ho & Hg)].
  - unfold bind in *.
    destruct (or_else VNone (_load_openai_key F d0) w) as [[o|e1] w1]; [|reflexivity].
    destruct (or_else VNone (_load_gemini_key F d0) w1) as [[g|e2] w2]; [|reflexivity].
    discriminate He.
  - unfold bind in *.
    destruct (or_else VNone (_load_openai_key F d0) w) as [[o1|e1] w1]; [|discriminate Hs].
    destruct (or_else VNone (_load_gemini_key F d0) w1) as [[g1|e2] w2]; [|discriminate Hs].
    unfold ret in Hs. injection Hs as -> -> ->.
    destruct (@bases_loop_last F dirs o g w d0 Hrest Ho Hg)
      as [[e He] | (o' & g' & Hs' & Ho' & Hg')].
    + now rewrite He.
    + rewrite Hs'. unfold ret. f_equal. f_equal.
      assert (Hl' : last dirs d0 = dir).
      { rewrite <- Hl. destruct dirs as [|d' dirs']; [reflexivity|].
        change (last (d' :: dirs') d0 = last (d' :: dirs') ParentConfig).
        apply last_default. }
      rewrite Hl' in Ho', Hg'.
      now apply (@configix_idle_at F dir).
Qed.

Lemma configix_fallback_is_idle_witness :
  get_ai_keys ExampleConfig.local_only ExampleConfig.w
  = bases_loop ExampleConfig.local_only BASES (VNone, VNone) ExampleConfig.w.
Proof.
  exact (@configix_fallback_is_idle ExampleConfig.local_only ExampleConfig.w
           (or_introl eq_refl)).
Defined.

(** ** [merge_webpages.py] *)

Lemma lstrip_head s :
  PyStr.lstrip s = EmptyString
  \/ exists c s', PyStr.lstrip s = String c s' /\ PyStr.isspace c = false.
Proof.
  induction s as [|c s IH]; [now left|].
  simpl. destruct (PyStr.isspace c) eqn:Hc; [exact IH|].
  right. now exists c, s.
Qed.

Lemma rstrip_head c s :
  PyStr.isspace c = false -> exists r, PyStr.rstrip (String c s) = String c r.
Proof.
  intro Hc. simpl. destruct (PyStr.rstrip s); rewrite ?Hc; eexists; reflexivity.
Qed.

Lemma strip_idem s : PyStr.strip (PyStr.strip s) = PyStr.strip s.
Proof.
  unfold PyStr.strip at 2 3.
  destruct (lstrip_head s) as [-> | (c & s' & -> & Hc)]; [reflexivity|].
  destruct (@rstrip_head c s' Hc) as [r Hr]. unfold PyStr.strip.
  rewrite Hr. cbn [PyStr.lstrip]. rewrite Hc. rewrite <- Hr. apply rstrip_idem.
Qed.

Lemma merge_rows_app a : forall b acc,
  merge_rows (a ++ b) acc = merge_rows b (merge_rows a acc).
Proof.
  induction a as [|r a IH]; intros b acc; [reflexivity|]. cbn. apply IH.
Qed.

Lemma merge_row_get brand r acc :
  dict_get brand (merge_row r acc)
  = if row_usable r && String.eqb (row_brand r) brand
    then Some (row_url r) else dict_get brand acc.
Proof.
  unfold merge_row. destruct (row_usable r); cbn [andb]; [|reflexivity].
  destruct (String.eqb (row_brand r) brand) eqn:He.
  - apply String.eqb_eq in He. subst brand. apply dict_get_set_same.
  - apply dict_get_set_other. intros ->. now rewrite String.eqb_refl in He.
Qed.

(** The table holds, for each brand, the URL of its last usable row. *)
Lemma merge_rows_get brand : forall rs acc,
  dict_get brand (merge_rows rs acc)
  = match last_url brand rs with
    | Some url => Some url
    | None => dict_get brand acc
    end.
Proof.
  induction rs as [|r rs IH]; intro acc; [reflexivity|].
  cbn [merge_rows last_url]. rewrite IH.
  destruct (last_url brand rs); [reflexivity|]. rewrite merge_row_get.
  destruct (row_usable r && String.eqb (row_brand r) brand); reflexivity.
Qed.

(** The body of the loop over the rows: [AttributeError] on a row with
    no brand name or no webpage to strip. *)
Lemma merge_csv_row_run r acc s :
  MergeWebpages.csv_row r acc s
  = (if row_readable r then inr (merge_row r acc)
     else inl (Tools.Std AttributeError), s).
Proof.
  destruct s as [w c].
  unfold MergeWebpages.csv_row, row_readable, merge_row, row_usable, row_brand,
    row_url.
  destruct (row_get_or_empty "brand_name" r) as [b|];
    [|reflexivity].
  destruct (row_get_or_empty "webpage" r) as [u|]; [|reflexivity].
  cbn [opt_str]. unfold Tools.bind, Tools.lift, cell_strip, ret.
  cbn [Tools.files Tools.console].
  destruct (PyStr.nonempty (PyStr.strip b) && PyStr.nonempty (PyStr.strip u)
            && PyStr.startswith (PyStr.strip u) "http"); reflexivity.
Qed.

Lemma merge_csv_rows_run : forall rs acc s,
  MergeWebpages.csv_rows rs acc s
  = (if forallb row_readable rs then inr (merge_rows rs acc)
     else inl (Tools.Std AttributeError), s).
Proof.
  induction rs as [|r rs IH]; intros acc s; [reflexivity|].
  cbn [MergeWebpages.csv_rows forallb merge_rows].
  unfold Tools.bind at 1. rewrite merge_csv_row_run.
  destruct (row_readable r); cbn [andb]; [apply IH | reflexivity].
Qed.

Lemma last_url_row brand : forall rs url,
  last_url brand rs = Some url ->
  exists r, In r rs /\ row_usable r = true /\ row_brand r = brand /\ row_url r = url.
Proof.
  induction rs as [|r rs IH]; intros url H; [discriminate H|].
  cbn [last_url] in H. destruct (last_url brand rs) as [u|] eqn:Hl.
  - destruct (IH u eq_refl) as (r0 & Hin & Hr). injection H as <-.
    exists r0. split; [now right | exact Hr].
  - destruct (row_usable r && String.eqb (row_brand r) brand) eqn:Hu; [|discriminate H].
    injection H as <-. apply andb_true_iff in Hu. destruct Hu as [Hu He].
    apply String.eqb_eq in He. exists r. repeat split; auto. now left.
Qed.

Lemma last_url_nonempty brand rs url :
  last_url brand rs = Some url -> PyStr.nonempty url = true.
Proof.
  intro H. destruct (@last_url_row brand rs url H) as (r & _ & Hu & _ & <-).
  unfold row_usable in Hu. apply andb_true_iff in Hu. destruct Hu as [Hu _].
  apply andb_true_iff in Hu. tauto.
Qed.

Lemma merge_csv_files_loop : forall names acc s,
  exists evs,
    MergeWebpages.csv_files_loop names acc s
    = (if forallb row_readable (all_rows (Tools.files s) names)
       then inr (merge_rows (all_rows (Tools.files s) names) acc)
       else inl (Tools.Std AttributeError),
       Tools.mkState (add_events evs (Tools.files s)) (Tools.console s))
    /\ writes evs = [].
Proof.
  induction names as [|name rest IH]; intros acc [w c].
  - exists []. split; [|reflexivity].
    cbn. unfold Tools.ret. now rewrite add_events_nil.
  - cbn [MergeWebpages.csv_files_loop Tools.files Tools.console].
    unfold Tools.bind at 1, Tools.lift at 1, csv_exists.
    cbn [Tools.files Tools.console]. unfold all_rows, tables. cbn [flat_map].
    destruct (csv_files w name) as [t|] eqn:Ht; cbn [negb].
    + unfold Tools.bind at 1, Tools.lift at 1, read_csv, bind, emit.
      cbn [Tools.files Tools.console csv_files trace json_file]. rewrite Ht.
      unfold Tools.bind at 1. rewrite merge_csv_rows_run.
      cbn [app flat_map]. rewrite forallb_app.
      destruct (forallb row_readable (rows t)) eqn:Hr; cbn [andb].
      * destruct (IH (merge_rows (rows t) acc)
                     (Tools.mkState (add_events [EvRead name] w) c))
          as (evs & Hrun & Hw).
        unfold add_events in Hrun at 1 2 3. cbn [trace csv_files json_file] in Hrun.
        cbn [Tools.files Tools.console csv_files] in Hrun.
        unfold all_rows, tables in Hrun. rewrite Hrun.
        exists (EvRead name :: evs). split; [|exact Hw].
        rewrite merge_rows_app.
        unfold add_events. cbn [trace csv_files json_file]. rewrite <- app_assoc.
        reflexivity.
      * exists [EvRead name]. split; reflexivity.
    + destruct (IH acc (Tools.mkState w c)) as (evs & Hrun & Hw).
      rewrite Hrun. exists evs. split; [reflexivity | exact Hw].
Qed.

Lemma merge_company_run wbn w c s :
  (forall b, dict_get b wbn = last_url b (all_rows w MergeWebpages.CSVS)) ->
  exists r,
    MergeWebpages.company wbn c s = (r, s)
    /\ (mergeable c = true -> r = inr (merge_company w c))
    /\ (mergeable c = false -> exists e, r = inl e).
Proof.
  intro Htable. destruct s as [w0 c0]. unfold MergeWebpages.company.
  destruct c as [ | b | z | m e | n | l | d];
    try (eexists; split; [reflexivity|];
         split; [intro H; discriminate H | intros _; eexists; reflexivity]).
  unfold Tools.bind at 1, Tools.lift, as_dict, ret. cbn [Tools.files Tools.console].
  cbn [mergeable merge_company].
  destruct (get_default "name" (VStr "") d) as [ | b | z | m e | n | l | d'] eqn:Hn;
    cbn [MergeWebpages.lookup merged_webpage];
    try (eexists; split; [reflexivity|];
         split; [reflexivity | intro H; discriminate H]);
    try (eexists; split; [reflexivity|];
         split; [intro H; discriminate H | intros _; eexists; reflexivity]).
  unfold Tools.bind, Tools.ret. rewrite Htable.
  eexists. split; [reflexivity|]. split; [|intro H; discriminate H].
  intros _. unfold MergeWebpages.or_None.
  destruct (last_url n (all_rows w MergeWebpages.CSVS)) as [url|] eqn:Hl; [|reflexivity].
  now rewrite (@last_url_nonempty n _ url Hl).
Qed.

Lemma merge_companies_loop_run wbn w :
  (forall b, dict_get b wbn = last_url b (all_rows w MergeWebpages.CSVS)) ->
  forall items s,
  exists r,
    MergeWebpages.companies_loop wbn items s = (r, s)
    /\ (forallb mergeable items = true -> r = inr (map (merge_company w) items))
    /\ (forallb mergeable items = false -> exists e, r = inl e).
Proof.
  intro Htable. induction items as [|c rest IH]; intro s.
  - eexists. split; [reflexivity|]. split; [reflexivity | intro H; discriminate H].
  - cbn [MergeWebpages.companies_loop forallb map].
    destruct (@merge_company_run wbn w c s Htable) as (r1 & Hrun1 & Hok1 & Hbad1).
    unfold Tools.bind at 1. rewrite Hrun1.
    destruct (mergeable c) eqn:Hc.
    + rewrite (Hok1 eq_refl). cbn [andb].
      destruct (IH s) as (r2 & Hrun2 & Hok2 & Hbad2).
      unfold Tools.bind at 1. rewrite Hrun2.
      destruct (forallb mergeable rest) eqn:Hrest.
      * rewrite (Hok2 eq_refl). eexists. split; [reflexivity|].
        split; [reflexivity | intro H; discriminate H].
      * destruct (Hbad2 eq_refl) as [e ->]. eexists. split; [reflexivity|].
        split; [intro H; discriminate H | intros _; eexists; reflexivity].
    + destruct (Hbad1 eq_refl) as [e ->]. eexists. split; [reflexivity|].
      split; [intro H; discriminate H | intros _; eexists; reflexivity].
Qed.

Lemma get_default_set_same {V} k (v dflt : V) d :
  get_default k dflt (dict_set k v d) = v.
Proof. unfold get_default. now rewrite dict_get_set_same. Qed.

Lemma count_webpages_run w : forall items s,
  forallb mergeable items = true ->
  MergeWebpages.count_webpages (map (merge_company w) items) s
  = (inr (List.length (filter (named w) items)), s).
Proof.
  induction items as [|c rest IH]; intros s Hall; [reflexivity|].
  cbn [forallb] in Hall. apply andb_true_iff in Hall. destruct Hall as [Hc Hrest].
  destruct c as [ | | | | | |d]; try discriminate Hc.
  cbn [map merge_company MergeWebpages.count_webpages filter named].
  destruct s as [w0 c0].
  unfold Tools.bind at 1, Tools.lift, as_dict, ret. cbn [Tools.files Tools.console].
  unfold Tools.bind at 1. rewrite (IH _ Hrest). unfold Tools.ret.
  rewrite get_default_set_same.
  destruct (truthy (merged_webpage w (get_default "name" (VStr "") d))); reflexivity.
Qed.

(** Items that are all dicts are the items of a list. *)
Lemma mergeable_items companies items :
  items_of companies = Some items -> forallb mergeable items = true ->
  companies = VList items \/ items = [].
Proof.
  destruct companies as [ | | | |s|l|d]; try discriminate; cbn; intros [= <-] Hall.
  - right. destruct s as [|c s]; [reflexivity | discriminate Hall].
  - now left.
  - right. destruct d as [|[k v] d]; [reflexivity | discriminate Hall].
Qed.

Lemma iterate_run companies w :
  iterate companies w
  = (match items_of companies with
     | Some items => Returns items
     | None => Raises TypeError
     end, w).
Proof. destruct companies; reflexivity. Qed.

Lemma length_chars s : List.length (chars s) = String.length s.
Proof.
  unfold chars. rewrite length_map.
  induction s as [|c s IH]; [reflexivity|]. cbn. now rewrite IH.
Qed.

Lemma len_items companies items s :
  items_of companies = Some items ->
  MergeWebpages.len companies s = (inr (List.length items), s).
Proof.
  destruct companies as [ | | | |n|l|d]; try discriminate; cbn; intros [= <-].
  - now rewrite length_chars.
  - reflexivity.
  - unfold keys. now rewrite !length_map.
Qed.

(** What [main] does, case by case: it raises before it writes, or it
    goes through every company and writes. *)
Lemma merge_main_cases s :
  exists r s' evs,
    MergeWebpages.main s = (r, s')
    /\ trace (Tools.files s') = trace (Tools.files s) ++ evs
    /\ csv_files (Tools.files s') = csv_files (Tools.files s)
    /\ (((exists e, r = inl e)
         /\ json_file (Tools.files s') = json_file (Tools.files s)
         /\ writes evs = [] /\ Tools.console s' = Tools.console s
         /\ (rows_readable (Tools.files s) = true ->
             forall d companies items,
               json_file (Tools.files s) = Some (VDict d) ->
               dict_get "companies" d = Some companies ->
               items_of companies = Some items ->
               forallb mergeable items = false))
        \/ exists d companies items,
            r = inr tt
            /\ rows_readable (Tools.files s) = true
            /\ json_file (Tools.files s) = Some (VDict d)
            /\ dict_get "companies" d = Some companies
            /\ items_of companies = Some items
            /\ forallb mergeable items = true
            /\ json_file (Tools.files s')
               = Some (VDict (with_companies d
                                (map (merge_company (Tools.files s)) items)))
            /\ writes evs = [JSON_NAME]
            /\ Tools.console s'
               = Tools.console s
                 ++ [Tools.UpdatedJson
                       (List.length (filter (named (Tools.files s)) items))
                       (List.length items)]).
Proof.
  destruct s as [w c]. cbn [Tools.files Tools.console].
  unfold MergeWebpages.main.
  destruct (merge_csv_files_loop MergeWebpages.CSVS []
              (Tools.mkState w c)) as (e1 & Hrun1 & Hw1).
  cbn [Tools.files Tools.console] in Hrun1.
  unfold rows_readable.
  unfold Tools.bind at 1. rewrite Hrun1.
  destruct (forallb row_readable (all_rows w MergeWebpages.CSVS)) eqn:Hread.
  2:{ eexists _, _, e1. split; [reflexivity|].
      cbn [Tools.files Tools.console trace csv_files json_file add_events].
      split; [reflexivity|]. split; [reflexivity|]. left.
      split; [eexists; reflexivity|]. split; [reflexivity|].
      split; [exact Hw1|]. split; [reflexivity|]. intro H. discriminate H. }
  set (wbn := merge_rows (all_rows w MergeWebpages.CSVS) []) in *.
  assert (Htable : forall b, dict_get b wbn = last_url b (all_rows w MergeWebpages.CSVS)).
  { intro b. subst wbn. rewrite merge_rows_get.
    destruct (last_url b (all_rows w MergeWebpages.CSVS)); reflexivity. }
  unfold Tools.bind at 1, Tools.lift at 1, read_json, bind, emit.
  cbn [Tools.files Tools.console json_file csv_files trace add_events].
  destruct (json_file w) as [data|] eqn:Hj.
  2:{ eexists _, _, (e1 ++ [EvRead JSON_NAME]). split; [reflexivity|].
      cbn [Tools.files Tools.console trace csv_files json_file].
      split; [now rewrite app_assoc|]. split; [reflexivity|]. left.
      split; [eexists; reflexivity|]. split; [first [exact Hj | reflexivity]|].
      split; [rewrite writes_app, Hw1; reflexivity|]. split; [reflexivity|].
      intros _ d companies items H. discriminate H. }
  assert (Hfail : forall (m : (Tools.error + unit) * Tools.state) (e : Tools.error),
             m = (inl e, Tools.mkState (mkWorld (csv_files w) (Some data) ((trace w ++ e1) ++ [EvRead JSON_NAME])) c) ->
             (forall d companies items,
                 Some data = Some (VDict d) ->
                 dict_get "companies" d = Some companies ->
                 items_of companies = Some items ->
                 forallb mergeable items = false) ->
             exists (r : Tools.error + unit) (s' : Tools.state) evs,
               m = (r, s')
               /\ trace (Tools.files s') = trace w ++ evs
               /\ csv_files (Tools.files s') = csv_files w
               /\ (((exists e0, r = inl e0)
                    /\ json_file (Tools.files s') = Some data
                    /\ writes evs = [] /\ Tools.console s' = c
                    /\ (true = true ->
                        forall d companies items,
                          Some data = Some (VDict d) ->
                          dict_get "companies" d = Some companies ->
                          items_of companies = Some items ->
                          forallb mergeable items = false))
                   \/ exists d companies items,
                       r = inr tt
                       /\ true = true
                       /\ Some data = Some (VDict d)
                       /\ dict_get "companies" d = Some companies
                       /\ items_of companies = Some items
                       /\ forallb mergeable items = true
                       /\ json_file (Tools.files s')
                          = Some (VDict (with_companies d
                                           (map (merge_company w) items)))
                       /\ writes evs = [JSON_NAME]
                       /\ Tools.console s'
                          = c ++ [Tools.UpdatedJson
                                    (List.length (filter (named w) items))
                                    (List.length items)])).
  { intros m e -> Hshape. eexists _, _, (e1 ++ [EvRead JSON_NAME]).
    split; [reflexivity|]. cbn [Tools.files Tools.console trace csv_files json_file].
    split; [now rewrite app_assoc|]. split; [reflexivity|]. left.
    split; [eexists; reflexivity|]. split; [first [exact Hj | reflexivity]|].
    split; [rewrite writes_app, Hw1; reflexivity|].
    split; [reflexivity | intros _; exact Hshape]. }
  destruct data as [ | | | | | |d];
    try (eapply Hfail; [reflexivity | intros d0 companies items H; discriminate H]).
  unfold Tools.bind at 1. cbn [MergeWebpages.subscript].
  destruct (dict_get "companies" d) as [companies|] eqn:Hc.
  2:{ eapply Hfail; [reflexivity|].
      intros d0 companies items [= <-] H. rewrite Hc in H. discriminate H. }
  unfold Tools.ret at 1.
  unfold Tools.bind at 1, Tools.lift at 1. cbn [Tools.files Tools.console].
  rewrite iterate_run.
  destruct (items_of companies) as [items|] eqn:Hit.
  2:{ eapply Hfail; [reflexivity|].
      intros d0 companies0 items [= <-] H. rewrite Hc in H.
      injection H as <-. intro H. rewrite Hit in H. discriminate H. }
  destruct (@merge_companies_loop_run wbn w Htable items
              (Tools.mkState (mkWorld (csv_files w) (Some (VDict d))
                                ((trace w ++ e1) ++ [EvRead JSON_NAME])) c))
    as (r & Hrun & Hok & Hbad).
  unfold Tools.bind at 1. rewrite Hrun.
  destruct (forallb mergeable items) eqn:Hall.
  2:{ destruct (Hbad eq_refl) as [e ->]. eapply Hfail; [reflexivity|].
      intros d0 companies0 items0 [= <-] H. rewrite Hc in H. injection H as <-.
      intro H. rewrite Hit in H. injection H as <-. exact Hall. }
  rewrite (Hok eq_refl). clear r Hrun Hok Hbad Hfail.
  set (items' := map (merge_company w) items).
  cbn [MergeWebpages.updated].
  unfold Tools.bind at 1, Tools.lift at 1, write_json, bind, emit.
  cbn [Tools.files Tools.console].
  unfold set_json. cbn [json_file csv_files trace].
  set (w3 := mkWorld (csv_files w) (Some (VDict (with_companies d items'))) _).
  assert (Hsub : dict_get "companies" (with_companies d items') = Some companies
                 \/ (companies = VList items
                     /\ dict_get "companies" (with_companies d items')
                        = Some (VList items'))).
  { destruct (@mergeable_items companies items Hit Hall) as [-> | ->].
    - right. split; [reflexivity|]. unfold with_companies. rewrite Hc.
      apply dict_get_set_same.
    - left. unfold with_companies. rewrite Hc.
      destruct companies as [ | | | | |l| ]; try exact Hc.
      cbn in Hit. injection Hit as ->. subst items'. cbn [map].
      rewrite dict_set_same; assumption. }
  unfold Tools.bind at 1. cbn [MergeWebpages.subscript].
  assert (Hrest : forall companies',
             dict_get "companies" (with_companies d items') = Some companies' ->
             items_of companies' = Some items' ->
             exists s',
               (items0 <- Tools.lift (iterate companies') ;;
                merged <- MergeWebpages.count_webpages items0 ;;
                total <- MergeWebpages.len companies' ;;
                Tools.say (Tools.UpdatedJson merged total))%tools
                 (Tools.mkState w3 c)
               = (inr tt, s')
               /\ Tools.files s' = w3
               /\ Tools.console s'
                  = c ++ [Tools.UpdatedJson (List.length (filter (named w) items))
                                            (List.length items)]).
  { intros companies' _ Hit'.
    unfold Tools.bind at 1, Tools.lift at 1. cbn [Tools.files Tools.console].
    rewrite iterate_run, Hit'.
    unfold Tools.bind at 1. unfold items' at 1. rewrite (@count_webpages_run w items _ Hall).
    unfold Tools.bind at 1. rewrite (@len_items companies' items' _ Hit').
    unfold items'. rewrite length_map. eexists. split; [reflexivity|]. split; reflexivity. }
  destruct Hsub as [Hsub | [-> Hsub]].
  - rewrite Hsub. unfold Tools.ret at 1.
    assert (Hit' : items_of companies = Some items').
    { destruct (@mergeable_items companies items Hit Hall) as [-> | ->].
      - unfold with_companies in Hsub. rewrite Hc, dict_get_set_same in Hsub.
        injection Hsub as Hsub. cbn. now rewrite <- Hsub.
      - exact Hit. }
    destruct (Hrest companies Hsub Hit') as (s' & Hrun & Hf & Hcon).
    rewrite Hrun. exists (inr tt), s', (e1 ++ [EvRead JSON_NAME; EvWrite JSON_NAME]).
    split; [reflexivity|]. rewrite Hf. subst w3. cbn [trace csv_files json_file].
    split; [now rewrite <- !app_assoc|]. split; [reflexivity|]. right.
    exists d, companies, items. repeat split; auto.
    rewrite writes_app, Hw1. reflexivity.
  - rewrite Hsub. unfold Tools.ret at 1.
    destruct (Hrest (VList items') Hsub eq_refl) as (s' & Hrun & Hf & Hcon).
    rewrite Hrun. exists (inr tt), s', (e1 ++ [EvRead JSON_NAME; EvWrite JSON_NAME]).
    split; [reflexivity|]. rewrite Hf. subst w3. cbn [trace csv_files json_file].
    split; [now rewrite <- !app_assoc|]. split; [reflexivity|]. right.
    exists d, (VList items), items. repeat split; auto.
    rewrite writes_app, Hw1. reflexivity.
Qed.

(** X7: when every row of the CSV files that exist has a brand name
    and a webpage to strip (no line ends before these columns), then on
    a JSON object whose [companies] is a list of dicts with names that
    can be hashed, [main] completes; it sets the webpage of every
    company to the stripped URL of the last row, in the order of the
    files and of their rows, that has this name as its stripped brand
    and a non-empty stripped URL starting with [http], and to null when
    there is no such row, whatever the webpage was; and it prints how
    many companies got a URL, out of how many. *)
Theorem merge_sets_every_webpage s d cs :
  rows_readable (Tools.files s) = true ->
  json_file (Tools.files s) = Some (VDict d) ->
  dict_get "companies" d = Some (VList cs) ->
  forallb mergeable cs = true ->
  exists s',
    MergeWebpages.main s = (inr tt, s')
    /\ json_file (Tools.files s')
       = Some (VDict (dict_set "companies"
                        (VList (map (merge_company (Tools.files s)) cs)) d))
    /\ Tools.console s'
       = Tools.console s
         ++ [Tools.UpdatedJson (List.length (filter (named (Tools.files s)) cs))
                               (List.length cs)].
Proof.
  intros Hread Hj Hc Hall.
  destruct (merge_main_cases s) as (r & s' & evs & Hrun & _ & _ & Hcase).
  destruct Hcase as [(_ & _ & _ & _ & Hbad)
                    | (d0 & companies & items & -> & _ & Hj0 & Hc0 & Hit & _ & Hjson & _ & Hcon)].
  - rewrite (Hbad Hread d (VList cs) cs Hj Hc eq_refl) in Hall. discriminate Hall.
  - rewrite Hj in Hj0. injection Hj0 as <-. rewrite Hc in Hc0. injection Hc0 as <-.
    cbn in Hit. injection Hit as <-.
    exists s'. split; [exact Hrun|]. split; [|exact Hcon].
    rewrite Hjson. now rewrite (@with_companies_list d cs _ Hc).
Qed.

Lemma merge_sets_every_webpage_witness :
  exists s',
    MergeWebpages.main ExampleMerge.s = (inr tt, s')
    /\ json_file (Tools.files s')
       = Some (VDict
                 [("source", VStr "revenue");
                  ("companies",
                   VList
                     [VDict [("name", VStr "Acme");
                             ("webpage", VStr "https://www.acme.example/")];
                      VDict [("name", VStr "Bolt");
                             ("webpage", VStr "http://bolt.example")];
                      VDict [("name", VStr " Acme "); ("webpage", VNone)];
                      VDict [("name", VStr "Core"); ("webpage", VNone)]])])
    /\ Tools.console s' = [Tools.UpdatedJson 2 4].
Proof.
  exact (@merge_sets_every_webpage ExampleMerge.s ExampleMerge.data
           ExampleMerge.companies eq_refl eq_refl eq_refl eq_refl).
Defined.

Lemma all_rows_same w w' names :
  csv_files w' = csv_files w -> all_rows w' names = all_rows w names.
Proof. intro H. unfold all_rows, tables. now rewrite H. Qed.

Lemma merge_company_same w w' c :
  csv_files w' = csv_files w -> merge_company w' c = merge_company w c.
Proof.
  intro H. destruct c; try reflexivity. unfold merge_company, merged_webpage.
  now rewrite (@all_rows_same w w' _ H).
Qed.

Lemma merge_company_idem w c :
  merge_company w (merge_company w c) = merge_company w c.
Proof.
  destruct c as [ | | | | | |d]; try reflexivity. cbn [merge_company].
  assert (Hn : get_default "name" (VStr "")
                 (dict_set "webpage"
                    (merged_webpage w (get_default "name" (VStr "") d)) d)
               = get_default "name" (VStr "") d).
  { unfold get_default. rewrite dict_get_set_other; [reflexivity | discriminate]. }
  rewrite Hn. f_equal. apply dict_set_same. apply dict_get_set_same.
Qed.

Lemma merge_company_mergeable w c :
  mergeable (merge_company w c) = mergeable c.
Proof.
  destruct c as [ | | | | | |d]; try reflexivity. cbn [merge_company mergeable].
  unfold get_default. rewrite dict_get_set_other; [reflexivity | discriminate].
Qed.

Lemma merged_items_mergeable w items :
  forallb mergeable (map (merge_company w) items) = forallb mergeable items.
Proof.
  induction items as [|c rest IH]; [reflexivity|].
  cbn [map forallb]. now rewrite merge_company_mergeable, IH.
Qed.

(** X8: a second run changes nothing: after a run that completes, a run
    on the files it left completes and leaves the same JSON value and
    the same CSV files. *)
Theorem merge_twice_is_merge_once s s1 :
  MergeWebpages.main s = (inr tt, s1) ->
  exists s2,
    MergeWebpages.main s1 = (inr tt, s2)
    /\ json_file (Tools.files s2) = json_file (Tools.files s1)
    /\ csv_files (Tools.files s2) = csv_files (Tools.files s1).
Proof.
  intro Hrun.
  destruct (merge_main_cases s) as (r & s' & evs & Hrun' & _ & Hcsv & Hcase).
  rewrite Hrun in Hrun'. injection Hrun' as <- <-.
  destruct Hcase as [([e He] & _)
                    | (d & companies & items & _ & Hread & Hj & Hc & Hit & Hall & Hjson & _)];
    [discriminate He|].
  assert (Hread1 : rows_readable (Tools.files s1) = true).
  { unfold rows_readable in *.
    now rewrite (@all_rows_same (Tools.files s) (Tools.files s1) _ Hcsv). }
  set (items' := map (merge_company (Tools.files s)) items) in *.
  assert (Hall' : forallb mergeable items' = true).
  { subst items'. now rewrite merged_items_mergeable. }
  assert (Hshape : exists companies1,
             dict_get "companies" (with_companies d items') = Some companies1
             /\ items_of companies1 = Some items'
             /\ with_companies (with_companies d items')
                  (map (merge_company (Tools.files s1)) items')
                = with_companies d items').
  { assert (Hidem : map (merge_company (Tools.files s1)) items' = items').
    { subst items'. rewrite map_map. apply map_ext. intro c.
      rewrite (@merge_company_same (Tools.files s) (Tools.files s1) _ Hcsv).
      apply merge_company_idem. }
    rewrite Hidem.
    destruct (@mergeable_items companies items Hit Hall) as [-> | Hnil].
    - exists (VList items'). rewrite (@with_companies_list d items items' Hc).
      split; [apply dict_get_set_same|]. split; [reflexivity|].
      unfold with_companies. rewrite dict_get_set_same.
      apply dict_set_same. apply dict_get_set_same.
    - assert (Hnil' : items' = []) by (subst items'; now rewrite Hnil).
      rewrite Hnil'. rewrite Hnil in Hit.
      assert (Hd : with_companies d [] = d).
      { apply with_companies_same. unfold get_default. now rewrite Hc. }
      rewrite Hd. exists companies. split; [exact Hc|]. split; [exact Hit | exact Hd]. }
  destruct Hshape as (companies1 & Hc1 & Hit1 & Hfix).
  destruct (merge_main_cases s1) as (r2 & s2 & evs2 & Hrun2 & _ & Hcsv2 & Hcase2).
  exists s2.
  destruct Hcase2 as [(_ & _ & _ & _ & Hbad)
                     | (d2 & companies2 & items2 & -> & _ & Hj2 & Hc2 & Hit2 & _ & Hjson2 & _)].
  - rewrite (Hbad Hread1 _ _ _ Hjson Hc1 Hit1) in Hall'. discriminate Hall'.
  - split; [exact Hrun2|]. split; [|exact Hcsv2].
    rewrite Hjson in Hj2. injection Hj2 as <-.
    rewrite Hc1 in Hc2. injection Hc2 as <-.
    rewrite Hit1 in Hit2. injection Hit2 as <-.
    rewrite Hjson2, Hjson. now rewrite Hfix.
Qed.

Lemma merge_twice_is_merge_once_witness :
  exists s2,
    MergeWebpages.main (snd (MergeWebpages.main ExampleMerge.s)) = (inr tt, s2)
    /\ json_file (Tools.files s2)
       = json_file (Tools.files (snd (MergeWebpages.main ExampleMerge.s)))
    /\ csv_files (Tools.files s2)
       = csv_files (Tools.files (snd (MergeWebpages.main ExampleMerge.s))).
Proof.
  exact (@merge_twice_is_merge_once ExampleMerge.s
           (snd (MergeWebpages.main ExampleMerge.s)) eq_refl).
Defined.

(** X9: [main] never changes a CSV file, and a run that raises (a CSV
    line that ends before its brand name or webpage, no JSON file, no
    [companies] key, a company that is no dict, a name that cannot be
    hashed) has written nothing and printed nothing: the JSON file is as
    it was. *)
Theorem merge_all_or_nothing s :
  let r := MergeWebpages.main s in
  csv_files (Tools.files (snd r)) = csv_files (Tools.files s)
  /\ (forall e, fst r = inl e ->
        json_file (Tools.files (snd r)) = json_file (Tools.files s)
        /\ Tools.console (snd r) = Tools.console s
        /\ exists evs,
            trace (Tools.files (snd r)) = trace (Tools.files s) ++ evs
            /\ writes evs = []).
Proof.
  cbn zeta.
  destruct (merge_main_cases s) as (r & s' & evs & Hrun & Htr & Hcsv & Hcase).
  rewrite Hrun. cbn [fst snd]. split; [exact Hcsv|].
  intros e He.
  destruct Hcase as [(_ & Hj & Hw & Hcon & _) | (d & companies & items & Hr & _)].
  - split; [exact Hj|]. split; [exact Hcon|]. now exists evs.
  - rewrite Hr in He. discriminate He.
Qed.

Lemma stripped_brand_only w n :
  PyStr.strip n <> n -> merged_webpage w (VStr n) = VNone.
Proof.
  intro Hn. unfold merged_webpage.
  destruct (last_url n (all_rows w MergeWebpages.CSVS)) as [url|] eqn:Hl; [|reflexivity].
  destruct (@last_url_row n _ url Hl) as (r & _ & _ & Hb & _).
  exfalso. apply Hn. rewrite <- Hb. unfold row_brand. apply strip_idem.
Qed.

(** X10: the name of a company is compared as it is with the stripped
    brands: when every row of the CSV files that exist has a brand name
    and a webpage to strip, so that the run gets to the companies, a
    company whose name has white space at either end is given no
    webpage, whatever the CSV files hold. *)
Theorem merge_unstripped_name_gets_null s d cs i c n :
  rows_readable (Tools.files s) = true ->
  json_file (Tools.files s) = Some (VDict d) ->
  dict_get "companies" d = Some (VList cs) ->
  forallb mergeable cs = true ->
  nth_error cs i = Some (VDict c) ->
  get_default "name" (VStr "") c = VStr n ->
  PyStr.strip n <> n ->
  exists s' cs',
    MergeWebpages.main s = (inr tt, s')
    /\ json_file (Tools.files s') = Some (VDict (dict_set "companies" (VList cs') d))
    /\ nth_error cs' i = Some (VDict (dict_set "webpage" VNone c)).
Proof.
  intros Hread Hj Hc Hall Hi Hname Hn.
  destruct (merge_main_cases s) as (r & s' & evs & Hrun & _ & _ & Hcase).
  destruct Hcase as [(_ & _ & _ & _ & Hbad)
                    | (d0 & companies & items & -> & _ & Hj0 & Hc0 & Hit & _ & Hjson & _)].
  - rewrite (Hbad Hread d (VList cs) cs Hj Hc eq_refl) in Hall. discriminate Hall.
  - rewrite Hj in Hj0. injection Hj0 as <-. rewrite Hc in Hc0. injection Hc0 as <-.
    cbn in Hit. injection Hit as <-.
    exists s', (map (merge_company (Tools.files s)) cs).
    split; [exact Hrun|]. split.
    + rewrite Hjson. now rewrite (@with_companies_list d cs _ Hc).
    + rewrite nth_error_map, Hi. cbn [option_map merge_company].
      now rewrite Hname, (@stripped_brand_only (Tools.files s) n Hn).
Qed.

Lemma merge_unstripped_name_gets_null_witness :
  exists s' cs',
    MergeWebpages.main ExampleMerge.s = (inr tt, s')
    /\ json_file (Tools.files s')
       = Some (VDict (dict_set "companies" (VList cs') ExampleMerge.data))
    /\ nth_error cs' 2
       = Some (VDict [("name", VStr " Acme "); ("webpage", VNone)]).
Proof.
  refine (@merge_unstripped_name_gets_null ExampleMerge.s ExampleMerge.data
            ExampleMerge.companies 2
            [("name", VStr " Acme "); ("webpage", VStr "https://kept.example/")]
            " Acme " eq_refl eq_refl eq_refl eq_refl eq_refl eq_refl _).
  vm_compute. intro H. discriminate H.
Defined.

(** ** [add_webpages.py] *)

Lemma prefix_refl s : String.prefix s s = true.
Proof.
  induction s as [|c s IH]; [reflexivity|]. cbn.
  destruct (ascii_dec c c); [exact IH | congruence].
Qed.

Lemma contains_refl s : Text.contains s s = true.
Proof. destruct s; [reflexivity|]. cbn [Text.contains]. now rewrite prefix_refl. Qed.

Lemma prefix_empty s : String.prefix "" s = true.
Proof. destruct s; reflexivity. Qed.

Lemma contains_empty s : Text.contains "" s = true.
Proof. destruct s; reflexivity. Qed.

Lemma related_refl name : related name name = true.
Proof. unfold related. now rewrite contains_refl. Qed.

Lemma variants_loop_none name : forall items,
  AddWebpages.variants_loop name items = None
  <-> forall key url, In (key, url) items -> related name key = false.
Proof.
  induction items as [|[k u] items IH]; cbn [AddWebpages.variants_loop].
  - split; [intros _ key url [] | reflexivity].
  - fold (related name k). destruct (related name k) eqn:Hr.
    + split; [discriminate|]. intro H. rewrite (H k u) in Hr; [discriminate Hr | now left].
    + rewrite IH. split.
      * intros H key url [[= <- <-] | Hin]; [exact Hr | now apply (H key url)].
      * intros H key url Hin. apply (H key url). now right.
Qed.

Lemma variants_loop_some name : forall items url,
  AddWebpages.variants_loop name items = Some url ->
  exists key, In (key, url) items.
Proof.
  induction items as [|[k u] items IH]; cbn [AddWebpages.variants_loop]; intros url H.
  - discriminate H.
  - destruct (_ || _).
    + injection H as <-. exists k. now left.
    + destruct (IH url H) as [key Hin]. exists key. now right.
Qed.

Lemma WEBPAGE_MAP_urls :
  forallb (fun kv => PyStr.nonempty (snd kv)) AddWebpages.WEBPAGE_MAP = true.
Proof. vm_compute. reflexivity. Qed.

Lemma WEBPAGE_MAP_keys :
  forallb (fun kv =>
             mem (fst kv) (keys AddWebpages.WEBPAGE_MAP)
             && String.eqb (get_default (fst kv) "" AddWebpages.WEBPAGE_MAP) (snd kv)
             && String.eqb (AddWebpages.normalize_name (fst kv)) (fst kv))
          AddWebpages.WEBPAGE_MAP = true.
Proof. vm_compute. reflexivity. Qed.

Lemma listed_url key url :
  In (key, url) AddWebpages.WEBPAGE_MAP -> PyStr.nonempty url = true.
Proof.
  intro Hin. pose proof WEBPAGE_MAP_urls as H. rewrite forallb_forall in H.
  exact (H (key, url) Hin).
Qed.

Lemma dict_get_In {V} k (d : dict V) v : dict_get k d = Some v -> In (k, v) d.
Proof.
  induction d as [|[k0 v0] d IH]; cbn; [discriminate|].
  destruct (String.eqb k k0) eqn:He.
  - apply String.eqb_eq in He. subst k0. intros [= ->]. now left.
  - intro H. right. now apply IH.
Qed.

Lemma mem_keys_get {V} k (d : dict V) :
  mem k (keys d) = true -> exists v, dict_get k d = Some v.
Proof.
  unfold keys. induction d as [|[k0 v0] d IH]; cbn; [discriminate|].
  destruct (String.eqb k k0); [eexists; reflexivity | exact IH].
Qed.

(** X11: a brand name that is blank once white space and double quotes
    are stripped is given the first URL of the map: the empty name
    occurs in every listed name. *)
Theorem blank_brand_gets_first_url brand_name :
  AddWebpages.normalize_name brand_name = "" ->
  AddWebpages.get_webpage brand_name = "https://english.cscec.com/".
Proof.
  intro H. unfold AddWebpages.get_webpage. cbv zeta. rewrite H.
  vm_compute. reflexivity.
Qed.

Lemma blank_brand_gets_first_url_witness :
  AddWebpages.get_webpage (String PyStr.quote2 (String PyStr.quote2 " "))
  = "https://english.cscec.com/".
Proof.
  exact (@blank_brand_gets_first_url
           (String PyStr.quote2 (String PyStr.quote2 " ")) eq_refl).
Defined.

(** X12: every name of the map is given its own URL, also when it comes
    wrapped in white space and double quotes: the exact match is taken
    before any name that occurs in it. *)
Theorem listed_name_gets_its_url key url brand_name :
  In (key, url) AddWebpages.WEBPAGE_MAP ->
  AddWebpages.normalize_name brand_name = key ->
  AddWebpages.get_webpage brand_name = url
  /\ AddWebpages.get_webpage key = url.
Proof.
  intros Hin Hn. pose proof WEBPAGE_MAP_keys as H. rewrite forallb_forall in H.
  specialize (H (key, url) Hin). cbn [fst snd] in H.
  apply andb_true_iff in H. destruct H as [H Hk].
  apply andb_true_iff in H. destruct H as [Hm Hg].
  apply String.eqb_eq in Hg, Hk.
  unfold AddWebpages.get_webpage. cbv zeta. rewrite Hn, Hk, Hm. now split.
Qed.

Lemma listed_name_gets_its_url_witness :
  AddWebpages.get_webpage " NCC Limited " = "https://www.ncclimited.com/"
  /\ AddWebpages.get_webpage "NCC Limited" = "https://www.ncclimited.com/".
Proof.
  refine (@listed_name_gets_its_url "NCC Limited" "https://www.ncclimited.com/"
            " NCC Limited " _ eq_refl).
  vm_compute. tauto.
Defined.

(** X13: [get_webpage] returns the empty string exactly when no name of
    the map occurs in the normalised brand name and the brand name
    occurs in none, case apart; any other brand name is given a URL of
    the map. *)
Theorem no_url_iff_unrelated brand_name :
  let name := AddWebpages.normalize_name brand_name in
  (AddWebpages.get_webpage brand_name = ""
   <-> forall key url, In (key, url) AddWebpages.WEBPAGE_MAP ->
                       related name key = false)
  /\ (AddWebpages.get_webpage brand_name <> "" ->
      exists key, In (key, AddWebpages.get_webpage brand_name)
                     AddWebpages.WEBPAGE_MAP).
Proof.
  cbv zeta. unfold AddWebpages.get_webpage. cbv zeta.
  set (name := AddWebpages.normalize_name brand_name).
  destruct (mem name (keys AddWebpages.WEBPAGE_MAP)) eqn:Hm.
  - destruct (@mem_keys_get _ _ _ Hm) as [url Hg]. unfold get_default. rewrite Hg.
    pose proof (@dict_get_In _ _ _ _ Hg) as Hin. split.
    + split.
      * intros ->. pose proof (@listed_url _ _ Hin) as Hne. discriminate Hne.
      * intro H. pose proof (H name url Hin) as Hr. rewrite related_refl in Hr.
        discriminate Hr.
    + intros _. now exists name.
  - destruct (AddWebpages.variants_loop name AddWebpages.WEBPAGE_MAP) as [url|] eqn:Hv.
    + destruct (@variants_loop_some _ _ _ Hv) as [key Hin]. split.
      * split.
        -- intros ->. pose proof (@listed_url _ _ Hin) as Hne. discriminate Hne.
        -- intro H. apply variants_loop_none in H. rewrite H in Hv. discriminate Hv.
      * intros _. now exists key.
    + split.
      * split; [intros _; now apply variants_loop_none | reflexivity].
      * intro H. now destruct H.
Qed.

(** The brand name [process_row] finds in a row. *)
Lemma row_of_cell fn line k :
  exists c, row_get_or_empty k (row_of fn line) = Some c.
Proof.
  unfold row_get_or_empty, get_default, row_of. cbn [cells].
  induction (combine fn line) as [|[k0 c0] l IH]; cbn; [now exists ""|].
  destruct (String.eqb k k0); [now exists c0 | exact IH].
Qed.

Lemma process_row_full fn line s :
  AddWebpages.process_row (row_of fn line) s
  = (inr (set_cell "webpage"
            (AddWebpages.get_webpage
               (opt_str (row_get_or_empty "brand_name" (row_of fn line))))
            (row_of fn line)), s).
Proof.
  unfold AddWebpages.process_row.
  destruct (row_of_cell fn line "brand_name") as [c ->]. reflexivity.
Qed.

Lemma process_rows_full fn : forall ls s,
  AddWebpages.process_rows (map (row_of fn) ls) s
  = (inr (map (fun l => set_cell "webpage"
                          (AddWebpages.get_webpage
                             (opt_str (row_get_or_empty "brand_name" (row_of fn l))))
                          (row_of fn l)) ls), s).
Proof.
  induction ls as [|l ls IH]; intro s; [reflexivity|].
  cbn [map AddWebpages.process_rows].
  unfold Tools.bind at 1. rewrite process_row_full.
  unfold Tools.bind at 1. rewrite IH. reflexivity.
Qed.

Lemma row_get_set_cell k v r k' :
  row_get k' (set_cell k v r)
  = if String.eqb k' k then Some v else row_get k' r.
Proof.
  unfold row_get, set_cell. cbn [cells].
  destruct (String.eqb k' k) eqn:He.
  - apply String.eqb_eq in He. subst k'. now rewrite dict_get_set_same.
  - rewrite dict_get_set_other; [reflexivity|].
    intros ->. now rewrite String.eqb_refl in He.
Qed.

Lemma written_with_webpage header r :
  written_row header
    (set_cell "webpage"
       (AddWebpages.get_webpage (opt_str (row_get_or_empty "brand_name" r))) r)
  = with_webpage header r.
Proof.
  unfold written_row, with_webpage. apply map_ext. intro k.
  rewrite row_get_set_cell. now destruct (String.eqb k "webpage").
Qed.

Lemma set_cell_writable fn line k v :
  List.length line = List.length fn ->
  writable (fn ++ [k]) (set_cell k v (row_of fn line)) = true.
Proof.
  intro Hl. unfold writable, set_cell. cbn [surplus cells row_of is_blank andb].
  apply forallb_forall. intros k' Hin. apply mem_In. apply in_or_app.
  apply keys_dict_set in Hin. destruct Hin as [-> | Hin]; [right; now left|].
  left. change (In k' (keys (cells (row_of fn line)))) in Hin.
  now rewrite (@keys_row_of fn line Hl) in Hin.
Qed.

Lemma with_webpage_length header r :
  List.length (with_webpage header r) = List.length header.
Proof. unfold with_webpage. apply length_map. Qed.

(** One well-formed file, read and written back. *)
Lemma process_csv_run s path t fn :
  csv_files (Tools.files s) path = Some t ->
  fieldnames t = Some fn ->
  csv_wf t = true ->
  exists s',
    AddWebpages.process_csv path None s = (inr tt, s')
    /\ csv_files (Tools.files s')
       = (fun p => if String.eqb p path
                   then Some (mkCsv (Some (fn ++ ["webpage"]))
                                (map (fun l => with_webpage (fn ++ ["webpage"])
                                                 (row_of fn l)) (lines t)))
                   else csv_files (Tools.files s) p)
    /\ json_file (Tools.files s') = json_file (Tools.files s)
    /\ trace (Tools.files s') = trace (Tools.files s) ++ [EvRead path; EvWrite path]
    /\ Tools.console s'
       = Tools.console s ++ [Tools.UpdatedCsv path (List.length (lines t))].
Proof.
  intros Ht Hfn Hwf. destruct (@csv_wf_inv t fn Hwf Hfn) as (Hnd & Hlen & Hrows).
  destruct s as [w c]. cbn [Tools.files Tools.console] in *.
  unfold AddWebpages.process_csv. cbv zeta.
  unfold Tools.bind at 1, Tools.lift at 1, read_csv, bind, emit.
  cbn [Tools.files Tools.console csv_files json_file trace]. rewrite Ht, Hfn, Hrows.
  unfold Tools.bind at 1. rewrite process_rows_full.
  unfold Tools.bind at 1, Tools.lift at 1, write_csv, bind, emit.
  cbn [Tools.files Tools.console csv_files json_file trace].
  rewrite writerows_writable.
  2:{ apply forallb_forall. intros r' Hin. apply in_map_iff in Hin.
      destruct Hin as (l & <- & Hin). apply set_cell_writable.
      rewrite Forall_forall in Hlen. now apply Hlen. }
  rewrite map_map.
  rewrite (map_ext _ _ (fun l => written_with_webpage (fn ++ ["webpage"])
                                   (row_of fn l))).
  unfold Tools.say, set_csv. cbn [Tools.files Tools.console csv_files json_file trace].
  eexists. split; [reflexivity|]. cbn [Tools.files Tools.console csv_files json_file trace].
  rewrite length_map. rewrite <- app_assoc. repeat split.
Qed.

Lemma nodupb_snoc k : forall fn,
  nodupb fn = true -> mem k fn = false -> nodupb (fn ++ [k]) = true.
Proof.
  induction fn as [|x fn IH]; intros Hn Hk; [reflexivity|].
  cbn [nodupb app] in *. apply andb_true_iff in Hn. destruct Hn as [Hx Hn].
  cbn [mem existsb] in Hk. apply orb_false_iff in Hk. destruct Hk as [Hkx Hk].
  rewrite (IH Hn Hk), andb_true_r. unfold mem in *. rewrite existsb_app.
  cbn [existsb]. apply negb_true_iff in Hx. rewrite Hx. cbn [orb].
  rewrite orb_false_r. rewrite String.eqb_sym. now rewrite Hkx.
Qed.

(** X14: on a well-formed file (distinct column names, every line with
    as many cells as the header, none blank) [process_csv] completes; it
    appends a [webpage] column to the header and writes every line back,
    in order, one cell longer: each cell under a column that is not
    named [webpage] is as it was, and the new last cell is what
    [get_webpage] gives for the brand name of the line, as is the cell
    of a column named [webpage] that the file already had, whose value
    is lost. *)
Theorem process_csv_adds_column s path t fn :
  csv_files (Tools.files s) path = Some t ->
  fieldnames t = Some fn ->
  csv_wf t = true ->
  exists s' lines',
    AddWebpages.process_csv path None s = (inr tt, s')
    /\ csv_files (Tools.files s') path
       = Some (mkCsv (Some (fn ++ ["webpage"])) lines')
    /\ Forall2 (fun l l' =>
                  let url := AddWebpages.get_webpage
                               (opt_str (row_get_or_empty "brand_name"
                                           (read_row fn l))) in
                  List.length l' = S (List.length l)
                  /\ forall i k, nth_error (fn ++ ["webpage"]) i = Some k ->
                                 nth_error l' i
                                 = if String.eqb k "webpage" then Some url
                                   else nth_error l i)
               (lines t) lines'
    /\ (forall p, p <> path -> csv_files (Tools.files s') p = csv_files (Tools.files s) p)
    /\ Tools.console s'
       = Tools.console s ++ [Tools.UpdatedCsv path (List.length (lines t))].
Proof.
  intros Ht Hfn Hwf. destruct (@csv_wf_inv t fn Hwf Hfn) as (Hnd & Hlen & _).
  destruct (@process_csv_run s path t fn Ht Hfn Hwf) as (s' & Hrun & Hcsv & _ & _ & Hcon).
  exists s', (map (fun l => with_webpage (fn ++ ["webpage"]) (row_of fn l)) (lines t)).
  split; [exact Hrun|]. split; [now rewrite Hcsv, String.eqb_refl|].
  split; [|split; [|exact Hcon]].
  - clear - Hlen Hnd. induction Hlen as [|l ls Hl _ IH]; [constructor|].
    cbn [map]. constructor; [|exact IH]. cbv zeta.
    rewrite (@read_row_full fn l Hnd Hl).
    split; [rewrite with_webpage_length, length_app, Hl; cbn; lia|].
    intros i k Hi. unfold with_webpage. rewrite nth_error_map, Hi.
    cbn [option_map]. destruct (String.eqb k "webpage") eqn:He; [reflexivity|].
    assert (Hfn : nth_error fn i = Some k).
    { destruct (Nat.lt_ge_cases i (List.length fn)) as [Hlt|Hge].
      - now rewrite nth_error_app1 in Hi.
      - rewrite nth_error_app2 in Hi by assumption.
        destruct (i - List.length fn)%nat as [|n]; cbn in Hi.
        + injection Hi as <-. discriminate He.
        + destruct n; discriminate Hi. }
    rewrite <- (@written_row_of fn l Hnd Hl) at 2. unfold written_row.
    now rewrite nth_error_map, Hfn.
  - intros p Hp. rewrite Hcsv. apply String.eqb_neq in Hp. now rewrite Hp.
Qed.

Lemma process_csv_adds_column_witness :
  exists s' lines',
    AddWebpages.process_csv "CDC_midbln.csv" None ExampleAdd.s = (inr tt, s')
    /\ csv_files (Tools.files s') "CDC_midbln.csv"
       = Some (mkCsv (Some ["brand_id"; "brand_name"; "webpage"]) lines')
    /\ Forall2 (fun l l' =>
                  let url := AddWebpages.get_webpage
                               (opt_str (row_get_or_empty "brand_name"
                                           (read_row ["brand_id"; "brand_name"] l))) in
                  List.length l' = S (List.length l)
                  /\ forall i k,
                      nth_error ["brand_id"; "brand_name"; "webpage"] i = Some k ->
                      nth_error l' i
                      = if String.eqb k "webpage" then Some url
                        else nth_error l i)
               (lines ExampleAdd.table) lines'
    /\ (forall p, p <> "CDC_midbln.csv" ->
                  csv_files (Tools.files s') p = csv_files (Tools.files ExampleAdd.s) p)
    /\ Tools.console s' = [Tools.UpdatedCsv "CDC_midbln.csv" 3].
Proof.
  exact (@process_csv_adds_column ExampleAdd.s "CDC_midbln.csv" ExampleAdd.table
           ["brand_id"; "brand_name"] eq_refl eq_refl eq_refl).
Defined.

(** X15: the script is not idempotent: run twice on a well-formed file
    (distinct column names, every line with as many cells as the header,
    none blank) that has no [webpage] column, [process_csv] leaves a
    header that ends in two [webpage] columns, over the same number of
    lines, each two cells longer. *)
Theorem process_csv_twice_adds_two_columns s path t fn :
  csv_files (Tools.files s) path = Some t ->
  fieldnames t = Some fn ->
  csv_wf t = true ->
  mem "webpage" fn = false ->
  exists s2 lines2,
    Tools.bind (AddWebpages.process_csv path None)
               (fun _ => AddWebpages.process_csv path None) s
    = (inr tt, s2)
    /\ csv_files (Tools.files s2) path
       = Some (mkCsv (Some (fn ++ ["webpage"; "webpage"])) lines2)
    /\ Forall2 (fun l l2 => List.length l2 = S (S (List.length l)))
               (lines t) lines2.
Proof.
  intros Ht Hfn Hwf Hno. destruct (@csv_wf_inv t fn Hwf Hfn) as (Hnd & Hlen & _).
  destruct (@process_csv_run s path t fn Ht Hfn Hwf) as (s1 & Hrun1 & Hcsv1 & _).
  set (t1 := mkCsv (Some (fn ++ ["webpage"]))
                   (map (fun l => with_webpage (fn ++ ["webpage"]) (row_of fn l))
                        (lines t))) in *.
  assert (Ht1 : csv_files (Tools.files s1) path = Some t1)
    by now rewrite Hcsv1, String.eqb_refl.
  assert (Hwf1 : csv_wf t1 = true).
  { unfold csv_wf, t1. cbn [fieldnames lines].
    rewrite (@nodupb_snoc _ fn Hnd Hno). cbn [andb].
    apply forallb_forall. intros l' Hin. apply in_map_iff in Hin.
    destruct Hin as (l & <- & _). rewrite with_webpage_length.
    rewrite Nat.eqb_refl, andb_true_r.
    unfold with_webpage. destruct fn; reflexivity. }
  destruct (@process_csv_run s1 path t1 (fn ++ ["webpage"]) Ht1 eq_refl Hwf1)
    as (s2 & Hrun2 & Hcsv2 & _).
  eexists s2, _.
  unfold Tools.bind. rewrite Hrun1. split; [exact Hrun2|]. split.
  - rewrite Hcsv2, String.eqb_refl. now rewrite <- app_assoc.
  - unfold t1. cbn [lines]. rewrite map_map.
    clear - Hlen. induction Hlen as [|l ls Hl _ IH]; [constructor|].
    cbn [map]. constructor; [|exact IH].
    rewrite with_webpage_length, !length_app, Hl. cbn. lia.
Qed.

Lemma process_csv_twice_adds_two_columns_witness :
  exists s2 lines2,
    Tools.bind (AddWebpages.process_csv "CDC_midbln.csv" None)
               (fun _ => AddWebpages.process_csv "CDC_midbln.csv" None) ExampleAdd.s
    = (inr tt, s2)
    /\ csv_files (Tools.files s2) "CDC_midbln.csv"
       = Some (mkCsv (Some ["brand_id"; "brand_name"; "webpage"; "webpage"]) lines2)
    /\ Forall2 (fun l l2 => List.length l2 = S (S (List.length l)))
               (lines ExampleAdd.table) lines2.
Proof.
  exact (@process_csv_twice_adds_two_columns ExampleAdd.s "CDC_midbln.csv"
           ExampleAdd.table ["brand_id"; "brand_name"] eq_refl eq_refl eq_refl eq_refl).
Defined.

(** X16: an empty first file ends the run: [list(reader.fieldnames)]
    raises [TypeError] before anything is written, and the files that
    come after it are not processed. *)
Theorem empty_file_aborts_the_run s t :
  csv_files (Tools.files s) "CDC_midbln.csv" = Some t ->
  fieldnames t = None ->
  exists s',
    AddWebpages.main s = (inl (Tools.Std TypeError), s')
    /\ csv_files (Tools.files s') = csv_files (Tools.files s)
    /\ trace (Tools.files s') = trace (Tools.files s) ++ [EvRead "CDC_midbln.csv"]
    /\ Tools.console s' = Tools.console s.
Proof.
  intros Ht Hfn. destruct s as [w c]. cbn [Tools.files Tools.console] in *.
  unfold AddWebpages.main, AddWebpages.NAMES. cbn [AddWebpages.names_loop].
  unfold Tools.bind at 1, Tools.lift at 1, csv_exists.
  cbn [Tools.files Tools.console]. rewrite Ht.
  unfold Tools.bind at 1. unfold AddWebpages.process_csv. cbv zeta.
  unfold Tools.bind at 1, Tools.lift at 1, read_csv, bind, emit.
  cbn [Tools.files Tools.console csv_files json_file trace]. rewrite Ht, Hfn.
  eexists. split; [reflexivity|]. repeat split.
Qed.

Lemma empty_file_aborts_the_run_witness :
  exists s',
    AddWebpages.main ExampleAdd.empty_first = (inl (Tools.Std TypeError), s')
    /\ csv_files (Tools.files s') = csv_files (Tools.files ExampleAdd.empty_first)
    /\ trace (Tools.files s') = [EvRead "CDC_midbln.csv"]
    /\ Tools.console s' = [].
Proof.
  exact (@empty_file_aborts_the_run ExampleAdd.empty_first (mkCsv None [])
           eq_refl eq_refl).
Defined.

(** * Further properties of the correctors *)

(** ** The liveness pass *)

(** X17: the liveness script never changes a CSV file, and a run that
    raises (the start-up checks fail, the JSON file is missing or is not
    an object with companies to loop over, a company is no dict) has
    written nothing: the JSON file is as it was. *)
Theorem liveness_writes_all_or_nothing E w :
  let r := VerifyWebpages.main E w in
  csv_files (snd r) = csv_files w
  /\ (forall e, fst r = Raises e ->
        json_file (snd r) = json_file w
        /\ exists evs, trace (snd r) = trace w ++ evs /\ writes evs = []).
Proof.
  cbn zeta. unfold VerifyWebpages.main.
  destruct (startup_cases E w) as [[_ Hs] | [_ (l & Hs)]].
  - destruct (verify_pass_cases E w) as (o & w' & evs & Hrun & Htr & Hcsv & Hcase).
    unfold bind. rewrite Hs, Hrun.
    destruct Hcase as [([e0 ->] & Hj & Hw & _) | (d & items & _ & _ & _ & Hres)].
    + cbn [fst snd]. split; [exact Hcsv|]. intros e _.
      split; [exact Hj|]. now exists evs.
    + cbn zeta in Hres. destruct Hres as (-> & _). cbn [fst snd].
      split; [exact Hcsv|]. intros e He. discriminate He.
  - unfold bind. rewrite Hs. cbn [fst snd]. split; [reflexivity|].
    intros e _. split; [reflexivity|]. now exists [EvPrint l].
Qed.

Lemma verify_step_count E c st :
  let st' := snd (verify_step E c st) in
  (fst st' + List.length (snd st'))%nat
  = (fst st + List.length (snd st) + b2n (broken E c))%nat.
Proof.
  cbn zeta. unfold verify_step, broken.
  destruct c as [ | | | | | |d]; cbn [snd b2n]; try lia.
  destruct (checked_url d) as [url|]; cbn [snd b2n]; try lia.
  destruct (VerifyWebpages.in_codes _ _); cbn [snd b2n]; try lia.
  destruct (opt_truthy _); [destruct (accepted _)|]; cbn [fst snd b2n];
    rewrite ?length_app; cbn [List.length]; lia.
Qed.

Lemma verify_result_count E : forall cs st,
  let st' := snd (verify_result E cs st) in
  (fst st' + List.length (snd st'))%nat
  = (fst st + List.length (snd st) + List.length (filter (broken E) cs))%nat.
Proof.
  induction cs as [|c cs IH]; intro st; cbn zeta; [cbn; lia|].
  cbn [verify_result filter]. pose proof (verify_step_count E c st) as H1.
  destruct (verify_step E c st) as [c' st1]. cbn zeta in H1. cbn [snd] in H1.
  specialize (IH st1). cbn zeta in IH.
  destruct (verify_result E cs st1) as [rest' st2]. cbn [snd] in *.
  rewrite IH, H1. destruct (broken E c); cbn [b2n List.length]; lia.
Qed.

(** One pass of the body, with what it asks and requests. *)
Lemma company_counts E c st :
  exists evs,
    says (VerifyWebpages.company E c st)
         (if is_dict c then Returns (verify_step E c st) else Raises AttributeError)
         evs
    /\ count is_asking evs = b2n (broken E c)
    /\ count is_head evs = (b2n (checked c) + b2n (rechecked E c))%nat.
Proof.
  unfold VerifyWebpages.company.
  destruct c as [ | b | z | m e | s | l | d];
    try (exists [EvRecord JSON_NAME]; split; [intro w; reflexivity | split; reflexivity]).
  cbn [is_dict verify_step broken checked rechecked]. unfold checked_url.
  set (name := get_default "name" (VStr "Unknown") d).
  set (country := get_default "country" (VStr "") d).
  destruct (get_default "webpage" VNone d) as [ | | | | url | | ] eqn:Hurl;
    try (exists [EvRecord JSON_NAME]; split; [|split; reflexivity];
         run_body; rewrite Hurl; reflexivity).
  destruct (PyStr.nonempty url && PyStr.startswith url "http") eqn:Hok.
  2:{ exists [EvRecord JSON_NAME]. split; [|split; reflexivity].
      run_body. rewrite Hurl. cbv [opt_truthy opt_str].
      destruct (PyStr.nonempty url), (PyStr.startswith url "http");
        try discriminate Hok; reflexivity. }
  apply andb_true_iff in Hok. destruct Hok as [Hne Hpre].
  pose proof (check_url_says E url 10) as Hc1.
  destruct (ask_ai_says E name country (openai_key E) (gemini_key E))
    as (aevs & Hs & _ & F).
  fold (resolve E name country) in Hs.
  assert (Hah : forall p, (forall ev, resolver_event ev = true -> p ev = false) ->
                          count p aevs = 0%nat).
  { intros p Hp. now apply count_resolver. }
  assert (Hnh : forall ev, resolver_event ev = true -> is_head ev = false).
  { intros [| | | | | |[]]; simpl; congruence. }
  destruct (VerifyWebpages.in_codes (status_of E url 10) VerifyWebpages.BAD_CODES) eqn:Hbad.
  2:{ exists [EvRecord JSON_NAME; EvHead url 10]. split; [|split; reflexivity].
      run_body. rewrite Hurl. cbv [opt_truthy opt_str]. rewrite Hne, Hpre.
      cbn [negb orb]. fold name country. rewrite Hc1, Hbad.
      unfold add_events. cbn. rewrite <- !app_assoc. reflexivity. }
  cbn [andb].
  destruct (opt_truthy (resolve E name country)) eqn:Ht.
  2:{ eexists. split.
      - run_body. rewrite Hurl. cbv [opt_truthy opt_str]. rewrite Hne, Hpre.
        cbn [negb orb]. fold name country. rewrite Hc1, Hbad.
        cbn [add_events trace csv_files json_file]. rewrite Hs.
        fold (opt_truthy (resolve E name country)). rewrite Ht.
        unfold add_events. cbn. rewrite <- !app_assoc. cbn. reflexivity.
      - rewrite !count_cons, !count_app, !count_cons, !count_nil.
        rewrite (Hah _ resolver_not_asking), (Hah _ Hnh). split; reflexivity. }
  pose proof (check_url_says E (opt_str (resolve E name country)) 10) as Hc2.
  destruct (accepted (status_of E (opt_str (resolve E name country)) 10)) eqn:Hacc.
  - eexists. split.
    + run_body. rewrite Hurl. cbv [opt_truthy opt_str]. rewrite Hne, Hpre.
      cbn [negb orb]. fold name country. rewrite Hc1, Hbad.
      cbn [add_events trace csv_files json_file]. rewrite Hs.
      fold (opt_truthy (resolve E name country)). rewrite Ht.
      fold (opt_str (resolve E name country)).
      cbn [add_events trace csv_files json_file]. rewrite Hc2.
      rewrite accepted_code, Hacc.
      unfold add_events. cbn. rewrite <- !app_assoc. cbn. reflexivity.
    + rewrite !count_cons, !count_app, !count_cons, !count_nil.
      rewrite (Hah _ resolver_not_asking), (Hah _ Hnh). split; reflexivity.
  - eexists. split.
    + run_body. rewrite Hurl. cbv [opt_truthy opt_str]. rewrite Hne, Hpre.
      cbn [negb orb]. fold name country. rewrite Hc1, Hbad.
      cbn [add_events trace csv_files json_file]. rewrite Hs.
      fold (opt_truthy (resolve E name country)). rewrite Ht.
      fold (opt_str (resolve E name country)).
      cbn [add_events trace csv_files json_file]. rewrite Hc2.
      rewrite accepted_code, Hacc.
      unfold add_events. cbn. rewrite <- !app_assoc. cbn. reflexivity.
    + rewrite !count_cons, !count_app, !count_cons, !count_nil.
      rewrite (Hah _ resolver_not_asking), (Hah _ Hnh). split; reflexivity.
Qed.

Lemma companies_loop_counts E : forall cs st,
  forallb is_dict cs = true ->
  exists evs,
    says (VerifyWebpages.companies_loop E cs st) (Returns (verify_result E cs st)) evs
    /\ count is_asking evs = List.length (filter (broken E) cs)
    /\ count is_head evs
       = (List.length (filter checked cs) + List.length (filter (rechecked E) cs))%nat.
Proof.
  induction cs as [|c rest IH]; intros st Hall.
  - exists []. split; [|split; reflexivity].
    intro w. cbn. unfold ret. now rewrite add_events_nil.
  - cbn [forallb] in Hall. apply andb_true_iff in Hall. destruct Hall as [Hc Hrest].
    destruct (company_counts E c st) as (e1 & H1 & A1 & R1). rewrite Hc in H1.
    cbn [VerifyWebpages.companies_loop verify_result filter].
    destruct (verify_step E c st) as [c' st'].
    destruct (IH st' Hrest) as (e2 & H2 & A2 & R2).
    exists (e1 ++ e2). split.
    + intro w. unfold bind. rewrite H1, H2, add_events_app.
      destruct (verify_result E rest st') as [rest' st'']. reflexivity.
    + rewrite !count_app, A1, A2, R1, R2.
      destruct (broken E c), (checked c), (rechecked E c); cbn [b2n List.length]; split; lia.
Qed.

(** X18: in a liveness pass that completes, the resolver is asked once
    for every company whose webpage is a non-empty string that starts
    with [http] and answers 404 or 423, and for no other company (not
    when the request fails, status -1); each of these companies is
    counted as fixed or listed as failed; and the pass makes one HEAD
    request for every webpage it checks and one for every candidate. *)
Theorem liveness_accounting E w fixed failed w' :
  VerifyWebpages.pass E w = (Returns (fixed, failed), w') ->
  exists d items evs,
    json_file w = Some (VDict d)
    /\ items_of (get_default "companies" (VList []) d) = Some items
    /\ trace w' = trace w ++ evs
    /\ (fixed + List.length failed)%nat = List.length (filter (broken E) items)
    /\ count is_asking evs = List.length (filter (broken E) items)
    /\ count is_head evs
       = (List.length (filter checked items)
          + List.length (filter (rechecked E) items))%nat.
Proof.
  intro Hrun.
  destruct (verify_pass_cases E w) as (o & w0 & evs0 & Hrun0 & _ & _ & Hcase).
  rewrite Hrun in Hrun0. injection Hrun0 as <- <-.
  destruct Hcase as [([e He] & _) | (d & items & Hj & Hit & Hall & Hres)];
    [discriminate He|].
  cbn zeta in Hres. destruct Hres as (Ho & _).
  destruct (companies_loop_counts E items (0%nat, []) Hall) as (evs & Hloop & A & R).
  exists d, items, ([EvRead JSON_NAME] ++ evs
                    ++ [EvWrite JSON_NAME;
                        EvPrint (LStillBroken fixed (List.length failed))]).
  split; [exact Hj|]. split; [exact Hit|].
  pose proof (verify_result_count E items (0%nat, [])) as Hcount.
  cbn zeta in Hcount. injection Ho as Ho.
  destruct (verify_result E items (0%nat, [])) as [cs' st'].
  cbn [snd] in Ho, Hcount. subst st'. cbn [fst snd List.length] in Hcount.
  assert (Htrace : trace w'
                   = trace w ++ [EvRead JSON_NAME] ++ evs
                     ++ [EvWrite JSON_NAME;
                         EvPrint (LStillBroken fixed (List.length failed))]).
  { revert Hrun. unfold VerifyWebpages.pass, read_json, bind at 1, bind at 1, emit.
    cbn [json_file csv_files trace]. rewrite Hj.
    unfold bind at 1. rewrite (get_companies_says (VDict d)). rewrite Hit.
    unfold bind at 1. rewrite Hloop.
    unfold bind, write_json, emit, print, ret, set_json, add_events.
    cbn [json_file csv_files trace fst snd]. intros [= <-].
    cbn [trace]. now rewrite <- !app_assoc. }
  split; [exact Htrace|]. split; [lia|].
  rewrite !count_app, A, R. cbn. split; lia.
Qed.

Lemma liveness_accounting_witness :
  exists d items evs,
    json_file Example.w = Some (VDict d)
    /\ items_of (get_default "companies" (VList []) d) = Some items
    /\ trace (snd (VerifyWebpages.pass Example.E Example.w)) = trace Example.w ++ evs
    /\ (1 + List.length (@nil VerifyWebpages.failed_entry))%nat
       = List.length (filter (broken Example.E) items)
    /\ count is_asking evs = List.length (filter (broken Example.E) items)
    /\ count is_head evs
       = (List.length (filter checked items)
          + List.length (filter (rechecked Example.E) items))%nat.
Proof.
  exact (@liveness_accounting Example.E Example.w 1 []
           (snd (VerifyWebpages.pass Example.E Example.w)) eq_refl).
Defined.

(** ** The classification pass *)

Lemma fixed_json_first_all E n data :
  (hits (map (json_hit E) (json_companies_of (Some data))) < n)%nat ->
  fixed_json_first E n data = fixed_json E data.
Proof.
  intro H. destruct data; try reflexivity.
  unfold fixed_json_first, fixed_json. now rewrite (fix_first_all _ _ _ H).
Qed.

(** X19: when the start-up checks pass, every CSV file is well formed
    (distinct column names, every line with as many cells as the header,
    none blank) and every JSON company is typed, a run with a budget
    that the flagged records do not use up leaves what a run without a
    budget leaves: it completes, inspects every record, reports the
    number of flagged records, and every CSV file with a webpage column
    and the JSON file hold each record with its webpage set to the
    candidate of the resolver where the record was eligible and the
    resolver had one, and as it was otherwise. *)
Theorem budget_not_reached E b w :
  started E = true -> inputs_ok w = true ->
  (hits (all_flags E w) < b)%nat ->
  exists w' evs,
    FixIpoWebpages.main E (Z.of_nat b) w = (Returns tt, w')
    /\ trace w' = trace w ++ evs ++ [EvPrint (LDone (hits (all_flags E w)))]
    /\ (forall name, In name FixIpoWebpages.CSVS ->
                     csv_files w' name = option_map (fixed_table E) (csv_files w name))
    /\ json_file w' = option_map (fixed_json E) (json_file w)
    /\ count is_replaced evs = hits (all_flags E w)
    /\ count is_record evs = List.length (all_flags E w).
Proof.
  intros Hstart Hok Hhits.
  assert (Hb : (1 <= b)%nat) by lia.
  destruct (pass_budget E w Hb Hok) as (w' & evs & Hrun & Htr & P & R & Hfiles).
  cbn zeta in Htr, P, Hfiles.
  replace (Nat.min b (hits (all_flags E w))) with (hits (all_flags E w)) in * by lia.
  rewrite (visited_short _ Hhits) in R.
  unfold all_flags in Hhits. rewrite hits_app in Hhits.
  destruct Hfiles as [Hcsv Hjson]; [lia|].
  exists w', evs. split.
  { unfold FixIpoWebpages.main, bind.
    destruct (startup_cases E w) as [[_ Hs] | [Hs _]]; [|congruence].
    now rewrite Hs. }
  split; [exact Htr|]. split; [exact Hcsv|]. split; [|split; assumption].
  rewrite Hjson. destruct (json_file w) as [data|]; [|reflexivity].
  cbn [option_map]. f_equal. apply fixed_json_first_all.
  lia.
Qed.

Lemma budget_not_reached_witness :
  exists w' evs,
    FixIpoWebpages.main Example.E (Z.of_nat 5) Example.w = (Returns tt, w')
    /\ trace w' = trace Example.w ++ evs
                  ++ [EvPrint (LDone (hits (all_flags Example.E Example.w)))]
    /\ (forall name, In name FixIpoWebpages.CSVS ->
                     csv_files w' name
                     = option_map (fixed_table Example.E) (csv_files Example.w name))
    /\ json_file w' = option_map (fixed_json Example.E) (json_file Example.w)
    /\ count is_replaced evs = hits (all_flags Example.E Example.w)
    /\ count is_record evs = List.length (all_flags Example.E Example.w).
Proof.
  apply (@budget_not_reached Example.E 5 Example.w); [reflexivity | reflexivity |].
  vm_compute. lia.
Defined.

(** X20: both scripts end with exit status 1 and one line on the
    console, before any file is read and before any request: when no
    key is set, and when the OpenAI key is set but its package does not
    import, even with a Gemini key; with a Gemini key alone the missing
    package is no obstacle. *)
Theorem startup_failures E limit w :
  (opt_truthy (openai_key E) = false -> opt_truthy (gemini_key E) = false ->
   FixIpoWebpages.main E limit w
   = (Raises (SystemExit 1), add_events [EvPrint LNoKey] w)
   /\ VerifyWebpages.main E w
      = (Raises (SystemExit 1), add_events [EvPrint LNoKey] w))
  /\ (opt_truthy (openai_key E) = true -> openai_importable E = false ->
      FixIpoWebpages.main E limit w
      = (Raises (SystemExit 1), add_events [EvPrint LInstallOpenAI] w)
      /\ VerifyWebpages.main E w
         = (Raises (SystemExit 1), add_events [EvPrint LInstallOpenAI] w))
  /\ (opt_truthy (openai_key E) = false -> opt_truthy (gemini_key E) = true ->
      startup E w = (Returns tt, w)).
Proof.
  unfold FixIpoWebpages.main, VerifyWebpages.main, startup.
  split; [|split].
  - intros -> ->. split; reflexivity.
  - intros -> ->. cbn [negb andb]. split; reflexivity.
  - intros -> ->. cbn [negb andb]. destruct (openai_importable E); reflexivity.
Qed.

Lemma startup_failures_witness :
  FixIpoWebpages.main ExampleStartup.no_keys 0 Example.w
  = (Raises (SystemExit 1), add_events [EvPrint LNoKey] Example.w)
  /\ VerifyWebpages.main ExampleStartup.no_keys Example.w
     = (Raises (SystemExit 1), add_events [EvPrint LNoKey] Example.w).
Proof.
  exact (proj1 (startup_failures ExampleStartup.no_keys 0 Example.w) eq_refl eq_refl).
Defined.

(** ** The classifier and the case of letters *)

Lemma lower_lower c : PyStr.lower (PyStr.lower c) = PyStr.lower c.
Proof. destruct c as [[] [] [] [] [] [] [] []]; vm_compute; reflexivity. Qed.

Lemma isspace_lower c : PyStr.isspace (PyStr.lower c) = PyStr.isspace c.
Proof. destruct c as [[] [] [] [] [] [] [] []]; vm_compute; reflexivity. Qed.

Lemma isword_lower c : PyStr.isword (PyStr.lower c) = PyStr.isword c.
Proof. destruct c as [[] [] [] [] [] [] [] []]; vm_compute; reflexivity. Qed.

Lemma newline_lower c :
  Ascii.eqb (PyStr.lower c) PyStr.newline = Ascii.eqb c PyStr.newline.
Proof. destruct c as [[] [] [] [] [] [] [] []]; vm_compute; reflexivity. Qed.

Lemma char_eq_lower p x : Re.char_eq true p (PyStr.lower x) = Re.char_eq true p x.
Proof. unfold Re.char_eq. now rewrite lower_lower. Qed.

Lemma item_match_lower i x :
  Re.item_match true i (PyStr.lower x) = Re.item_match true i x.
Proof. destruct i; cbn; [apply char_eq_lower | apply isspace_lower]. Qed.

Lemma word_before_lower prev :
  Re.word_before (option_map PyStr.lower prev) = Re.word_before prev.
Proof. destruct prev; cbn; [apply isword_lower | reflexivity]. Qed.

Lemma word_after_lower s : Re.word_after (Text.lower s) = Re.word_after s.
Proof. destruct s; cbn; [reflexivity | apply isword_lower]. Qed.

Lemma at_end_lower s : Re.at_end (Text.lower s) = Re.at_end s.
Proof.
  destruct s as [|c [|c' s]]; cbn; [reflexivity | apply newline_lower | reflexivity].
Qed.

Lemma set_match_lower items x :
  existsb (fun i => Re.item_match true i (PyStr.lower x)) items
  = existsb (fun i => Re.item_match true i x) items.
Proof.
  induction items as [|i items IH]; [reflexivity|].
  cbn [existsb]. now rewrite item_match_lower, IH.
Qed.

(** What an atom leaves of the lower-cased subject is what it leaves of
    the subject, lower-cased. *)
Lemma atom_match_lower a prev s :
  Re.atom_match true a (option_map PyStr.lower prev) (Text.lower s)
  = option_map (fun ps => (option_map PyStr.lower (fst ps), Text.lower (snd ps)))
               (Re.atom_match true a prev s).
Proof.
  destruct a as [c|items| | |]; cbn [Re.atom_match].
  - destruct s as [|x s]; cbn [Text.lower]; [reflexivity|].
    rewrite char_eq_lower. destruct (Re.char_eq true c x); reflexivity.
  - destruct s as [|x s]; cbn [Text.lower]; [reflexivity|].
    rewrite set_match_lower. destruct (existsb _ items); reflexivity.
  - rewrite word_before_lower, word_after_lower.
    destruct (xorb _ _); reflexivity.
  - destruct prev; reflexivity.
  - rewrite at_end_lower. destruct (Re.at_end s); reflexivity.
Qed.

Lemma branch_match_lower : forall b prev s,
  Re.branch_match true b (option_map PyStr.lower prev) (Text.lower s)
  = map Text.lower (Re.branch_match true b prev s).
Proof.
  induction b as [|[a|a] b IH]; intros prev s; cbn [Re.branch_match]; [reflexivity| |].
  - rewrite atom_match_lower.
    destruct (Re.atom_match true a prev s) as [[p' s']|]; cbn [option_map fst snd];
      [apply IH | reflexivity].
  - rewrite atom_match_lower, map_app, IH.
    destruct (Re.atom_match true a prev s) as [[p' s']|]; cbn [option_map fst snd];
      [now rewrite IH | reflexivity].
Qed.

Lemma match_at_lower r prev s :
  Re.match_at true r (option_map PyStr.lower prev) (Text.lower s)
  = map Text.lower (Re.match_at true r prev s).
Proof.
  unfold Re.match_at. induction r as [|b r IH]; [reflexivity|].
  cbn [flat_map]. now rewrite map_app, branch_match_lower, IH.
Qed.

Lemma found_map {A B} (f : A -> B) l : Re.found (map f l) = Re.found l.
Proof. destruct l; reflexivity. Qed.

Lemma search_from_unfold ic r prev s :
  Re.search_from ic r prev s
  = Re.found (Re.match_at ic r prev s)
    || match s with
       | String c s' => Re.search_from ic r (Some c) s'
       | EmptyString => false
       end.
Proof. destruct s; reflexivity. Qed.

Lemma search_from_lower r : forall s prev,
  Re.search_from true r (option_map PyStr.lower prev) (Text.lower s)
  = Re.search_from true r prev s.
Proof.
  induction s as [|c s IH]; intro prev;
    rewrite (search_from_unfold true r prev), search_from_unfold,
            match_at_lower, found_map; [reflexivity|].
  cbn [Text.lower]. f_equal. apply (IH (Some c)).
Qed.

Lemma search_lower p s : search_I p (Text.lower s) = search_I p s.
Proof.
  destruct p as [r|]; [|reflexivity]. unfold search_I, Re.search.
  apply (search_from_lower r s None).
Qed.

Lemma is_non_brand_page_lower s :
  is_non_brand_page (VStr (Text.lower s)) = is_non_brand_page (VStr s).
Proof.
  unfold is_non_brand_page. cbn [truthy isinstance_str negb orb].
  rewrite search_lower. destruct s; reflexivity.
Qed.

Lemma lower_other_case c : PyStr.lower (other_case c) = PyStr.lower c.
Proof.
  destruct c as [[] [] [] [] [] [] [] []]; vm_compute; reflexivity.
Qed.

Lemma same_but_case_lower : forall s1 s2,
  same_but_case s1 s2 = true -> Text.lower s1 = Text.lower s2.
Proof.
  induction s1 as [|a s1 IH]; intros [|b s2] H; try discriminate H; [reflexivity|].
  cbn [same_but_case] in H. apply andb_true_iff in H. destruct H as [Hc Hs].
  cbn [Text.lower]. rewrite (IH s2 Hs). f_equal.
  apply orb_true_iff in Hc. destruct Hc as [Hc | Hc]; apply Ascii.eqb_eq in Hc.
  - now subst b.
  - subst b. symmetry. apply lower_other_case.
Qed.

(** X21: the classifier does not see the case of ASCII letters: two
    URLs that differ in nothing but the case of letters [A]..[Z] and
    [a]..[z] are classified alike. *)
Theorem classifier_ignores_case url1 url2 :
  same_but_case url1 url2 = true ->
  is_non_brand_page (VStr url1) = is_non_brand_page (VStr url2).
Proof.
  intro H. apply same_but_case_lower in H.
  rewrite <- (is_non_brand_page_lower url1), H.
  apply is_non_brand_page_lower.
Qed.

Lemma classifier_ignores_case_witness :
  is_non_brand_page (VStr "HTTPS://IR.Example.COM/Shareholders")
  = is_non_brand_page (VStr "https://ir.example.com/shareholders").
Proof.
  exact (@classifier_ignores_case "HTTPS://IR.Example.COM/Shareholders"
           "https://ir.example.com/shareholders" eq_refl).
Defined.

(** ** The classification pass without a budget *)

(** One file without a budget. *)
Lemma csv_file_unlimited E name total lr w :
  match csv_files w name with Some t => csv_wf t | None => true end = true ->
  let h := hits (csv_flags E (csv_files w name)) in
  exists w' evs,
    FixIpoWebpages.csv_file E 0 name (total, lr) w
    = (Returns ((total + h)%nat, lr, Next), w')
    /\ trace w' = trace w ++ evs
    /\ json_file w' = json_file w
    /\ (forall p, p <> name -> csv_files w' p = csv_files w p)
    /\ csv_files w' name = option_map (fixed_table E) (csv_files w name)
    /\ count is_replaced evs = h
    /\ count is_record evs = List.length (csv_flags E (csv_files w name)).
Proof.
  intros Hwf h.
  destruct (csv_file_frame E 0 name (total, lr) w)
    as (o0 & w0 & e0 & Hrun0 & _ & _ & Hother & _).
  destruct (csv_file_cases E 0 name (total, lr) w)
    as (o & w' & evs & Hrun & Htr & Hj & Hcase).
  rewrite Hrun in Hrun0. injection Hrun0 as <- <-.
  exists w', evs. rewrite Hrun. cbn [fst snd] in Hcase.
  destruct Hcase as [(Hf & -> & R & P & _ & Hfl) | (t & fn & Ht & Hfn & Hcol & Hrest)].
  { subst h. rewrite Hfl. cbn [hits filter List.length]. rewrite Nat.add_0_r.
    split; [reflexivity|]. split; [exact Htr|]. split; [exact Hj|].
    split; [exact Hother|]. split; [|split; assumption].
    rewrite Hf. destruct (csv_files w name) as [t|] eqn:Ht; [|reflexivity].
    cbn [option_map]. f_equal. symmetry.
    destruct (mem "webpage" (header t)) eqn:Hcol.
    - apply fixed_table_same; [exact Hwf|]. unfold csv_flags in Hfl.
      rewrite Hcol in Hfl. apply map_eq_nil in Hfl. now rewrite Hfl.
    - unfold fixed_table. now rewrite Hcol. }
  rewrite Ht in Hwf. cbn zeta in Hrest.
  set (st0 := FixIpoWebpages.mkLocals 0 total lr) in *.
  destruct Hrest as [(Hty & _) | (_ & Hrest)];
    [now rewrite (csv_wf_typed t _ Hwf) in Hty|].
  destruct (hit_loop_unlimited (csv_hit E) (csv_update E) (rows t) st0) as [Hres Hvis].
  fold (csv_step E 0) in Hres, Hvis.
  destruct (@write_back_id E 0 t fn st0 Hwf Hfn) as (Hwb & _ & _).
  cbn zeta in Hwb. rewrite Hwb in Hrest.
  rewrite Hres, Hvis in Hrest.
  rewrite firstn_all in Hrest. cbn [fst snd FixIpoWebpages.fixed
    FixIpoWebpages.total_fixed FixIpoWebpages.limit_remaining st0] in Hrest.
  subst st0. cbn [FixIpoWebpages.fixed FixIpoWebpages.total_fixed
    FixIpoWebpages.limit_remaining Nat.add] in Hrest.
  assert (Hh : h = List.length (filter (csv_hit E) (rows t))).
  { subst h. rewrite Ht. unfold csv_flags, header. rewrite Hfn, Hcol.
    apply hits_map_filter. }
  assert (Hlen : List.length (csv_flags E (csv_files w name)) = List.length (rows t)).
  { rewrite Ht. unfold csv_flags, header. rewrite Hfn, Hcol. apply length_map. }
  destruct Hrest as (R & P & Hsub). rewrite Hh, Hlen, Ht. cbn [option_map].
  destruct Hsub as [(Hex & _) | [(_ & Hfix & -> & Hf & _) | (_ & Hfix & _ & Hf & ->)]].
  - rewrite andb_false_r in Hex. discriminate Hex.
  - rewrite Hfix. rewrite Nat.add_0_r.
    split; [reflexivity|]. split; [exact Htr|]. split; [exact Hj|].
    split; [exact Hother|]. split; [|split; [rewrite P; exact Hfix | exact R]].
    rewrite Hf, Ht. f_equal. symmetry. now apply fixed_table_same.
  - split; [reflexivity|]. split; [exact Htr|]. split; [exact Hj|].
    split; [exact Hother|]. split; [|split; assumption].
    rewrite Hf. cbv beta. rewrite String.eqb_refl. f_equal.
    now rewrite (fixed_table_written E t Hfn Hcol).
Qed.

(** All CSV files without a budget. *)
Lemma csv_files_loop_unlimited E : forall names total lr w,
  nodupb names = true -> files_wf w names = true ->
  exists w' evs,
    FixIpoWebpages.csv_files_loop E 0 names (total, lr) w
    = (Returns ((total + hits (files_flags E w names))%nat, lr), w')
    /\ trace w' = trace w ++ evs
    /\ json_file w' = json_file w
    /\ (forall p, mem p names = false -> csv_files w' p = csv_files w p)
    /\ (forall p, mem p names = true ->
                  csv_files w' p = option_map (fixed_table E) (csv_files w p))
    /\ count is_replaced evs = hits (files_flags E w names)
    /\ count is_record evs = List.length (files_flags E w names).
Proof.
  induction names as [|name rest IH]; intros total lr w Hnd Hwf.
  - exists w, []. cbn. rewrite Nat.add_0_r, app_nil_r. unfold ret.
    repeat split. intros p Hp. discriminate Hp.
  - cbn [nodupb] in Hnd. apply andb_true_iff in Hnd. destruct Hnd as [Hnot Hnd].
    apply negb_true_iff in Hnot.
    cbn [files_wf forallb] in Hwf. apply andb_true_iff in Hwf.
    destruct Hwf as [Hwf1 Hwf].
    destruct (@csv_file_unlimited E name total lr w Hwf1)
      as (w1 & e1 & Hrun & Htr & Hj & Hother & Hself & P1 & R1).
    assert (Hrest : forall p, mem p rest = true -> csv_files w1 p = csv_files w p).
    { intros p Hp. apply Hother. intros ->. rewrite Hp in Hnot. discriminate Hnot. }
    destruct (@files_same E w w1 rest Hrest) as [Hfl Hwf'].
    fold (files_wf w rest) in Hwf. rewrite <- Hwf' in Hwf.
    destruct (IH (total + hits (csv_flags E (csv_files w name)))%nat lr w1 Hnd Hwf)
      as (w2 & e2 & Hrun2 & Htr2 & Hj2 & Hout2 & Hin2 & P2 & R2).
    exists w2, (e1 ++ e2).
    cbn [FixIpoWebpages.csv_files_loop]. unfold bind at 1. rewrite Hrun, Hrun2.
    unfold files_flags in *. cbn [flat_map]. rewrite hits_app, length_app, Hfl in *.
    rewrite Nat.add_assoc. split; [reflexivity|].
    split; [rewrite Htr2, Htr; now rewrite app_assoc|].
    split; [now rewrite Hj2|].
    split; [|split; [|split; rewrite count_app; [now rewrite P1, P2 | now rewrite R1, R2]]].
    + intros p Hp. cbn [mem existsb] in Hp. apply orb_false_iff in Hp.
      destruct Hp as [Hp1 Hp2]. fold (mem p rest) in Hp2.
      rewrite (Hout2 p Hp2). apply Hother. intros ->.
      rewrite String.eqb_refl in Hp1. discriminate Hp1.
    + intros p Hp. cbn [mem existsb] in Hp. fold (mem p rest) in Hp.
      destruct (mem p rest) eqn:Hpr.
      * rewrite (Hin2 p Hpr). now rewrite (Hrest p Hpr).
      * rewrite orb_false_r in Hp. apply String.eqb_eq in Hp. subst p.
        rewrite (Hout2 name Hpr). exact Hself.
Qed.

(** The JSON file without a budget. *)
Lemma json_part_unlimited E total lr w :
  json_typed (json_file w) = true ->
  let jf := map (json_hit E) (json_companies_of (json_file w)) in
  exists w' evs,
    FixIpoWebpages.json_part E 0 (total, lr) w = (Returns (total + hits jf)%nat, w')
    /\ trace w' = trace w ++ evs
    /\ csv_files w' = csv_files w
    /\ json_file w' = option_map (fixed_json E) (json_file w)
    /\ count is_replaced evs = hits jf
    /\ count is_record evs = List.length jf.
Proof.
  intros Hty jf.
  destruct (json_part_cases E 0 (total, lr) w)
    as (o & w' & evs & Hrun & Htr & Hcsv & Hcase).
  exists w', evs. rewrite Hrun. cbn [fst snd] in Hcase.
  destruct Hcase as [(-> & -> & Hj & [Hnone | Hx]) | (data & Hd & _ & Hsub)];
    [|discriminate Hx|].
  { subst jf. rewrite Hj, Hnone. cbn. rewrite Nat.add_0_r.
    repeat split; assumption. }
  rewrite Hd in Hty. destruct (@json_typed_items data Hty) as (d & -> & Hit & Hall).
  subst jf. rewrite Hd. set (items := json_companies_of (Some (VDict d))) in *.
  destruct Hsub as [(Hno & _) | (d0 & items0 & [= <-] & Hit0 & Hrest)];
    [now destruct (Hno d items eq_refl)|].
  rewrite Hit in Hit0. injection Hit0 as <-. cbn zeta in Hrest.
  set (st0 := FixIpoWebpages.mkLocals 0 total lr) in *.
  destruct (hit_loop_unlimited (json_hit E) (json_update E) items st0) as [Hres Hvis].
  fold (json_step E 0) in Hres, Hvis. rewrite Hres, Hvis, firstn_all in Hrest.
  rewrite Hall in Hrest.
  destruct Hrest as [(Hf & _) | (_ & -> & R & P & Hw)]; [discriminate Hf|].
  cbn [fst snd FixIpoWebpages.fixed FixIpoWebpages.total_fixed st0 Nat.add] in *.
  rewrite hits_map_filter, length_map. cbn [option_map fixed_json]. fold items.
  split; [reflexivity|]. split; [exact Htr|]. split; [exact Hcsv|].
  split; [|split; assumption].
  destruct Hw as [(Hfix & Hj & _) | (_ & Hj & _)].
  - rewrite Hj, Hd. f_equal. f_equal. unfold json_fix.
    rewrite (map_no_hit (json_hit E) (json_update E) items Hfix).
    symmetry. now apply with_companies_same.
  - rewrite Hj. reflexivity.
Qed.

(** X22: without a budget every replacement is saved: on well-formed
    tables and typed companies the run completes, and afterwards every
    table with a webpage column holds each of its rows with the webpage
    replaced where the row was eligible and the resolver had a
    candidate, and the JSON file holds each company likewise. *)
Theorem unlimited_run_saves_every_replacement E w :
  started E = true -> inputs_ok w = true ->
  exists w' evs,
    FixIpoWebpages.main E 0 w = (Returns tt, w')
    /\ trace w' = trace w ++ evs ++ [EvPrint (LDone (hits (all_flags E w)))]
    /\ (forall name, In name FixIpoWebpages.CSVS ->
                     csv_files w' name = option_map (fixed_table E) (csv_files w name))
    /\ json_file w' = option_map (fixed_json E) (json_file w)
    /\ count is_replaced evs = hits (all_flags E w)
    /\ count is_record evs = List.length (all_flags E w).
Proof.
  intros Hstart Hok. unfold inputs_ok in Hok. apply andb_true_iff in Hok.
  destruct Hok as [Hwf Hty]. unfold all_flags.
  set (cf := files_flags E w FixIpoWebpages.CSVS).
  set (jf := map (json_hit E) (json_companies_of (json_file w))).
  rewrite hits_app, length_app.
  destruct (@csv_files_loop_unlimited E FixIpoWebpages.CSVS 0 0 w nodupb_CSVS Hwf)
    as (w1 & e1 & Hrun1 & Htr1 & Hj1 & _ & Hin1 & P1 & R1).
  fold cf in Hrun1, P1, R1. cbn [Nat.add] in Hrun1.
  assert (Hty1 : json_typed (json_file w1) = true) by now rewrite Hj1.
  destruct (@json_part_unlimited E (hits cf) 0 w1 Hty1)
    as (w2 & e2 & Hrun2 & Htr2 & Hcsv2 & Hj2 & P2 & R2).
  cbn zeta in Hrun2, P2, R2. rewrite Hj1 in Hrun2, Hj2, P2, R2.
  fold jf in Hrun2, P2, R2.
  unfold FixIpoWebpages.main.
  destruct (startup_cases E w) as [[_ Hs] | [Hn _]]; [|congruence].
  unfold bind at 1. rewrite Hs. unfold FixIpoWebpages.pass, bind at 1.
  rewrite Hrun1. unfold bind at 1. rewrite Hrun2.
  exists (add_events [EvPrint (LDone (hits cf + hits jf))] w2), (e1 ++ e2).
  split; [reflexivity|].
  split; [cbn; rewrite Htr2, Htr1; now rewrite <- !app_assoc|].
  split; [|split; [exact Hj2 | rewrite !count_app; split; lia]].
  intros name Hin. cbn [csv_files add_events]. rewrite Hcsv2.
  apply Hin1. now apply mem_In.
Qed.

Lemma unlimited_run_saves_every_replacement_witness :
  exists w' evs,
    FixIpoWebpages.main Example.E 0 Example.w = (Returns tt, w')
    /\ trace w' = trace Example.w ++ evs
                  ++ [EvPrint (LDone (hits (all_flags Example.E Example.w)))]
    /\ (forall name, In name FixIpoWebpages.CSVS ->
                     csv_files w' name
                     = option_map (fixed_table Example.E) (csv_files Example.w name))
    /\ json_file w' = option_map (fixed_json Example.E) (json_file Example.w)
    /\ count is_replaced evs = hits (all_flags Example.E Example.w)
    /\ count is_record evs = List.length (all_flags Example.E Example.w).
Proof.
  exact (@unlimited_run_saves_every_replacement Example.E Example.w eq_refl eq_refl).
Defined.

(** ** What is written into a webpage *)

Lemma answer_prefix importable r url :
  provider_answer importable r = Some url -> PyStr.startswith url "http" = true.
Proof.
  unfold provider_answer. destruct importable; [|discriminate].
  destruct r as [text|msg]; [|discriminate].
  rewrite parse_ai_url_prefix. cbv zeta. unfold PyStr.startswith.
  destruct (String.prefix "http" _) eqn:Hp; [|discriminate].
  now intros [= <-].
Qed.

Lemma resolve_prefix E name country new :
  resolve E name country = Some new -> PyStr.startswith new "http" = true.
Proof.
  unfold resolve, provider_answers.
  pose proof (@answer_prefix (openai_importable E)
                (openai_create E (opt_str (openai_key E)) name country)) as T1.
  pose proof (@answer_prefix (genai_importable E)
                (gemini_generate E (opt_str (gemini_key E)) name country)) as T2.
  destruct (opt_truthy (openai_key E)), (opt_truthy (gemini_key E));
    cbn [app first_candidate];
    repeat match goal with
           | |- context [match ?a with Some _ => _ | None => _ end] =>
               destruct a; cbn [first_candidate] in *
           end;
    intros [= <-]; first [now apply T1 | now apply T2 | discriminate].
Qed.

Lemma verify_step_safe E c st :
  let c' := fst (verify_step E c st) in
  c' = c
  \/ exists d new,
      c = VDict d /\ c' = VDict (dict_set "webpage" (VStr new) d)
      /\ broken E c = true
      /\ PyStr.startswith new "http" = true
      /\ accepted (status_of E new 10) = true.
Proof.
  cbn zeta. unfold verify_step, broken.
  destruct c as [ | | | | | |d]; try (now left).
  destruct (checked_url d) as [url|]; [|now left].
  destruct (VerifyWebpages.in_codes _ _); [|now left].
  destruct (resolve E _ _) as [new|] eqn:Hr; cbn [opt_truthy opt_str]; [|now left].
  destruct (PyStr.nonempty new); [|now left].
  destruct (accepted (status_of E new 10)) eqn:Ha; [|now left].
  right. exists d, new. cbn [fst]. repeat split; auto.
  eapply resolve_prefix; eassumption.
Qed.

Lemma verify_result_safe E : forall cs st,
  Forall2 (fun c c' =>
             c' = c
             \/ exists d new,
                 c = VDict d /\ c' = VDict (dict_set "webpage" (VStr new) d)
                 /\ broken E c = true
                 /\ PyStr.startswith new "http" = true
                 /\ accepted (status_of E new 10) = true)
          cs (fst (verify_result E cs st)).
Proof.
  induction cs as [|c cs IH]; intro st; [constructor|].
  cbn [verify_result]. pose proof (verify_step_safe E c st) as H1. cbn zeta in H1.
  destruct (verify_step E c st) as [c' st1]. specialize (IH st1).
  destruct (verify_result E cs st1) as [rest' st2]. cbn [fst] in *.
  now constructor.
Qed.

(** X23: a liveness pass that completes changes a company only by
    giving it, as webpage, a URL that starts with [http] and whose own
    check answered with a status in [200,400) other than 404 and 423,
    and only a company whose webpage answered 404 or 423; every other
    company, and every other field, is saved as it was, in the same
    order. *)
Theorem liveness_replaces_by_live_pages_only E w fixed failed w' :
  VerifyWebpages.pass E w = (Returns (fixed, failed), w') ->
  exists d items items',
    json_file w = Some (VDict d)
    /\ items_of (get_default "companies" (VList []) d) = Some items
    /\ json_file w' = Some (VDict (with_companies d items'))
    /\ Forall2 (fun c c' =>
                  c' = c
                  \/ exists dc new,
                      c = VDict dc /\ c' = VDict (dict_set "webpage" (VStr new) dc)
                      /\ broken E c = true
                      /\ PyStr.startswith new "http" = true
                      /\ accepted (status_of E new 10) = true)
               items items'.
Proof.
  intro Hrun.
  destruct (verify_pass_cases E w) as (o & w0 & evs0 & Hrun0 & _ & _ & Hcase).
  rewrite Hrun in Hrun0. injection Hrun0 as <- <-.
  destruct Hcase as [([e He] & _) | (d & items & Hj & Hit & Hall & Hres)];
    [discriminate He|].
  cbn zeta in Hres. destruct Hres as (_ & Hjson & _).
  exists d, items, (fst (verify_result E items (0%nat, []))).
  split; [exact Hj|]. split; [exact Hit|]. split; [exact Hjson|].
  apply verify_result_safe.
Qed.

Lemma liveness_replaces_by_live_pages_only_witness :
  exists d items items',
    json_file Example.w = Some (VDict d)
    /\ items_of (get_default "companies" (VList []) d) = Some items
    /\ json_file (snd (VerifyWebpages.pass Example.E Example.w))
       = Some (VDict (with_companies d items'))
    /\ Forall2 (fun c c' =>
                  c' = c
                  \/ exists dc new,
                      c = VDict dc /\ c' = VDict (dict_set "webpage" (VStr new) dc)
                      /\ broken Example.E c = true
                      /\ PyStr.startswith new "http" = true
                      /\ accepted (status_of Example.E new 10) = true)
               items items'.
Proof.
  exact (@liveness_replaces_by_live_pages_only Example.E Example.w 1 []
           (snd (VerifyWebpages.pass Example.E Example.w)) eq_refl).
Defined.

(** X24: what a pass of a body of the classification script writes into
    a webpage is the answer of the resolver for the record, which starts
    with [http]: a body that returns hands on the record as it was, or
    with its webpage set to the candidate the resolver has for the name
    and country of the record, and then the record was one the body asks
    about. *)
Theorem classification_writes_urls_only :
  (forall E limit path r st w r' st' c w',
      FixIpoWebpages.csv_row E limit path r st w = (Returns (r', st', c), w') ->
      r' = r
      \/ exists new,
          r' = set_cell "webpage" new r
          /\ csv_answer E r = Some new
          /\ PyStr.startswith new "http" = true
          /\ claimed_eligible (csv_url r) = true)
  /\ (forall E limit d st w c' st' k w',
         FixIpoWebpages.json_company E limit (VDict d) st w
         = (Returns (c', st', k), w') ->
         c' = VDict d
         \/ exists new,
             c' = VDict (dict_set "webpage" (VStr new) d)
             /\ company_answer E d = Some new
             /\ PyStr.startswith new "http" = true
             /\ company_needs_fix d = true).
Proof.
  split.
  - intros E limit path r st w r' st' c w' Hrun.
    destruct (csv_row_says E limit path r st) as (evs & Hs & _).
    rewrite Hs in Hrun. destruct (typed_row r); [|discriminate Hrun].
    injection Hrun as Hstep _.
    unfold csv_step, hit_step in Hstep.
    destruct (csv_hit E r) eqn:Hhit.
    + destruct (FixIpoWebpages.count_fix limit st) as [st1 c1].
      injection Hstep as <- _ _. right.
      unfold csv_hit in Hhit. apply andb_true_iff in Hhit. destruct Hhit as [He Ha].
      unfold csv_update. destruct (csv_answer E r) as [new|] eqn:Hn; [|discriminate Ha].
      exists new. cbn [opt_str]. split; [reflexivity|]. split; [reflexivity|].
      split; [|exact He]. eapply resolve_prefix. exact Hn.
    + injection Hstep as <- _ _. now left.
  - intros E limit d st w c' st' k w' Hrun.
    destruct (json_company_says E limit (VDict d) st) as (evs & Hs & _).
    rewrite Hs in Hrun. destruct (typed_company (VDict d)); [|discriminate Hrun].
    injection Hrun as Hstep _. unfold json_step, hit_step in Hstep.
    destruct (json_hit E (VDict d)) eqn:Hhit.
    + destruct (FixIpoWebpages.count_fix limit st) as [st1 c1].
      injection Hstep as <- _ _. right.
      cbn [json_hit] in Hhit. apply andb_true_iff in Hhit. destruct Hhit as [He Ha].
      cbn [json_update]. destruct (company_answer E d) as [new|] eqn:Hn; [|discriminate Ha].
      exists new. cbn [opt_str]. split; [reflexivity|]. split; [reflexivity|].
      split; [|exact He]. eapply resolve_prefix. exact Hn.
    + injection Hstep as <- _ _. now left.
Qed.

Lemma classification_writes_urls_only_witness :
  set_cell "webpage" "https://www.acme.com"
    (read_row Example.columns Example.quoted_page)
  = read_row Example.columns Example.quoted_page
  \/ exists new,
      set_cell "webpage" "https://www.acme.com"
        (read_row Example.columns Example.quoted_page)
      = set_cell "webpage" new (read_row Example.columns Example.quoted_page)
      /\ csv_answer Example.E (read_row Example.columns Example.quoted_page)
         = Some new
      /\ PyStr.startswith new "http" = true
      /\ claimed_eligible (csv_url (read_row Example.columns Example.quoted_page))
         = true.
Proof.
  refine (proj1 classification_writes_urls_only Example.E 0%Z "CDC_midbln.csv"
            (read_row Example.columns Example.quoted_page)
            Example.st0 Example.w _ _ _ _ _).
  vm_compute. reflexivity.
Defined.
